(** * Room membership and event fan-out of the collaboration server

    Shallow embedding of the socket.io server of the repository (the strict,
    acknowledgment-based server and, in [Module Lenient], the
    fire-and-forget one) and of the client constants it has to agree with.

    - [JsMap]      : a JavaScript [Map] with string keys, kept in insertion
                     order (iteration order is observable through
                     [getRoomForSocket] and [getUsersInRoom]).
    - [State]      : the two process-wide registries [rooms] and
                     [userSocketMap], together with socket.io's own room
                     table ([sids]), which decides who receives a broadcast,
                     and the sessions it keeps for connection state
                     recovery.
    - handlers     : one function per [socket.on(...)] registration, returning
                     the new state and the list of messages delivered.
    - [step]/[run] : the event loop, one inbound event at a time. *)

From Stdlib Require Import List String Ascii Bool ZArith Lia.
Import ListNotations.
Open Scope string_scope.
Open Scope list_scope.

(* ------------------------------------------------------------------ *)
(** ** JavaScript [Map] keyed by strings *)

Module JsMap.

Section Ops.
Context {V : Type}.

Definition t := list (string * V).

Definition empty : t := [].

Fixpoint get (m : t) (k : string) : option V :=
  match m with
  | [] => None
  | (k', v) :: m' => if String.eqb k k' then Some v else get m' k
  end.

Definition has (m : t) (k : string) : bool :=
  match get m k with Some _ => true | None => false end.

(** [m.set(k, v)]: an existing key keeps its position, a new key goes last. *)
Fixpoint set (m : t) (k : string) (v : V) : t :=
  match m with
  | [] => [(k, v)]
  | (k', v') :: m' =>
      if String.eqb k k' then (k', v) :: m' else (k', v') :: set m' k v
  end.

Fixpoint delete (m : t) (k : string) : t :=
  match m with
  | [] => []
  | (k', v') :: m' =>
      if String.eqb k k' then m' else (k', v') :: delete m' k
  end.

Definition size (m : t) : nat := List.length m.
Definition keys (m : t) : list string := map fst m.
Definition values (m : t) : list V := map snd m.

(** Structural invariant of a [Map]: no key occurs twice. *)
Definition wf (m : t) : Prop := NoDup (keys m).
End Ops.

Arguments t : clear implicits.

End JsMap.

(* ------------------------------------------------------------------ *)
(** ** Data model *)

Module User.
(** The object built by the join handler:
    [{ id: socket.id, username, joinedAt, roomId }].  [joinedAt] is the
    clock reading taken when the join commits. *)
Record t := mk { id : string; username : string; joinedAt : Z; roomId : string }.
End User.

Module LenientUser.
(** The user object of the lenient server: [{ id, username, joinedAt }]. *)
Record t := mk { id : string; username : string; joinedAt : Z }.
End LenientUser.

(** An inbound payload: a JavaScript object with string-valued fields.  A
    field that is absent reads as [undefined], here [None]. *)
Definition Obj := JsMap.t string.

Definition field (o : Obj) (k : string) : option string := JsMap.get o k.

(** JavaScript truthiness of a string: only the empty string is falsy. *)
Definition truthy (s : string) : bool := negb (s =? "").

(** Outbound payloads, one constructor per object literal the server emits. *)
Inductive Payload :=
| PError (error : string)
| PMessage (message : string)
| PJoinAccepted (id username roomId : string) (users : list User.t)
| PUserJoined (id username : string) (joinedAt : Z) (roomId : string)
| PUserLeft (socketId : string) (username : option string)
| PCodeUpdate (code cursorPos filePath : option string) (sender : string) (timestamp : Z)
| PReceiveMessage (username text : option string)
| PCursorMove (username x y : option string) (timestamp : Z)
| PFileEvent (filePath code : option string) (by_ : string) (timestamp : Z)
| PJoinSuccess (roomId : string) (users : list LenientUser.t)
| PUserJoinedSnapshot (user : LenientUser.t) (users : list LenientUser.t).

(** What the join handler passes to its acknowledgment [callback]. *)
Inductive Ack :=
| AckError (error : string)
| AckSuccess (roomId : string) (users : list User.t) (yourId : string).

(** Observable effects of a handler, in program order: a message delivered
    to one socket under an event name, or one invocation of the
    acknowledgment callback of the socket's request. *)
Inductive Effect :=
| Emit (to : string) (event : string) (p : Payload)
| Callback (socket : string) (a : Ack).

(** Process state.  [rooms] and [userSocketMap] are the server's own
    registries.  [sids] is socket.io's room table (socket id to the rooms the
    socket has joined): it is written by [socket.join]/[socket.leave] and by
    the transport on connect and disconnect, and read by every broadcast.
    [sessions] is what [connectionStateRecovery] keeps of a closed
    connection: under the socket's id, the rooms the socket was in. *)
Record State := mkState {
  rooms : JsMap.t (JsMap.t User.t);
  userSocketMap : JsMap.t User.t;
  sids : JsMap.t (list string);
  sessions : JsMap.t (list string)
}.

Definition init : State :=
  {| rooms := JsMap.empty; userSocketMap := JsMap.empty; sids := JsMap.empty;
     sessions := JsMap.empty |}.

(* ------------------------------------------------------------------ *)
(** ** socket.io primitives used by the handlers *)

Definition joined (room : string) (rs : list string) : bool :=
  existsb (String.eqb room) rs.

(** Sockets that have joined [room], in connection order. *)
Definition in_room (tbl : JsMap.t (list string)) (room : string) : list string :=
  map fst (filter (fun e => joined room (snd e)) tbl).

(** [socket.join(room)] *)
Definition socket_join (tbl : JsMap.t (list string)) (socket room : string) :=
  match JsMap.get tbl socket with
  | Some rs => JsMap.set tbl socket (if joined room rs then rs else rs ++ [room])
  | None => tbl
  end.

(** [socket.leave(room)] *)
Definition socket_leave (tbl : JsMap.t (list string)) (socket room : string) :=
  match JsMap.get tbl socket with
  | Some rs => JsMap.set tbl socket (filter (fun r => negb (r =? room)) rs)
  | None => tbl
  end.

(** [socket.emit(event, p)] on a server created with
    [connectionStateRecovery]: socket.io sends the packet as a broadcast to
    the room named by the socket's id, so it goes to every socket that has
    joined that room.  A socket joins the room of its own id on connection;
    nothing keeps it there, and nothing keeps the others out. *)
Definition socket_emit (tbl : JsMap.t (list string))
    (socket event : string) (p : Payload) : list Effect :=
  map (fun s => Emit s event p) (in_room tbl socket).

(** [socket.to(room).emit(event, p)]: a broadcast to [room] that excepts
    the room named by the sender's id.  It goes to every socket that has
    joined [room] and has not joined the room named [socket]. *)
Definition socket_to_emit (tbl : JsMap.t (list string))
    (socket room event : string) (p : Payload) : list Effect :=
  map (fun s => Emit s event p)
      (filter (fun s => negb (existsb (String.eqb s) (in_room tbl socket)))
              (in_room tbl room)).

(** The room named by [socket]'s id holds [socket] and no other socket: the
    case in which [socket.emit] reaches the socket alone and [socket.to]
    leaves out the sender alone. *)
Definition own_room (tbl : JsMap.t (list string)) (socket : string) : Prop :=
  in_room tbl socket = [socket].

(** [io.to(room).emit(event, p)]: to every socket in [room]. *)
Definition io_to_emit (tbl : JsMap.t (list string))
    (room event : string) (p : Payload) : list Effect :=
  map (fun s => Emit s event p) (in_room tbl room).

(* ------------------------------------------------------------------ *)
(** ** Helper functions of the server *)

Definition getUsersInRoom {U : Type} (rms : JsMap.t (JsMap.t U))
    (roomId : string) : list U :=
  match JsMap.get rms roomId with
  | Some room => JsMap.values room
  | None => []
  end.

(** First room, in insertion order, whose member map has [socketId]. *)
Fixpoint getRoomForSocket {U : Type} (rms : JsMap.t (JsMap.t U))
    (socketId : string) : option string :=
  match rms with
  | [] => None
  | (roomId, users) :: rest =>
      if JsMap.has users socketId then Some roomId
      else getRoomForSocket rest socketId
  end.

(* ------------------------------------------------------------------ *)
(** ** Handlers of the strict server *)

Definition with_rooms (st : State) (rms : JsMap.t (JsMap.t User.t)) : State :=
  {| rooms := rms; userSocketMap := userSocketMap st; sids := sids st;
     sessions := sessions st |}.

Definition with_sids (st : State) (tbl : JsMap.t (list string)) : State :=
  {| rooms := rooms st; userSocketMap := userSocketMap st; sids := tbl;
     sessions := sessions st |}.

Definition with_userSocketMap (st : State) (usm : JsMap.t User.t) : State :=
  {| rooms := rooms st; userSocketMap := usm; sids := sids st;
     sessions := sessions st |}.

Definition with_sessions (st : State) (ss : JsMap.t (list string)) : State :=
  {| rooms := rooms st; userSocketMap := userSocketMap st; sids := sids st;
     sessions := ss |}.

(** The duplicate-username scan of the join handler:
    [Array.from(rooms.get(roomId)?.values() || [])
       .find(user => user.username === username && user.id !== socket.id)]. *)
Definition existingUser (st : State) (socket roomId username : string)
  : option User.t :=
  find (fun user => (User.username user =? username)
                    && negb (User.id user =? socket))
       (match JsMap.get (rooms st) roomId with
        | Some room => JsMap.values room
        | None => []
        end).

(** "Leave any existing room" block of the join handler.  [roomUsers] is
    the member map stored in [rooms]; deleting from it in place is written
    as storing the shrunk map back under the same key.  [userSocketMap] is
    left alone here. *)
Definition leave_existing (st : State) (socket : string) : State * list Effect :=
  match getRoomForSocket (rooms st) socket with
  | None => (st, [])
  | Some currentRoom =>
      if truthy currentRoom then
        let st1 := with_sids st (socket_leave (sids st) socket currentRoom) in
        match JsMap.get (rooms st1) currentRoom with
        | None => (st1, [])
        | Some roomUsers =>
            let roomUsers' := JsMap.delete roomUsers socket in
            if (JsMap.size roomUsers' =? 0)%nat then
              (with_rooms st1 (JsMap.delete (rooms st1) currentRoom), [])
            else
              (with_rooms st1 (JsMap.set (rooms st1) currentRoom roomUsers'),
               socket_to_emit (sids st1) socket currentRoom "user-left"
                 (PUserLeft socket
                    (option_map User.username
                       (JsMap.get (userSocketMap st1) socket))))
        end
      else (st, [])
  end.

(** "Join new room" block: [socket.join], lazy creation of the room, the
    two registry writes, the snapshot and the three notifications. *)
Definition commit_join (st : State) (socket roomId username : string) (now : Z)
  : State * list Effect :=
  let st1 := with_sids st (socket_join (sids st) socket roomId) in
  let st2 :=
    if JsMap.has (rooms st1) roomId then st1
    else with_rooms st1 (JsMap.set (rooms st1) roomId JsMap.empty) in
  let user := User.mk socket username now roomId in
  let st3 :=
    match JsMap.get (rooms st2) roomId with
    | Some room =>
        with_rooms st2 (JsMap.set (rooms st2) roomId (JsMap.set room socket user))
    | None => st2
    end in
  let st4 := with_userSocketMap st3 (JsMap.set (userSocketMap st3) socket user) in
  let usersInRoom := getUsersInRoom (rooms st4) roomId in
  (st4,
   socket_emit (sids st4) socket "join-accepted"
     (PJoinAccepted socket username roomId usersInRoom)
   ++ socket_to_emit (sids st4) socket roomId "user-joined"
        (PUserJoined socket username (User.joinedAt user) roomId)
   ++ [Callback socket (AckSuccess roomId usersInRoom socket)]).

(** [data || {}]: an absent payload reads as an object without fields. *)
Definition or_empty_object (data : option Obj) : Obj :=
  match data with Some o => o | None => JsMap.empty end.

(** [socket.on("join-request", (data, callback = () => {}) => ...)].
    The handler does the same whether or not the request came with an
    acknowledgment function.  The [Callback] effect records what it passes
    to [callback]: the acknowledgment function of the request when the
    client sent one, the default no-op otherwise (see [sent]). *)
Definition join_request (st : State) (socket : string) (data : option Obj)
    (now : Z) : State * list Effect :=
  let d := or_empty_object data in
  match field d "roomId", field d "username" with
  | Some roomId, Some username =>
      if negb (truthy roomId) || negb (truthy username) then
        (st, [Callback socket (AckError "Room ID and username are required")])
      else
        match existingUser st socket roomId username with
        | Some _ =>
            let error :=
              String.append "Username '"
                (String.append username "' is already taken in this room") in
            (st, socket_emit (sids st) socket "username_exists" (PError error)
                 ++ [Callback socket (AckError error)])
        | None =>
            let '(st1, out1) := leave_existing st socket in
            let '(st2, out2) := commit_join st1 socket roomId username now in
            (st2, out1 ++ out2)
        end
  | _, _ =>
      (st, [Callback socket (AckError "Room ID and username are required")])
  end.

(** [socket.on("code-change", ({ roomId, code, cursorPos, filePath }) => ...)] *)
Definition code_change (st : State) (socket : string) (d : Obj) (now : Z)
  : State * list Effect :=
  match field d "roomId" with
  | Some roomId =>
      if truthy roomId then
        (st, socket_to_emit (sids st) socket roomId "code-update"
               (PCodeUpdate (field d "code") (field d "cursorPos")
                  (field d "filePath") socket now))
      else (st, socket_emit (sids st) socket "error"
                  (PMessage "Room ID is required"))
  | None => (st, socket_emit (sids st) socket "error"
                   (PMessage "Room ID is required"))
  end.

(** [socket.on("disconnect", (reason) => ...)]: the handler body. *)
Definition disconnect (st : State) (socket : string) : State * list Effect :=
  match getRoomForSocket (rooms st) socket with
  | None => (st, [])
  | Some roomId =>
      if truthy roomId then
        match JsMap.get (rooms st) roomId with
        | None => (st, [])
        | Some room =>
            match JsMap.get room socket with
            | None => (st, [])
            | Some user =>
                let room' := JsMap.delete room socket in
                let st1 :=
                  with_userSocketMap st (JsMap.delete (userSocketMap st) socket) in
                if (JsMap.size room' =? 0)%nat then
                  (with_rooms st1 (JsMap.delete (rooms st1) roomId), [])
                else
                  (with_rooms st1 (JsMap.set (rooms st1) roomId room'),
                   io_to_emit (sids st1) roomId "user-left"
                     (PUserLeft socket (Some (User.username user))))
            end
        end
      else (st, [])
  end.

(** [username || socket.id] *)
Definition or_socket (username : option string) (socket : string) : string :=
  match username with
  | Some u => if truthy u then u else socket
  | None => socket
  end.

(** The relays that read neither registry.  A payload without [roomId]
    addresses the room [undefined], which no socket has joined. *)
Definition send_message (st : State) (socket : string) (d : Obj) (now : Z)
  : State * list Effect :=
  match field d "roomId" with
  | Some roomId =>
      (st, io_to_emit (sids st) roomId "receive-message"
             (PReceiveMessage (field d "username") (field d "text")))
  | None => (st, [])
  end.

Definition cursor_move (st : State) (socket : string) (d : Obj) (now : Z)
  : State * list Effect :=
  match field d "roomId" with
  | Some roomId =>
      (st, socket_to_emit (sids st) socket roomId "cursor-move"
             (PCursorMove (field d "username") (field d "x") (field d "y") now))
  | None => (st, [])
  end.

Definition file_open (st : State) (socket : string) (d : Obj) (now : Z)
  : State * list Effect :=
  match field d "roomId" with
  | Some roomId =>
      (st, socket_to_emit (sids st) socket roomId "file-opened"
             (PFileEvent (field d "filePath") None
                (or_socket (field d "username") socket) now))
  | None => (st, [])
  end.

Definition file_content (st : State) (socket : string) (d : Obj) (now : Z)
  : State * list Effect :=
  match field d "roomId" with
  | Some roomId =>
      (st, socket_to_emit (sids st) socket roomId "file-update"
             (PFileEvent (field d "filePath") (field d "code")
                (or_socket (field d "username") socket) now))
  | None => (st, [])
  end.

Definition file_save (st : State) (socket : string) (d : Obj) (now : Z)
  : State * list Effect :=
  match field d "roomId" with
  | Some roomId =>
      (st, io_to_emit (sids st) roomId "file-saved"
             (PFileEvent (field d "filePath") None
                (or_socket (field d "username") socket) now))
  | None => (st, [])
  end.

(* ------------------------------------------------------------------ *)
(** ** The event loop *)

Definition Handler := State -> string -> option Obj -> Z -> State * list Effect.

(** A handler whose parameter is destructured in its signature.  Without a
    payload the destructuring raises a [TypeError] before the body, and the
    [try] inside it, is entered: nothing of the body happens.  Nothing in
    the strict server catches that exception, so the process ends there;
    the registries are followed here for the life of one process, and what
    this case returns is the state the process ends in. *)
Definition destructured (h : State -> string -> Obj -> Z -> State * list Effect)
  : Handler :=
  fun st socket data now =>
    match data with
    | Some d => h st socket d now
    | None => (st, [])
    end.

(** The [socket.on(name, ...)] registrations made for every connection, the
    transport-level [disconnect] apart.  [connect_error] and [error] only
    write to the console. *)
Definition on (name : string) : option Handler :=
  if name =? "join-request" then Some join_request
  else if name =? "code-change" then Some (destructured code_change)
  else if name =? "send-message" then Some (destructured send_message)
  else if name =? "cursor-move" then Some (destructured cursor_move)
  else if name =? "file-open" then Some (destructured file_open)
  else if name =? "file-content" then Some (destructured file_content)
  else if name =? "file-save" then Some (destructured file_save)
  else if name =? "connect_error" then Some (fun st _ _ _ => (st, []))
  else if name =? "error" then Some (fun st _ _ _ => (st, []))
  else None.

(** What the server process can observe, one at a time:
    - a connection: a new one, whose socket joins the room named by its own
      id, or one that connection state recovery restores under the id it
      had, with the rooms kept in its session;
    - a named event from a socket, with its payload and the clock reading
      taken while it is handled (whether the client attached an
      acknowledgment function is not part of the input: no handler behaves
      differently for it, see [sent]);
    - the close of a connection, for whatever reason. *)
Inductive Input :=
| Connection (socket : string)
| Event (socket name : string) (data : option Obj) (now : Z)
| Disconnect (socket : string).

Definition connected (st : State) (socket : string) : bool :=
  JsMap.has (sids st) socket.

(** The rooms a socket is in once its connection is set up: those of the
    session that is restored, if any, and the room named by its own id. *)
Definition rooms_on_connection (session : option (list string))
    (socket : string) : list string :=
  match session with
  | Some rs => if joined socket rs then rs else rs ++ [socket]
  | None => [socket]
  end.

(** The rooms of a connected socket, as kept in its session on close. *)
Definition rooms_of (tbl : JsMap.t (list string)) (socket : string)
  : list string :=
  match JsMap.get tbl socket with
  | Some rs => rs
  | None => []
  end.

(** One turn of the event loop.  Handlers exist per connected socket only;
    an event without a registered listener is dropped.  On close the
    transport has stored the session and taken the socket out of all its
    rooms when the [disconnect] listener runs.  socket.io keeps a session
    only for a close it can recover from (a transport error or close, a
    ping timeout) and for [maxDisconnectionDuration]; here every close
    keeps one until it is restored, so that every recovery socket.io can
    make is an input of the loop.  The packets socket.io replays to a
    restored connection (deliveries of emissions made while the connection
    was closed) are not modelled. *)
Definition step (st : State) (i : Input) : State * list Effect :=
  match i with
  | Connection socket =>
      if connected st socket then (st, [])
      else
        (with_sids
           (with_sessions st (JsMap.delete (sessions st) socket))
           (JsMap.set (sids st) socket
              (rooms_on_connection (JsMap.get (sessions st) socket) socket)),
         [])
  | Event socket name data now =>
      if connected st socket then
        match on name with
        | Some h => h st socket data now
        | None => (st, [])
        end
      else (st, [])
  | Disconnect socket =>
      if connected st socket then
        disconnect
          (with_sids
             (with_sessions st
                (JsMap.set (sessions st) socket (rooms_of (sids st) socket)))
             (JsMap.delete (sids st) socket))
          socket
      else (st, [])
  end.

Fixpoint run (st : State) (inputs : list Input) : State * list Effect :=
  match inputs with
  | [] => (st, [])
  | i :: rest =>
      let '(st1, out1) := step st i in
      let '(st2, out2) := run st1 rest in
      (st2, out1 ++ out2)
  end.

Inductive reachable : State -> Prop :=
| reachable_init : reachable init
| reachable_step st i : reachable st -> reachable (fst (step st i)).

(* ------------------------------------------------------------------ *)
(** ** Observations on a state and on a list of effects *)

(** [socket] is recorded as a member of room [roomId] in the directory. *)
Definition is_member (st : State) (socket roomId : string) : bool :=
  match JsMap.get (rooms st) roomId with
  | Some room => JsMap.has room socket
  | None => false
  end.

Definition member_count (st : State) (roomId : string) : nat :=
  List.length (getUsersInRoom (rooms st) roomId).

Definition receives (out : list Effect) (socket event : string) (p : Payload)
  : Prop :=
  In (Emit socket event p) out.

Definition receives_event (out : list Effect) (socket event : string) : Prop :=
  exists p, In (Emit socket event p) out.

(* ------------------------------------------------------------------ *)
(** ** Client side: event names and the leave action *)

Module SocketEvent.
Definition JOIN_REQUEST := "join-request".
Definition JOIN_ACCEPTED := "join-accepted".
Definition USER_JOINED := "user-joined".
Definition USER_DISCONNECTED := "user-disconnected".
Definition USERNAME_EXISTS := "username-exists".
Definition REQUEST_DRAWING := "request-drawing".
Definition SYNC_DRAWING := "sync-drawing".
End SocketEvent.

(** Event names for which [SocketProvider] registers a listener by name
    ([socket.on(name, ...)]).  Besides these it registers one listener for
    every incoming event, [socket.onAny(handleIncomingEvent)], which writes
    the event to the console. *)
Definition client_listeners : list string :=
  [ "connect"; "disconnect"; "connect_error";
    SocketEvent.USERNAME_EXISTS; SocketEvent.JOIN_ACCEPTED; "join-success";
    SocketEvent.USER_DISCONNECTED; SocketEvent.REQUEST_DRAWING;
    SocketEvent.SYNC_DRAWING; "code-update" ].

(** The handlers [SocketProvider] has registered that run for an incoming
    event [name]: the catch-all of [socket.onAny], which runs first, then
    those registered under that name, in registration order. *)
Definition named_handlers : list (string * string) :=
  [ ("connect", "handleConnect"); ("disconnect", "handleDisconnect");
    ("connect_error", "handleError");
    (SocketEvent.USERNAME_EXISTS, "handleUsernameExist");
    (SocketEvent.JOIN_ACCEPTED, "handleJoiningAccept");
    ("join-success", "handleJoiningAccept");
    (SocketEvent.USER_DISCONNECTED, "handleUserLeft");
    (SocketEvent.REQUEST_DRAWING, "handleRequestDrawing");
    (SocketEvent.SYNC_DRAWING, "handleDrawingSync");
    ("code-update", "handleCodeUpdate") ].

Definition handlers_run (name : string) : list string :=
  "handleIncomingEvent"
  :: map snd (filter (fun l => fst l =? name) named_handlers).

(** What leaves the server for a request, given whether it came with an
    acknowledgment function: the emissions, and what the handler passed to
    [callback] only if the client sent one.  Passed to the default no-op,
    it goes nowhere. *)
Definition sent (with_ack : bool) (out : list Effect) : list Effect :=
  filter (fun e => match e with
                   | Emit _ _ _ => true
                   | Callback _ _ => with_ack
                   end) out.

(** A member map once [socket] is taken out of it: [None] when that
    empties the map, the map itself when [socket] was not in it. *)
Definition without (socket : string) (room : JsMap.t User.t)
  : option (JsMap.t User.t) :=
  if JsMap.has room socket then
    let room' := JsMap.delete room socket in
    if (JsMap.size room' =? 0)%nat then None else Some room'
  else Some room.

(** The member map of [roomId], empty when the directory has no entry. *)
Definition room_or_empty (st : State) (roomId : string) : JsMap.t User.t :=
  match JsMap.get (rooms st) roomId with
  | Some room => room
  | None => JsMap.empty
  end.

(** A destructured field that fails the handler's [!field] test: absent, or
    the empty string. *)
Definition missing_or_empty (v : option string) : bool :=
  match v with
  | None => true
  | Some s => negb (truthy s)
  end.

(** The join request was acknowledged as a success for room [roomId]. *)
Definition acknowledged (out : list Effect) (socket roomId : string) : Prop :=
  exists users yourId, In (Callback socket (AckSuccess roomId users yourId)) out.

(** The two failure texts of the join handler. *)
Definition validation_error : Ack :=
  AckError "Room ID and username are required".

Definition conflict_message (username : string) : string :=
  String.append "Username '"
    (String.append username "' is already taken in this room").

(* ------------------------------------------------------------------ *)
(** ** The invariant of the strict server *)

(** What every state reached by the event loop satisfies.  Per room: the
    member map is a proper [Map], is not empty and has a truthy id.  Per
    membership: the stored user is keyed by its own id, names its room, has
    a truthy username, is mirrored in [userSocketMap], and its socket has
    joined the socket.io room of the same name.  A socket is in one room at
    most, and two members of a room never share a username. *)
Record Inv (st : State) : Prop := mkInv {
  inv_rooms_wf : JsMap.wf (rooms st);
  inv_usm_wf : JsMap.wf (userSocketMap st);
  inv_sids_wf : JsMap.wf (sids st);
  inv_room : forall r room,
      JsMap.get (rooms st) r = Some room ->
      JsMap.wf room /\ room <> [] /\ r <> "";
  inv_member : forall r room k u,
      JsMap.get (rooms st) r = Some room ->
      JsMap.get room k = Some u ->
      User.id u = k /\ User.roomId u = r /\ User.username u <> "" /\
      JsMap.get (userSocketMap st) k = Some u /\
      exists rs, JsMap.get (sids st) k = Some rs /\ In r rs;
  inv_single : forall r1 r2 room1 room2 k,
      JsMap.get (rooms st) r1 = Some room1 ->
      JsMap.get (rooms st) r2 = Some room2 ->
      JsMap.has room1 k = true -> JsMap.has room2 k = true -> r1 = r2;
  inv_distinct : forall r room k1 k2 u1 u2,
      JsMap.get (rooms st) r = Some room ->
      JsMap.get room k1 = Some u1 -> JsMap.get room k2 = Some u2 ->
      User.username u1 = User.username u2 -> k1 = k2
}.

(* ------------------------------------------------------------------ *)
(** ** The lenient server

    The lenient server keeps only [rooms].  Its join handler takes no
    acknowledgment callback, does not scan for a taken username, defaults a
    missing username to "Anonymous" and does not leave the room the socket
    is already in. *)

Module Lenient.

Record State := mkState {
  rooms : JsMap.t (JsMap.t LenientUser.t);
  sids : JsMap.t (list string)
}.

Definition init : State := {| rooms := JsMap.empty; sids := JsMap.empty |}.

Definition getRoomId (rms : JsMap.t (JsMap.t LenientUser.t)) (socketId : string)
  : option string :=
  getRoomForSocket rms socketId.

(** [username || "Anonymous"] *)
Definition or_anonymous (username : option string) : string :=
  match username with
  | Some u => if truthy u then u else "Anonymous"
  | None => "Anonymous"
  end.

(** [socket.on("join-request", ({ roomId, username }) => ...)] *)
Definition join_request (st : State) (socket : string) (d : Obj) (now : Z)
  : State * list Effect :=
  let join_error :=
    (st, io_to_emit (sids st) socket "join-error" (PMessage "Room ID missing")) in
  match field d "roomId" with
  | None => join_error
  | Some roomId =>
      if truthy roomId then
        let tbl := socket_join (sids st) socket roomId in
        let rms1 :=
          if JsMap.has (rooms st) roomId then rooms st
          else JsMap.set (rooms st) roomId JsMap.empty in
        let user :=
          LenientUser.mk socket (or_anonymous (field d "username")) now in
        let rms2 :=
          match JsMap.get rms1 roomId with
          | Some room => JsMap.set rms1 roomId (JsMap.set room socket user)
          | None => rms1
          end in
        let usersInRoom := getUsersInRoom rms2 roomId in
        ({| rooms := rms2; sids := tbl |},
         io_to_emit tbl socket "join-success" (PJoinSuccess roomId usersInRoom)
         ++ socket_to_emit tbl socket roomId "user-joined"
              (PUserJoinedSnapshot user usersInRoom))
      else join_error
  end.

(** [socket.on("code-change", ({ roomId, code, cursorPos }) => ...)] *)
Definition code_change (st : State) (socket : string) (d : Obj) (now : Z)
  : State * list Effect :=
  match field d "roomId" with
  | Some roomId =>
      (st, socket_to_emit (sids st) socket roomId "code-update"
             (PCodeUpdate (field d "code") (field d "cursorPos") None
                socket now))
  | None => (st, [])
  end.

(** [socket.on("disconnect", (reason) => ...)]: the handler body. *)
Definition disconnect (st : State) (socket : string) : State * list Effect :=
  match getRoomId (rooms st) socket with
  | None => (st, [])
  | Some roomId =>
      if truthy roomId then
        match JsMap.get (rooms st) roomId with
        | None => (st, [])
        | Some room =>
            let user := JsMap.get room socket in
            let room' := JsMap.delete room socket in
            if (JsMap.size room' =? 0)%nat then
              ({| rooms := JsMap.delete (rooms st) roomId; sids := sids st |},
               [])
            else
              ({| rooms := JsMap.set (rooms st) roomId room'; sids := sids st |},
               match user with
               | Some u =>
                   io_to_emit (sids st) roomId "user-left"
                     (PUserLeft socket (Some (LenientUser.username u)))
               | None => []
               end)
        end
      else (st, [])
  end.

Definition on (name : string)
  : option (State -> string -> Obj -> Z -> State * list Effect) :=
  if name =? "join-request" then Some join_request
  else if name =? "code-change" then Some code_change
  else if name =? "ping" then Some (fun st _ _ _ => (st, []))
  else None.

Definition step (st : State) (i : Input) : State * list Effect :=
  match i with
  | Connection socket =>
      if JsMap.has (sids st) socket then (st, [])
      else ({| rooms := rooms st; sids := JsMap.set (sids st) socket [socket] |},
            [])
  | Event socket name data now =>
      if JsMap.has (sids st) socket then
        match on name, data with
        | Some h, Some d => h st socket d now
        | _, _ => (st, [])
        end
      else (st, [])
  | Disconnect socket =>
      if JsMap.has (sids st) socket then
        disconnect
          {| rooms := rooms st; sids := JsMap.delete (sids st) socket |} socket
      else (st, [])
  end.

Fixpoint run (st : State) (inputs : list Input) : State * list Effect :=
  match inputs with
  | [] => (st, [])
  | i :: rest =>
      let '(st1, out1) := step st i in
      let '(st2, out2) := run st1 rest in
      (st2, out1 ++ out2)
  end.

End Lenient.

(* ------------------------------------------------------------------ *)
(** ** Sample inputs *)

Definition join_data (roomId username : string) : option Obj :=
  Some [("roomId", roomId); ("username", username)].

(** Connections A and B have joined room "r1" as "alice" and "bob". *)
Definition alice_and_bob : State :=
  fst (run init
         [ Connection "A"; Connection "B";
           Event "A" "join-request" (join_data "r1" "alice") 1%Z;
           Event "B" "join-request" (join_data "r1" "bob") 2%Z ]).

(** B alone is in "r1" as "bob"; A is connected and in no room. *)
Definition bob_alone : State :=
  fst (run init
         [ Connection "A"; Connection "B";
           Event "B" "join-request" (join_data "r1" "bob") 1%Z ]).

Definition code_data : Obj :=
  [("roomId", "r1"); ("code", "let x = 1"); ("cursorPos", "9");
   ("filePath", "main.js")].

(** On the lenient server, A and B have both joined "r1" as "bob". *)
Definition lenient_two_bobs : Lenient.State :=
  fst (Lenient.run Lenient.init
         [ Connection "A"; Connection "B";
           Event "A" "join-request" (join_data "r1" "bob") 1%Z;
           Event "B" "join-request" (join_data "r1" "bob") 2%Z ]).

(* ------------------------------------------------------------------ *)
(** ** Further invariants of the strict server *)

(** The converse direction of the mirroring: a [userSocketMap] entry is
    backed by the same user object in the room it names. *)
Record Mirrored (st : State) : Prop := mkMirrored {
  usm_backed : forall k u,
      JsMap.get (userSocketMap st) k = Some u ->
      exists room, JsMap.get (rooms st) (User.roomId u) = Some room /\
                   JsMap.get room k = Some u
}.

(** The [rooms] field of the [/health] response:
    [Array.from(rooms.keys())]. *)
Definition health_rooms (st : State) : list string := JsMap.keys (rooms st).

(** Rooms named by a socket id.  A client chooses the [roomId] of its
    request freely, and socket ids are told to the clients ([user.id],
    [yourId], [sender], [socketId]). *)

(** A and B are members of the room named "A", the id of A's socket. *)
Definition both_in_room_A_inputs : list Input :=
  [ Connection "A"; Connection "B";
    Event "A" "join-request" (join_data "A" "alice") 1%Z;
    Event "B" "join-request" (join_data "A" "bob") 2%Z ].

Definition both_in_room_A : State := fst (run init both_in_room_A_inputs).

(** B alone is a member of the room named "A"; A is connected and in no
    room. *)
Definition bob_in_room_A_inputs : list Input :=
  [ Connection "A"; Connection "B";
    Event "B" "join-request" (join_data "A" "bob") 1%Z ].

Definition bob_in_room_A : State := fst (run init bob_in_room_A_inputs).

(** A alone is a member of the room named "A"; B is connected and in no
    room. *)
Definition alice_in_room_A_inputs : list Input :=
  [ Connection "A"; Connection "B";
    Event "A" "join-request" (join_data "A" "alice") 1%Z ].

Definition alice_in_room_A : State := fst (run init alice_in_room_A_inputs).

(** A has moved from the room named "A" to "r2", which B has joined too. *)
Definition moved_from_room_A_inputs : list Input :=
  alice_in_room_A_inputs
  ++ [ Event "A" "join-request" (join_data "r2" "alice") 2%Z;
       Event "B" "join-request" (join_data "r2" "bob") 3%Z ].

Definition moved_from_room_A : State :=
  fst (run init moved_from_room_A_inputs).

(** A and B have joined "r1"; A's connection was closed and has been
    restored by connection state recovery. *)
Definition alice_restored_inputs : list Input :=
  [ Connection "A"; Connection "B";
    Event "A" "join-request" (join_data "r1" "alice") 1%Z;
    Event "B" "join-request" (join_data "r1" "bob") 2%Z;
    Disconnect "A"; Connection "A" ].

Definition alice_restored : State := fst (run init alice_restored_inputs).

(** Inputs that reach [alice_and_bob] and [bob_alone]. *)
Definition alice_and_bob_inputs : list Input :=
  [ Connection "A"; Connection "B";
    Event "A" "join-request" (join_data "r1" "alice") 1%Z;
    Event "B" "join-request" (join_data "r1" "bob") 2%Z ].

Definition bob_alone_inputs : list Input :=
  [ Connection "A"; Connection "B";
    Event "B" "join-request" (join_data "r1" "bob") 1%Z ].

(** Event names the strict server emits, over all its handlers. *)
Definition server_events : list string :=
  [ "username_exists"; "user-left"; "join-accepted"; "user-joined";
    "code-update"; "error"; "receive-message"; "cursor-move";
    "file-opened"; "file-update"; "file-saved" ].

(** The event name of an effect, when it is an emission. *)
Definition event_of (e : Effect) : option string :=
  match e with
  | Emit _ event _ => Some event
  | Callback _ _ => None
  end.

(** Event names for which [Editor] and [EditorPage] register a listener
    on the socket itself. *)
Definition editor_listeners : list string := [ "code-change"; "join-error" ].

Definition chat_data : Obj :=
  [("roomId", "r1"); ("username", "alice"); ("text", "hello")].

(* ------------------------------------------------------------------ *)
(** ** CORS origin check of the strict server *)

Module Cors.

(** The three environment variables read at start-up; [None] when unset. *)
Record Env := mkEnv {
  NODE_ENV_var : option string;
  FRONTEND_URL_var : option string;
  RENDER_EXTERNAL_URL_var : option string
}.

(** [process.env.X || fallback] *)
Definition env_or (v : option string) (fallback : string) : string :=
  match v with
  | Some s => if truthy s then s else fallback
  | None => fallback
  end.

Definition NODE_ENV (env : Env) : string :=
  env_or (NODE_ENV_var env) "development".
Definition FRONTEND_URL (env : Env) : string :=
  env_or (FRONTEND_URL_var env) "http://localhost:5173".
Definition RENDER_URL (env : Env) : string :=
  env_or (RENDER_EXTERNAL_URL_var env) "".

(** An entry of [allowedOrigins]: a string, used with [startsWith], or one
    of the two patterns [/^\.*SUFFIX$/], used with [test]. *)
Inductive Rule :=
| Str (s : string)
| DotsThen (suffix : string).

(** [Boolean(entry)]: a regular expression is an object, hence truthy. *)
Definition rule_truthy (r : Rule) : bool :=
  match r with
  | Str s => truthy s
  | DotsThen _ => true
  end.

Definition allowedOrigins (env : Env) : list Rule :=
  filter rule_truthy
    [ Str "http://localhost:5173"; Str "http://localhost:5174";
      Str "https://localhost:5173";
      Str (FRONTEND_URL env); Str (RENDER_URL env);
      DotsThen ".vercel.app"; DotsThen ".vercel.dev" ].

(** [/^\.*SUFFIX$/.test(s)]: [s] is any number of dots followed by exactly
    [suffix]. *)
Fixpoint dots_then (suffix s : string) : bool :=
  (s =? suffix)
  || match s with
     | String c rest => Ascii.eqb c "."%char && dots_then suffix rest
     | EmptyString => false
     end.

Definition rule_admits (origin : string) (r : Rule) : bool :=
  match r with
  | Str s => String.prefix s origin
  | DotsThen suffix => dots_then suffix origin
  end.

(** The [origin] option of the [cors] middleware: [true] for
    [callback(null, true)], [false] for [callback(new Error(...))].
    [origin] is [None] when the request carries no Origin header. *)
Definition origin_allowed (env : Env) (origin : option string) : bool :=
  (NODE_ENV env =? "development")
  || match origin with
     | None => true
     | Some o => negb (truthy o) || existsb (rule_admits o) (allowedOrigins env)
     end.

End Cors.

Definition production_env : Cors.Env :=
  Cors.mkEnv (Some "production") (Some "https://codeinsync.example") None.

(* ------------------------------------------------------------------ *)
(** ** Observations on the lenient server *)

Definition lenient_is_member (st : Lenient.State) (socket roomId : string)
  : bool :=
  match JsMap.get (Lenient.rooms st) roomId with
  | Some room => JsMap.has room socket
  | None => false
  end.

(** No entry of the lenient [rooms] has an empty member map. *)
Definition lenient_rooms_nonempty (st : Lenient.State) : Prop :=
  Forall (fun e => snd e <> []) (Lenient.rooms st).

(* ------------------------------------------------------------------ *)
(** ** Client handlers *)

Module Client.

(** An object literal whose [undefined] properties are not sent. *)
Fixpoint object_literal (props : list (string * option string)) : Obj :=
  match props with
  | [] => []
  | (k, Some v) :: rest => (k, v) :: object_literal rest
  | (_, None) :: rest => object_literal rest
  end.

(** [emitCodeChange(roomId, code, cursorPos)] of [SocketProvider], as the
    inputs it causes at the server. *)
Definition emitCodeChange (socket_connected : bool) (socket : string)
    (roomId code cursorPos : option string) (now : Z) : list Input :=
  match roomId with
  | Some r =>
      if negb socket_connected || negb (truthy r) then []
      else [ Event socket "code-change"
               (Some (object_literal
                        [("roomId", Some r); ("code", code);
                         ("cursorPos", cursorPos)])) now ]
  | None => []
  end.

(** [handleCodeChange] of [Editor]: [roomId] comes from the route. *)
Definition handleCodeChange (socket : option string) (roomId : option string)
    (value : string) (now : Z) : list Input :=
  match socket, roomId with
  | Some s, Some r =>
      if truthy r then
        [ Event s "code-change" (Some [("roomId", r); ("code", value)]) now ]
      else []
  | _, _ => []
  end.

(** [handleCodeUpdate]: the detail of the [remote-code-update] window
    event it dispatches, [None] when the guard [sender !== socket.id]
    stops it. *)
Definition handleCodeUpdate (socket_id : string) (p : Payload)
  : option (option string * option string) :=
  match p with
  | PCodeUpdate code cursorPos _ sender _ =>
      if sender =? socket_id then None else Some (code, cursorPos)
  | _ => None
  end.

(** [handleUserLeft({ user })]: the new [users] state. *)
Definition handleUserLeft (user : option User.t) (users : list User.t)
  : list User.t :=
  match user with
  | Some gone =>
      filter (fun u => negb (User.username u =? User.username gone)) users
  | None => users
  end.

(** [{ ...base, ...over }] *)
Definition spread (base over : Obj) : Obj :=
  fold_left (fun acc kv => JsMap.set acc (fst kv) (snd kv)) over base.

(** The part of the application state [SocketProvider] writes. *)
Record AppState := mkAppState {
  currentUser : Obj;
  users : list User.t;
  status : string
}.

(** The payload of [join-accepted] as the client destructures it. *)
Record JoinPayload := mkJoinPayload {
  p_user : option Obj;
  p_newUser : option Obj;
  p_users : option (list User.t);
  p_userList : option (list User.t);
  p_roomId : option string
}.

(** The object the strict server emits with [join-accepted]:
    [{ user: { id, username, roomId }, users }]. *)
Definition join_accepted_payload (id username roomId : string)
    (users : list User.t) : JoinPayload :=
  {| p_user := Some [("id", id); ("username", username); ("roomId", roomId)];
     p_newUser := None;
     p_users := Some users;
     p_userList := None;
     p_roomId := None |}.

Definition falsy_field (o : Obj) (k : string) : bool :=
  match field o k with
  | Some v => negb (truthy v)
  | None => true
  end.

(** [handleJoiningAccept(payload)] *)
Definition handleJoiningAccept (socket_id : string) (prev : AppState)
    (payload : JoinPayload) : AppState :=
  let user :=
    match p_user payload, p_newUser payload with
    | Some u, _ => u
    | None, Some u => u
    | None, None => []
    end in
  let users :=
    match p_users payload, p_userList payload with
    | Some l, _ => l
    | None, Some l => l
    | None, None => []
    end in
  let user :=
    match p_roomId payload with
    | Some r =>
        if falsy_field user "roomId" && truthy r
        then JsMap.set user "roomId" r else user
    | None => user
    end in
  {| currentUser :=
       JsMap.set (spread (currentUser prev) user) "socketId" socket_id;
     users := users;
     status := "joined" |}.

(** The auto re-join of [handleConnect]:
    [if (currentUser?.username && currentUser?.roomId)
       socket.emit("join-request", currentUser)]. *)
Definition handleConnect (socket : string) (cu : option Obj) (now : Z)
  : list Input :=
  match cu with
  | Some o =>
      if negb (falsy_field o "username") && negb (falsy_field o "roomId")
      then [ Event socket "join-request" (Some o) now ]
      else []
  | None => []
  end.

(** The join effect of [EditorPage], once past its guard (a socket, a
    status other than "joined", no earlier attempt): with a truthy [roomId]
    from the route and a truthy [username] from the navigation state it
    emits
    [join-request] with [{ username, roomId }] and an acknowledgment
    callback. *)
Definition join_effect (socket : string) (roomId username : option string)
    (now : Z) : list Input :=
  match roomId, username with
  | Some r, Some u =>
      if truthy r && truthy u then
        [ Event socket "join-request" (Some [("username", u); ("roomId", r)])
            now ]
      else []
  | _, _ => []
  end.

(** The status that callback sets: [response?.error] truthy leads to
    [handleJoinError], anything else to "joined". *)
Definition join_effect_status (response : Ack) : string :=
  match response with
  | AckError error => if truthy error then "connection_failed" else "joined"
  | AckSuccess _ _ _ => "joined"
  end.

(** The retry delay of the [connect_error] listener:
    [Math.min(attempts * 1000, 10000)]. *)
Definition reconnect_delay (attempts : Z) : Z :=
  Z.min (attempts * 1000) 10000.

End Client.

(* ================================================================== *)
(** * Facts about [JsMap] *)

Section JsMapFacts.
Context {V : Type}.
Implicit Types (m : JsMap.t V) (k : string) (v : V).

Lemma get_set m k v k' :
  JsMap.get (JsMap.set m k v) k' = if k' =? k then Some v else JsMap.get m k'.
Proof.
  induction m as [|[k0 v0] m IH]; simpl.
  - destruct (String.eqb_spec k' k); reflexivity.
  - destruct (String.eqb_spec k k0) as [->|Hk]; simpl.
    + destruct (String.eqb_spec k' k0); reflexivity.
    + destruct (String.eqb_spec k' k0) as [->|Hk'].
      * destruct (String.eqb_spec k0 k); congruence.
      * exact IH.
Qed.

Lemma get_set_same m k v : JsMap.get (JsMap.set m k v) k = Some v.
Proof. rewrite get_set, String.eqb_refl. reflexivity. Qed.

Lemma get_set_other m k v k' :
  k' <> k -> JsMap.get (JsMap.set m k v) k' = JsMap.get m k'.
Proof.
  intros H. rewrite get_set. destruct (String.eqb_spec k' k); congruence.
Qed.

Lemma get_In m k v : JsMap.get m k = Some v -> In (k, v) m.
Proof.
  induction m as [|[k0 v0] m IH]; simpl; [discriminate|].
  destruct (String.eqb_spec k k0) as [->|Hk].
  - intros [= ->]. now left.
  - intros H. right. auto.
Qed.

Lemma get_In_keys m k v : JsMap.get m k = Some v -> In k (JsMap.keys m).
Proof.
  intros H. apply get_In in H. apply (in_map fst) in H. exact H.
Qed.

Lemma get_None_keys m k : JsMap.get m k = None -> ~ In k (JsMap.keys m).
Proof.
  induction m as [|[k0 v0] m IH]; simpl; [tauto|].
  destruct (String.eqb_spec k k0) as [->|Hk]; [discriminate|].
  intros H [E|E]; [congruence|]. now apply IH.
Qed.

Lemma In_get m k v : JsMap.wf m -> In (k, v) m -> JsMap.get m k = Some v.
Proof.
  unfold JsMap.wf.
  induction m as [|[k0 v0] m IH]; simpl; [tauto|].
  intros Hnd [E|E].
  - inversion E; subst. now rewrite String.eqb_refl.
  - inversion Hnd as [|? ? Hnotin Hnd']; subst.
    destruct (String.eqb_spec k k0) as [->|Hk].
    + exfalso. apply Hnotin. apply (in_map fst) in E. exact E.
    + auto.
Qed.

Lemma keys_delete_incl m k k' :
  In k' (JsMap.keys (JsMap.delete m k)) -> In k' (JsMap.keys m).
Proof.
  induction m as [|[k0 v0] m IH]; simpl; [tauto|].
  destruct (String.eqb_spec k k0); simpl; intuition.
Qed.

Lemma wf_delete m k : JsMap.wf m -> JsMap.wf (JsMap.delete m k).
Proof.
  unfold JsMap.wf.
  induction m as [|[k0 v0] m IH]; simpl; intros Hnd; [constructor|].
  inversion Hnd as [|? ? Hnotin Hnd']; subst.
  destruct (String.eqb_spec k k0); simpl; [assumption|].
  constructor; [|auto].
  intros Hin. apply Hnotin. eapply keys_delete_incl; eassumption.
Qed.

Lemma get_delete_other m k k' :
  k' <> k -> JsMap.get (JsMap.delete m k) k' = JsMap.get m k'.
Proof.
  intros Hne.
  induction m as [|[k0 v0] m IH]; simpl; [reflexivity|].
  destruct (String.eqb_spec k k0) as [->|Hk]; simpl.
  - destruct (String.eqb_spec k' k0); congruence.
  - destruct (String.eqb_spec k' k0); congruence.
Qed.

Lemma get_delete_same m k : JsMap.wf m -> JsMap.get (JsMap.delete m k) k = None.
Proof.
  unfold JsMap.wf.
  induction m as [|[k0 v0] m IH]; simpl; intros Hnd; [reflexivity|].
  inversion Hnd as [|? ? Hnotin Hnd']; subst.
  destruct (String.eqb_spec k k0) as [->|Hk]; simpl.
  - destruct (JsMap.get m k0) eqn:E; [|reflexivity].
    exfalso. apply Hnotin. eapply get_In_keys; eassumption.
  - destruct (String.eqb_spec k k0); [congruence|auto].
Qed.

Lemma get_delete_Some m k k' v :
  JsMap.wf m -> JsMap.get (JsMap.delete m k) k' = Some v ->
  k' <> k /\ JsMap.get m k' = Some v.
Proof.
  intros Hwf H. destruct (String.eqb_spec k' k) as [->|Hne].
  - rewrite get_delete_same in H by assumption. discriminate.
  - rewrite get_delete_other in H by assumption. auto.
Qed.

Lemma keys_set_incl m k v k' :
  In k' (JsMap.keys (JsMap.set m k v)) -> k' = k \/ In k' (JsMap.keys m).
Proof.
  induction m as [|[k0 v0] m IH]; simpl.
  - intuition.
  - destruct (String.eqb_spec k k0); simpl; intuition.
Qed.

Lemma wf_set m k v : JsMap.wf m -> JsMap.wf (JsMap.set m k v).
Proof.
  unfold JsMap.wf.
  induction m as [|[k0 v0] m IH]; simpl; intros Hnd.
  - constructor; [simpl; tauto|constructor].
  - inversion Hnd as [|? ? Hnotin Hnd']; subst.
    destruct (String.eqb_spec k k0) as [->|Hk]; simpl.
    + constructor; assumption.
    + constructor; [|auto].
      intros Hin. apply keys_set_incl in Hin. destruct Hin; congruence.
Qed.

Lemma wf_empty : JsMap.wf (@JsMap.empty V).
Proof. constructor. Qed.

Lemma set_not_nil m k v : JsMap.set m k v <> [].
Proof.
  destruct m as [|[k0 v0] m]; simpl; [discriminate|].
  destruct (k =? k0); discriminate.
Qed.

Lemma size_zero m : (JsMap.size m =? 0)%nat = true <-> m = [].
Proof.
  destruct m; simpl; split; try reflexivity; try discriminate.
Qed.

Lemma has_true m k : JsMap.has m k = true <-> exists v, JsMap.get m k = Some v.
Proof.
  unfold JsMap.has. destruct (JsMap.get m k).
  - split; eauto.
  - split; [discriminate|intros [? ?]; discriminate].
Qed.

Lemma has_false m k : JsMap.has m k = false <-> JsMap.get m k = None.
Proof.
  unfold JsMap.has. destruct (JsMap.get m k); split; congruence.
Qed.

Lemma In_values m v :
  In v (JsMap.values m) -> exists k, In (k, v) m.
Proof.
  unfold JsMap.values. intros H. apply in_map_iff in H.
  destruct H as [[k v'] [E Hin]]. simpl in E. subst. eauto.
Qed.

Lemma get_In_values m k v : JsMap.get m k = Some v -> In v (JsMap.values m).
Proof.
  intros H. apply get_In in H. apply (in_map snd) in H. exact H.
Qed.

(** Distinct keys carry distinct [f]-images, hence the list of values has
    no repeated [f]-image. *)
Lemma NoDup_map_values {B : Type} (f : V -> B) m :
  JsMap.wf m ->
  (forall k1 k2 v1 v2,
      JsMap.get m k1 = Some v1 -> JsMap.get m k2 = Some v2 ->
      f v1 = f v2 -> k1 = k2) ->
  NoDup (map f (JsMap.values m)).
Proof.
  unfold JsMap.wf.
  induction m as [|[k0 v0] m IH]; simpl; intros Hnd Hinj; [constructor|].
  inversion Hnd as [|? ? Hnotin Hnd']; subst.
  constructor.
  - intros Hin. apply in_map_iff in Hin. destruct Hin as [v1 [Ef Hv1]].
    apply In_values in Hv1. destruct Hv1 as [k1 Hk1].
    assert (Hne : k1 <> k0).
    { intros ->. apply Hnotin. apply (in_map fst) in Hk1. exact Hk1. }
    apply Hne. apply (Hinj k1 k0 v1 v0).
    + simpl. destruct (String.eqb_spec k1 k0); [congruence|].
      now apply In_get.
    + simpl. now rewrite String.eqb_refl.
    + exact Ef.
  - apply IH; [assumption|].
    intros k1 k2 v1 v2 H1 H2 Ef.
    assert (N1 : k1 <> k0).
    { intros ->. apply Hnotin. eapply get_In_keys; eassumption. }
    assert (N2 : k2 <> k0).
    { intros ->. apply Hnotin. eapply get_In_keys; eassumption. }
    apply (Hinj k1 k2 v1 v2); simpl; trivial.
    + destruct (String.eqb_spec k1 k0); congruence.
    + destruct (String.eqb_spec k2 k0); congruence.
Qed.

End JsMapFacts.

(* ================================================================== *)
(** * Facts about the helpers and the socket.io primitives *)

Lemma joined_In room rs : joined room rs = true <-> In room rs.
Proof.
  unfold joined. rewrite existsb_exists. split.
  - intros [x [Hin E]]. apply String.eqb_eq in E. now subst.
  - intros H. exists room. split; [assumption|apply String.eqb_refl].
Qed.

Lemma in_room_intro tbl s rs room :
  JsMap.get tbl s = Some rs -> In room rs -> In s (in_room tbl room).
Proof.
  intros Hget Hin. unfold in_room.
  apply in_map_iff. exists (s, rs). split; [reflexivity|].
  apply filter_In. split; [now apply get_In|].
  simpl. now apply joined_In.
Qed.

Lemma in_room_elim tbl s room :
  JsMap.wf tbl -> In s (in_room tbl room) ->
  exists rs, JsMap.get tbl s = Some rs /\ In room rs.
Proof.
  intros Hwf Hin. unfold in_room in Hin.
  apply in_map_iff in Hin. destruct Hin as [[s' rs] [E Hf]].
  simpl in E. subst s'. apply filter_In in Hf. destruct Hf as [Hin Hj].
  exists rs. split; [now apply In_get|]. now apply joined_In.
Qed.

Lemma existsb_eqb_In s l : existsb (String.eqb s) l = true <-> In s l.
Proof.
  rewrite existsb_exists. split.
  - intros [x [Hin E]]. apply String.eqb_eq in E. now subst.
  - intros H. exists s. split; [assumption|apply String.eqb_refl].
Qed.

Lemma socket_to_emit_In tbl socket room event p e :
  In e (socket_to_emit tbl socket room event p) <->
  exists s, e = Emit s event p /\ ~ In s (in_room tbl socket) /\
            In s (in_room tbl room).
Proof.
  unfold socket_to_emit. rewrite in_map_iff. split.
  - intros [s [E Hf]]. apply filter_In in Hf. destruct Hf as [Hin Hne].
    exists s. repeat split; auto.
    intros Hs. apply existsb_eqb_In in Hs. rewrite Hs in Hne. discriminate.
  - intros [s [E [Hne Hin]]]. exists s. split; [auto|].
    apply filter_In. split; [assumption|].
    destruct (existsb (String.eqb s) (in_room tbl socket)) eqn:Hs;
      [|reflexivity].
    apply existsb_eqb_In in Hs. contradiction.
Qed.

Lemma socket_emit_In tbl socket event p e :
  In e (socket_emit tbl socket event p) <->
  exists s, e = Emit s event p /\ In s (in_room tbl socket).
Proof.
  unfold socket_emit. rewrite in_map_iff. split.
  - intros [s [E Hin]]. eauto.
  - intros [s [E Hin]]. eauto.
Qed.

Lemma own_room_In tbl socket s :
  own_room tbl socket -> (In s (in_room tbl socket) <-> s = socket).
Proof.
  unfold own_room. intros ->. simpl. split; [intros [E|[]]; auto|auto].
Qed.

Lemma io_to_emit_In tbl room event p e :
  In e (io_to_emit tbl room event p) <->
  exists s, e = Emit s event p /\ In s (in_room tbl room).
Proof.
  unfold io_to_emit. rewrite in_map_iff. split.
  - intros [s [E Hin]]. eauto.
  - intros [s [E Hin]]. eauto.
Qed.

Lemma getRoomForSocket_Some {U : Type} (rms : JsMap.t (JsMap.t U)) s r :
  getRoomForSocket rms s = Some r ->
  exists room, In (r, room) rms /\ JsMap.has room s = true.
Proof.
  induction rms as [|[r0 room0] rms IH]; simpl; [discriminate|].
  destruct (JsMap.has room0 s) eqn:Hhas.
  - intros [= <-]. exists room0. auto.
  - intros H. destruct (IH H) as [room [Hin Hh]]. exists room. auto.
Qed.

Lemma getRoomForSocket_None {U : Type} (rms : JsMap.t (JsMap.t U)) s :
  getRoomForSocket rms s = None ->
  forall r room, JsMap.get rms r = Some room -> JsMap.has room s = false.
Proof.
  induction rms as [|[r0 room0] rms IH]; simpl; [discriminate|].
  destruct (JsMap.has room0 s) eqn:Hhas; [discriminate|].
  intros H r room. destruct (String.eqb_spec r r0).
  - intros [= <-]. assumption.
  - now apply IH.
Qed.

Lemma getRoomForSocket_None_intro {U : Type} (rms : JsMap.t (JsMap.t U)) s :
  (forall r room, In (r, room) rms -> JsMap.has room s = false) ->
  getRoomForSocket rms s = None.
Proof.
  induction rms as [|[r0 room0] rms IH]; simpl; intros H; [reflexivity|].
  rewrite (H r0 room0) by now left. apply IH. intros r room Hin.
  apply (H r room). now right.
Qed.

Lemma getRoomForSocket_get {U : Type} (rms : JsMap.t (JsMap.t U)) s r :
  JsMap.wf rms -> getRoomForSocket rms s = Some r ->
  exists room, JsMap.get rms r = Some room /\ JsMap.has room s = true.
Proof.
  intros Hwf H. apply getRoomForSocket_Some in H.
  destruct H as [room [Hin Hhas]]. exists room. split; [|assumption].
  now apply In_get.
Qed.

(** In a state where a socket is in one room at most, the scan finds
    exactly the room the socket is in. *)
Lemma getRoomForSocket_member st s r room :
  Inv st -> JsMap.get (rooms st) r = Some room -> JsMap.has room s = true ->
  getRoomForSocket (rooms st) s = Some r.
Proof.
  intros HI Hget Hhas.
  destruct (getRoomForSocket (rooms st) s) as [r'|] eqn:E.
  - destruct (getRoomForSocket_get _ _ _ (inv_rooms_wf _ HI) E) as [room' [Hg' Hh']].
    f_equal. eapply (inv_single _ HI); eassumption.
  - rewrite (getRoomForSocket_None _ _ E _ _ Hget) in Hhas. discriminate.
Qed.

Lemma is_member_true st s r :
  is_member st s r = true <->
  exists room u, JsMap.get (rooms st) r = Some room /\ JsMap.get room s = Some u.
Proof.
  unfold is_member. destruct (JsMap.get (rooms st) r) as [room|].
  - rewrite has_true. split.
    + intros [u Hu]. eauto.
    + intros [room' [u [[= <-] Hu]]]. eauto.
  - split; [discriminate|]. intros [room [u [H _]]]. discriminate.
Qed.

Lemma getRoomForSocket_is_member st s r :
  Inv st -> (getRoomForSocket (rooms st) s = Some r <-> is_member st s r = true).
Proof.
  intros HI. split.
  - intros H. destruct (getRoomForSocket_get _ _ _ (inv_rooms_wf _ HI) H)
      as [room [Hg Hh]]. unfold is_member. now rewrite Hg.
  - unfold is_member. destruct (JsMap.get (rooms st) r) as [room|] eqn:Hg;
      [|discriminate]. intros Hh. eapply getRoomForSocket_member; eassumption.
Qed.

Lemma truthy_true s : truthy s = true <-> s <> "".
Proof.
  unfold truthy. destruct (String.eqb_spec s ""); split; simpl; congruence.
Qed.

(** The duplicate scan finds nobody exactly when every member of the target
    room carrying the requested name is the requester itself. *)
Lemma existingUser_None st socket roomId username :
  existingUser st socket roomId username = None ->
  forall room k u,
    JsMap.get (rooms st) roomId = Some room -> JsMap.get room k = Some u ->
    User.username u = username -> User.id u = socket.
Proof.
  unfold existingUser. intros Hfind room k u Hroom Hget Hname.
  rewrite Hroom in Hfind.
  pose proof (find_none _ _ Hfind u (get_In_values _ _ _ Hget)) as Hp.
  simpl in Hp. rewrite Hname, String.eqb_refl in Hp. simpl in Hp.
  destruct (String.eqb_spec (User.id u) socket); [assumption|discriminate].
Qed.

Lemma existingUser_Some st socket roomId username u :
  existingUser st socket roomId username = Some u ->
  In u (getUsersInRoom (rooms st) roomId) /\
  User.username u = username /\ User.id u <> socket.
Proof.
  unfold existingUser, getUsersInRoom. intros H.
  apply find_some in H. destruct H as [Hin Hp].
  apply andb_true_iff in Hp. destruct Hp as [Hn Hi].
  apply String.eqb_eq in Hn. split; [assumption|split; [assumption|]].
  intros E. rewrite E, String.eqb_refl in Hi. discriminate.
Qed.

(* ================================================================== *)
(** * Removal of a membership *)

Lemma without_Some s room room' :
  JsMap.wf room -> room <> [] -> without s room = Some room' ->
  JsMap.wf room' /\ room' <> [] /\
  forall k u, JsMap.get room' k = Some u -> k <> s /\ JsMap.get room k = Some u.
Proof.
  unfold without. intros Hwf Hne.
  destruct (JsMap.has room s) eqn:Hhas.
  - destruct (JsMap.size (JsMap.delete room s) =? 0)%nat eqn:Hsz; [discriminate|].
    intros [= <-]. split; [now apply wf_delete|]. split.
    + intros E. apply size_zero in E. congruence.
    + intros k u. now apply get_delete_Some.
  - intros [= <-]. split; [assumption|]. split; [assumption|].
    intros k u Hget. split; [|assumption].
    intros ->. apply has_false in Hhas. congruence.
Qed.

Lemma without_keeps s room room' k u :
  without s room = Some room' -> k <> s -> JsMap.get room k = Some u ->
  JsMap.get room' k = Some u.
Proof.
  unfold without. destruct (JsMap.has room s).
  - destruct (JsMap.size (JsMap.delete room s) =? 0)%nat; [discriminate|].
    intros [= <-] Hne Hget. now rewrite get_delete_other.
  - now intros [= <-].
Qed.

Section Remove.
Variables (st : State) (s : string).
Variables (rooms' : JsMap.t (JsMap.t User.t)) (usm' : JsMap.t User.t)
          (sids' ss' : JsMap.t (list string)).
Hypothesis HI : Inv st.
Hypothesis Hwf_rooms : JsMap.wf rooms'.
Hypothesis Hwf_usm : JsMap.wf usm'.
Hypothesis Hwf_sids : JsMap.wf sids'.
Hypothesis Hrooms : forall r,
  JsMap.get rooms' r =
  match JsMap.get (rooms st) r with
  | Some room => without s room
  | None => None
  end.
Hypothesis Husm : forall k, k <> s ->
  JsMap.get usm' k = JsMap.get (userSocketMap st) k.
Hypothesis Hsids : forall k, k <> s ->
  JsMap.get sids' k = JsMap.get (sids st) k.

Lemma remove_room_back r room' :
  JsMap.get rooms' r = Some room' ->
  exists room, JsMap.get (rooms st) r = Some room /\
    JsMap.wf room' /\ room' <> [] /\
    forall k u, JsMap.get room' k = Some u -> k <> s /\ JsMap.get room k = Some u.
Proof.
  rewrite Hrooms. destruct (JsMap.get (rooms st) r) as [room|] eqn:Hg;
    [|discriminate].
  intros Hw. exists room. split; [reflexivity|].
  destruct (inv_room _ HI _ _ Hg) as [Hwf [Hne _]].
  now apply without_Some.
Qed.

Lemma remove_has_back r room' k :
  JsMap.get rooms' r = Some room' -> JsMap.has room' k = true ->
  k <> s /\ exists room, JsMap.get (rooms st) r = Some room /\ JsMap.has room k = true.
Proof.
  intros Hg Hh. apply has_true in Hh. destruct Hh as [u Hu].
  destruct (remove_room_back _ _ Hg) as [room [Hg0 [_ [_ Hback]]]].
  destruct (Hback _ _ Hu) as [Hne Hu0]. split; [assumption|].
  exists room. split; [assumption|]. apply has_true. eauto.
Qed.

Lemma Inv_remove : Inv (mkState rooms' usm' sids' ss').
Proof.
  constructor; simpl; try assumption.
  - intros r room' Hg.
    destruct (remove_room_back _ _ Hg) as [room [Hg0 [Hwf [Hne _]]]].
    destruct (inv_room _ HI _ _ Hg0) as [_ [_ Hr]]. auto.
  - intros r room' k u Hg Hu.
    destruct (remove_room_back _ _ Hg) as [room [Hg0 [_ [_ Hback]]]].
    destruct (Hback _ _ Hu) as [Hne Hu0].
    destruct (inv_member _ HI _ _ _ _ Hg0 Hu0) as [H1 [H2 [H3 [H4 H5]]]].
    rewrite Husm, Hsids by assumption. auto.
  - intros r1 r2 room1 room2 k Hg1 Hg2 Hh1 Hh2.
    destruct (remove_has_back _ _ _ Hg1 Hh1) as [_ [room1' [Hg1' Hh1']]].
    destruct (remove_has_back _ _ _ Hg2 Hh2) as [_ [room2' [Hg2' Hh2']]].
    eapply (inv_single _ HI); eassumption.
  - intros r room' k1 k2 u1 u2 Hg Hu1 Hu2 E.
    destruct (remove_room_back _ _ Hg) as [room [Hg0 [_ [_ Hback]]]].
    destruct (Hback _ _ Hu1) as [_ Hu1']. destruct (Hback _ _ Hu2) as [_ Hu2'].
    eapply (inv_distinct _ HI); eassumption.
Qed.

Lemma remove_not_member r : is_member (mkState rooms' usm' sids' ss') s r = false.
Proof.
  unfold is_member. simpl.
  destruct (JsMap.get rooms' r) as [room'|] eqn:Hg; [|reflexivity].
  destruct (JsMap.has room' s) eqn:Hh; [|reflexivity].
  destruct (remove_has_back _ _ _ Hg Hh) as [Hne _]. congruence.
Qed.

End Remove.

Lemma socket_leave_get tbl s room k :
  JsMap.get (socket_leave tbl s room) k =
  if k =? s then option_map (filter (fun r => negb (r =? room))) (JsMap.get tbl s)
  else JsMap.get tbl k.
Proof.
  unfold socket_leave. destruct (JsMap.get tbl s) as [rs|] eqn:E.
  - rewrite get_set. destruct (String.eqb_spec k s); reflexivity.
  - destruct (String.eqb_spec k s) as [->|]; [now rewrite E|reflexivity].
Qed.

Lemma socket_leave_wf tbl s room : JsMap.wf tbl -> JsMap.wf (socket_leave tbl s room).
Proof.
  unfold socket_leave. destruct (JsMap.get tbl s); [apply wf_set|trivial].
Qed.

Lemma socket_join_get tbl s room k :
  JsMap.get (socket_join tbl s room) k =
  if k =? s then
    option_map (fun rs => if joined room rs then rs else rs ++ [room])
               (JsMap.get tbl s)
  else JsMap.get tbl k.
Proof.
  unfold socket_join. destruct (JsMap.get tbl s) as [rs|] eqn:E.
  - rewrite get_set. destruct (String.eqb_spec k s); reflexivity.
  - destruct (String.eqb_spec k s) as [->|]; [now rewrite E|reflexivity].
Qed.

Lemma socket_join_wf tbl s room : JsMap.wf tbl -> JsMap.wf (socket_join tbl s room).
Proof.
  unfold socket_join. destruct (JsMap.get tbl s); [apply wf_set|trivial].
Qed.

(** The directory after [s] is deleted from the room [X] it is in. *)
Lemma removal_rooms st s X roomX :
  Inv st -> JsMap.get (rooms st) X = Some roomX -> JsMap.has roomX s = true ->
  let rooms' :=
    if (JsMap.size (JsMap.delete roomX s) =? 0)%nat
    then JsMap.delete (rooms st) X
    else JsMap.set (rooms st) X (JsMap.delete roomX s) in
  JsMap.wf rooms' /\
  forall r, JsMap.get rooms' r =
            match JsMap.get (rooms st) r with
            | Some room => without s room
            | None => None
            end.
Proof.
  intros HI HX Hhas rooms'. pose proof (inv_rooms_wf _ HI) as Hwf. split.
  - subst rooms'. destruct (JsMap.size (JsMap.delete roomX s) =? 0)%nat;
      [now apply wf_delete|now apply wf_set].
  - intros r. destruct (String.eqb_spec r X) as [->|Hne].
    + rewrite HX. unfold without. rewrite Hhas. subst rooms'.
      destruct (JsMap.size (JsMap.delete roomX s) =? 0)%nat.
      * now apply get_delete_same.
      * apply get_set_same.
    + assert (E : JsMap.get rooms' r = JsMap.get (rooms st) r).
      { subst rooms'. destruct (JsMap.size (JsMap.delete roomX s) =? 0)%nat;
          [now apply get_delete_other|now apply get_set_other]. }
      rewrite E. destruct (JsMap.get (rooms st) r) as [room|] eqn:Hr;
        [|reflexivity].
      unfold without. destruct (JsMap.has room s) eqn:Hh; [|reflexivity].
      exfalso. apply Hne. eapply (inv_single _ HI); eassumption.
Qed.

Lemma no_room_rooms st s :
  getRoomForSocket (rooms st) s = None ->
  forall r, JsMap.get (rooms st) r =
            match JsMap.get (rooms st) r with
            | Some room => without s room
            | None => None
            end.
Proof.
  intros Hnone r. destruct (JsMap.get (rooms st) r) as [room|] eqn:Hr;
    [|reflexivity].
  unfold without. now rewrite (getRoomForSocket_None _ _ Hnone _ _ Hr).
Qed.

Lemma state_eta st :
  mkState (rooms st) (userSocketMap st) (sids st) (sessions st) = st.
Proof. destruct st; reflexivity. Qed.

(** The implicit leave inside join. *)
Lemma leave_existing_spec st s :
  Inv st ->
  let st1 := fst (leave_existing st s) in
  Inv st1 /\
  (forall r, is_member st1 s r = false) /\
  (forall r, JsMap.get (rooms st1) r =
             match JsMap.get (rooms st) r with
             | Some room => without s room
             | None => None
             end) /\
  userSocketMap st1 = userSocketMap st /\
  (forall k, k <> s -> JsMap.get (sids st1) k = JsMap.get (sids st) k) /\
  connected st1 s = connected st s.
Proof.
  intros HI. cbv zeta. unfold leave_existing.
  destruct (getRoomForSocket (rooms st) s) as [X|] eqn:EX.
  - destruct (getRoomForSocket_get _ _ _ (inv_rooms_wf _ HI) EX)
      as [roomX [HX Hhas]].
    destruct (inv_room _ HI _ _ HX) as [_ [_ HXne]].
    apply truthy_true in HXne. rewrite HXne. simpl rooms. rewrite HX.
    destruct (removal_rooms st s X roomX HI HX Hhas) as [Hwf' Hget'].
    cbv zeta in Hwf', Hget'.
    set (tbl := socket_leave (sids st) s X).
    assert (Htbl : forall k, k <> s -> JsMap.get tbl k = JsMap.get (sids st) k).
    { intros k Hk. subst tbl. rewrite socket_leave_get.
      destruct (String.eqb_spec k s); congruence. }
    assert (Hconn : JsMap.has tbl s = JsMap.has (sids st) s).
    { unfold JsMap.has. subst tbl. rewrite socket_leave_get, String.eqb_refl.
      destruct (JsMap.get (sids st) s); reflexivity. }
    assert (Hwft : JsMap.wf tbl).
    { apply socket_leave_wf, (inv_sids_wf _ HI). }
    pose proof (inv_usm_wf _ HI) as Hwfu.
    destruct (JsMap.size (JsMap.delete roomX s) =? 0)%nat;
      unfold with_rooms, with_sids, connected; simpl;
      (split; [eapply (Inv_remove st s); solve [eauto]|]);
      (split; [eapply (remove_not_member st s); solve [eauto]|]);
      auto.
  - simpl. split; [assumption|]. split.
    + intros r. unfold is_member.
      destruct (JsMap.get (rooms st) r) as [room|] eqn:Hr; [|reflexivity].
      eapply getRoomForSocket_None; eassumption.
    + split; [now apply no_room_rooms|]. auto.
Qed.

(** The [disconnect] listener, run on the state whose socket.io table is
    [tbl] (the transport has already updated it). *)
Lemma disconnect_spec st s ss tbl :
  Inv st -> JsMap.wf tbl ->
  (forall k, k <> s -> JsMap.get tbl k = JsMap.get (sids st) k) ->
  let st1 := fst (disconnect (with_sids (with_sessions st ss) tbl) s) in
  Inv st1 /\
  (forall r, is_member st1 s r = false) /\
  (forall r, JsMap.get (rooms st1) r =
             match JsMap.get (rooms st) r with
             | Some room => without s room
             | None => None
             end) /\
  (forall k, k <> s ->
             JsMap.get (userSocketMap st1) k = JsMap.get (userSocketMap st) k) /\
  sids st1 = tbl.
Proof.
  intros HI Hwft Htbl. cbv zeta. unfold disconnect. simpl rooms.
  destruct (getRoomForSocket (rooms st) s) as [X|] eqn:EX.
  - destruct (getRoomForSocket_get _ _ _ (inv_rooms_wf _ HI) EX)
      as [roomX [HX Hhas]].
    destruct (inv_room _ HI _ _ HX) as [_ [_ HXne]].
    apply truthy_true in HXne. rewrite HXne, HX.
    pose proof Hhas as Hu. apply has_true in Hu. destruct Hu as [u Hu].
    rewrite Hu.
    destruct (removal_rooms st s X roomX HI HX Hhas) as [Hwf' Hget'].
    cbv zeta in Hwf', Hget'.
    assert (Husm : forall k, k <> s ->
              JsMap.get (JsMap.delete (userSocketMap st) s) k
              = JsMap.get (userSocketMap st) k).
    { intros k Hk. now apply get_delete_other. }
    assert (Hwfu : JsMap.wf (JsMap.delete (userSocketMap st) s)).
    { apply wf_delete, (inv_usm_wf _ HI). }
    destruct (JsMap.size (JsMap.delete roomX s) =? 0)%nat;
      unfold with_rooms, with_sids, with_userSocketMap; simpl;
      (split; [eapply (Inv_remove st s); solve [eauto]|]);
      (split; [eapply (remove_not_member st s); solve [eauto]|]);
      auto.
  - unfold with_sids; simpl. split.
    + eapply (Inv_remove st s); eauto using inv_rooms_wf, inv_usm_wf.
      now apply no_room_rooms.
    + split.
      * intros r. unfold is_member. simpl.
        destruct (JsMap.get (rooms st) r) as [room|] eqn:Hr; [|reflexivity].
        eapply getRoomForSocket_None; eassumption.
      * split; [now apply no_room_rooms|]. auto.
Qed.

(* ================================================================== *)
(** * Commit of a membership *)

Lemma commit_join_state st s Y u now :
  let st' := fst (commit_join st s Y u now) in
  (forall r, JsMap.get (rooms st') r =
             if r =? Y
             then Some (JsMap.set (room_or_empty st Y) s (User.mk s u now Y))
             else JsMap.get (rooms st) r) /\
  userSocketMap st' = JsMap.set (userSocketMap st) s (User.mk s u now Y) /\
  sids st' = socket_join (sids st) s Y /\
  (JsMap.wf (rooms st) -> JsMap.wf (rooms st')).
Proof.
  cbv zeta. unfold commit_join, room_or_empty. simpl.
  unfold JsMap.has. destruct (JsMap.get (rooms st) Y) as [room|] eqn:HY; simpl.
  - rewrite HY. simpl. repeat split; auto using wf_set.
    intros r. apply get_set.
  - rewrite get_set_same. simpl. repeat split; auto using wf_set.
    intros r. rewrite get_set.
    destruct (String.eqb_spec r Y); [reflexivity|now rewrite get_set_other].
Qed.

Lemma commit_join_effects st s Y u now :
  snd (commit_join st s Y u now) =
  let st' := fst (commit_join st s Y u now) in
  let users := getUsersInRoom (rooms st') Y in
  socket_emit (sids st') s "join-accepted" (PJoinAccepted s u Y users)
  ++ socket_to_emit (sids st') s Y "user-joined" (PUserJoined s u now Y)
  ++ [Callback s (AckSuccess Y users s)].
Proof. reflexivity. Qed.

Section Add.
Variables (st : State) (s Y u : string) (now : Z).
Hypothesis HI : Inv st.
Hypothesis Hnot : forall r, is_member st s r = false.
Hypothesis Hconn : connected st s = true.
Hypothesis HY : Y <> "".
Hypothesis Hu : u <> "".
Hypothesis Hfree : forall room k u',
  JsMap.get (rooms st) Y = Some room -> JsMap.get room k = Some u' ->
  User.username u' = u -> User.id u' = s.

Let st' := fst (commit_join st s Y u now).
Let user := User.mk s u now Y.

Lemma add_room_back r room' :
  JsMap.get (rooms st') r = Some room' ->
  forall k v, JsMap.get room' k = Some v ->
    (k = s /\ r = Y /\ v = user) \/
    (k <> s /\ exists room, JsMap.get (rooms st) r = Some room /\
                            JsMap.get room k = Some v).
Proof.
  destruct (commit_join_state st s Y u now) as [Hget _]. fold st' in Hget.
  rewrite Hget. destruct (String.eqb_spec r Y) as [->|Hne].
  - intros [= <-] k v. rewrite get_set.
    destruct (String.eqb_spec k s) as [->|Hk].
    + intros [= <-]. left. auto.
    + intros Hv. right. split; [assumption|].
      unfold room_or_empty in Hv.
      destruct (JsMap.get (rooms st) Y) as [room|]; [eauto|discriminate].
  - intros Hr k v Hv. right. split; [|eauto].
    intros ->. specialize (Hnot r). unfold is_member in Hnot.
    rewrite Hr in Hnot. apply has_false in Hnot. congruence.
Qed.

Lemma Inv_add : Inv st'.
Proof.
  destruct (commit_join_state st s Y u now) as [Hget [Husm [Hsids Hwf]]].
  fold st' in Hget, Husm, Hsids, Hwf.
  assert (Hs : exists rs, JsMap.get (sids st') s = Some rs /\ In Y rs).
  { rewrite Hsids, socket_join_get, String.eqb_refl.
    unfold connected in Hconn. apply has_true in Hconn.
    destruct Hconn as [rs Hrs]. rewrite Hrs. simpl.
    destruct (joined Y rs) eqn:Hj.
    - exists rs. split; [reflexivity|now apply joined_In].
    - exists (rs ++ [Y]). split; [reflexivity|].
      apply in_or_app. right. now left. }
  constructor.
  - apply Hwf, (inv_rooms_wf _ HI).
  - rewrite Husm. apply wf_set, (inv_usm_wf _ HI).
  - rewrite Hsids. apply socket_join_wf, (inv_sids_wf _ HI).
  - intros r room'. rewrite Hget. destruct (String.eqb_spec r Y) as [->|Hne].
    + intros [= <-]. split; [|split; [apply set_not_nil|assumption]].
      apply wf_set. unfold room_or_empty.
      destruct (JsMap.get (rooms st) Y) as [room|] eqn:E.
      * apply (inv_room _ HI _ _ E).
      * apply wf_empty.
    + apply (inv_room _ HI).
  - intros r room' k v Hr Hv.
    destruct (add_room_back _ _ Hr _ _ Hv)
      as [[-> [-> ->]]|[Hk [room [Hr0 Hv0]]]].
    + repeat split; auto.
      rewrite Husm. apply get_set_same.
    + destruct (inv_member _ HI _ _ _ _ Hr0 Hv0) as [H1 [H2 [H3 [H4 H5]]]].
      repeat split; auto.
      * rewrite Husm. now rewrite get_set_other.
      * rewrite Hsids, socket_join_get.
        destruct (String.eqb_spec k s); [contradiction|assumption].
  - intros r1 r2 room1 room2 k Hr1 Hr2 Hh1 Hh2.
    apply has_true in Hh1. destruct Hh1 as [v1 Hv1].
    apply has_true in Hh2. destruct Hh2 as [v2 Hv2].
    destruct (add_room_back _ _ Hr1 _ _ Hv1)
      as [[Hk1 [HrY1 _]]|[Hk1 [room1' [Hr1' Hv1']]]];
    destruct (add_room_back _ _ Hr2 _ _ Hv2)
      as [[Hk2 [HrY2 _]]|[Hk2 [room2' [Hr2' Hv2']]]];
      try congruence.
    eapply (inv_single _ HI); try eassumption; apply has_true; eauto.
  - intros r room' k1 k2 u1 u2 Hr Hv1 Hv2 E.
    destruct (add_room_back _ _ Hr _ _ Hv1)
      as [[Hk1 [HrY1 Hu1]]|[Hk1 [room1' [Hr1' Hv1']]]];
    destruct (add_room_back _ _ Hr _ _ Hv2)
      as [[Hk2 [HrY2 Hu2]]|[Hk2 [room2' [Hr2' Hv2']]]].
    + congruence.
    + exfalso. subst r u1. simpl in E.
      pose proof (Hfree _ _ _ Hr2' Hv2' (eq_sym E)) as Hid.
      destruct (inv_member _ HI _ _ _ _ Hr2' Hv2') as [H1 _]. congruence.
    + exfalso. subst r u2. simpl in E.
      pose proof (Hfree _ _ _ Hr1' Hv1' E) as Hid.
      destruct (inv_member _ HI _ _ _ _ Hr1' Hv1') as [H1 _]. congruence.
    + assert (room1' = room2') by congruence. subst room2'.
      eapply (inv_distinct _ HI); eassumption.
Qed.

Lemma add_is_member r : is_member st' s r = true <-> r = Y.
Proof.
  destruct (commit_join_state st s Y u now) as [Hget _]. fold st' in Hget.
  unfold is_member. rewrite Hget.
  destruct (String.eqb_spec r Y) as [->|Hne].
  - unfold JsMap.has. rewrite get_set_same. tauto.
  - specialize (Hnot r). unfold is_member in Hnot. rewrite Hnot.
    split; [discriminate|contradiction].
Qed.

End Add.

(* ================================================================== *)
(** * The join handler, path by path *)

Lemma join_request_invalid st s data now :
  missing_or_empty (field (or_empty_object data) "roomId") = true \/
  missing_or_empty (field (or_empty_object data) "username") = true ->
  join_request st s data now = (st, [Callback s validation_error]).
Proof.
  unfold join_request, missing_or_empty.
  destruct (field (or_empty_object data) "roomId") as [Y|];
    destruct (field (or_empty_object data) "username") as [u|];
    try reflexivity.
  intros [H|H]; rewrite H; simpl; try reflexivity.
  now rewrite orb_true_r.
Qed.

Lemma join_request_conflict st s data now Y u eu :
  field (or_empty_object data) "roomId" = Some Y ->
  field (or_empty_object data) "username" = Some u ->
  Y <> "" -> u <> "" ->
  existingUser st s Y u = Some eu ->
  join_request st s data now =
  (st, socket_emit (sids st) s "username_exists" (PError (conflict_message u))
       ++ [Callback s (AckError (conflict_message u))]).
Proof.
  intros HY Hu HYne Hune Hex. unfold join_request. rewrite HY, Hu.
  apply truthy_true in HYne. apply truthy_true in Hune.
  rewrite HYne, Hune, Hex. reflexivity.
Qed.

Lemma join_request_commit st s data now Y u :
  field (or_empty_object data) "roomId" = Some Y ->
  field (or_empty_object data) "username" = Some u ->
  Y <> "" -> u <> "" ->
  existingUser st s Y u = None ->
  join_request st s data now =
  (fst (commit_join (fst (leave_existing st s)) s Y u now),
   snd (leave_existing st s)
   ++ snd (commit_join (fst (leave_existing st s)) s Y u now)).
Proof.
  intros HY Hu HYne Hune Hex. unfold join_request. rewrite HY, Hu.
  apply truthy_true in HYne. apply truthy_true in Hune.
  rewrite HYne, Hune, Hex. simpl.
  destruct (leave_existing st s) as [st1 out1].
  destruct (commit_join st1 s Y u now) as [st2 out2]. reflexivity.
Qed.

Lemma leave_existing_only_emits st s e :
  In e (snd (leave_existing st s)) -> exists m p, e = Emit m "user-left" p.
Proof.
  unfold leave_existing.
  destruct (getRoomForSocket (rooms st) s) as [X|]; [|simpl; tauto].
  destruct (truthy X); [|simpl; tauto]. simpl rooms.
  destruct (JsMap.get (rooms st) X) as [roomX|]; [|simpl; tauto].
  destruct (JsMap.size (JsMap.delete roomX s) =? 0)%nat; [simpl; tauto|].
  simpl. intros H. apply socket_to_emit_In in H.
  destruct H as [m [-> _]]. eauto.
Qed.

(** The three ways a join request can end. *)
Lemma join_request_cases st s data :
  let d := or_empty_object data in
  (missing_or_empty (field d "roomId") = true \/
   missing_or_empty (field d "username") = true) \/
  exists Y u,
    field d "roomId" = Some Y /\ field d "username" = Some u /\
    Y <> "" /\ u <> "" /\
    ((exists eu, existingUser st s Y u = Some eu) \/
     existingUser st s Y u = None).
Proof.
  cbv zeta. unfold missing_or_empty.
  destruct (field (or_empty_object data) "roomId") as [Y|]; [|left; now left].
  destruct (field (or_empty_object data) "username") as [u|];
    [|left; now right].
  destruct (truthy Y) eqn:HY; [|left; now left].
  destruct (truthy u) eqn:Hu; [|left; now right].
  right. exists Y, u. apply truthy_true in HY. apply truthy_true in Hu.
  repeat split; auto.
  destruct (existingUser st s Y u); eauto.
Qed.

(** A success acknowledgment only comes out of the commit path. *)
Lemma acknowledged_commit st s data now Y :
  acknowledged (snd (join_request st s data now)) s Y ->
  exists u,
    field (or_empty_object data) "roomId" = Some Y /\
    field (or_empty_object data) "username" = Some u /\
    Y <> "" /\ u <> "" /\ existingUser st s Y u = None.
Proof.
  intros [users [yourId Hin]].
  destruct (join_request_cases st s data)
    as [Hbad|[Y' [u [HY [Hu [HYne [Hune [[eu Hex]|Hex]]]]]]]].
  - rewrite (join_request_invalid _ _ _ _ Hbad) in Hin. simpl in Hin.
    destruct Hin as [E|[]]. discriminate.
  - rewrite (join_request_conflict _ _ _ _ _ _ _ HY Hu HYne Hune Hex) in Hin.
    cbn [snd] in Hin. apply in_app_or in Hin. destruct Hin as [Hin|[E|[]]].
    + apply socket_emit_In in Hin. destruct Hin as [m [E _]]. discriminate.
    + discriminate.
  - rewrite (join_request_commit _ _ _ _ _ _ HY Hu HYne Hune Hex) in Hin.
    cbn [snd] in Hin. apply in_app_or in Hin. destruct Hin as [Hin|Hin].
    + apply leave_existing_only_emits in Hin. destruct Hin as [m [p E]].
      discriminate.
    + rewrite commit_join_effects in Hin. cbv zeta in Hin.
      apply in_app_or in Hin. destruct Hin as [Hin|Hin].
      * apply socket_emit_In in Hin. destruct Hin as [m [E _]]. discriminate.
      * apply in_app_or in Hin. destruct Hin as [Hin|[E|[]]].
        -- apply socket_to_emit_In in Hin. destruct Hin as [m [E _]].
           discriminate.
        -- injection E as <- _ _. exists u. auto.
Qed.

(* ================================================================== *)
(** * Every reachable state satisfies the invariant *)

Lemma join_request_Inv st s data now :
  Inv st -> connected st s = true -> Inv (fst (join_request st s data now)).
Proof.
  intros HI Hconn.
  destruct (join_request_cases st s data)
    as [Hbad|[Y [u [HY [Hu [HYne [Hune [[eu Hex]|Hex]]]]]]]].
  - now rewrite (join_request_invalid _ _ _ _ Hbad).
  - now rewrite (join_request_conflict _ _ _ _ _ _ _ HY Hu HYne Hune Hex).
  - rewrite (join_request_commit _ _ _ _ _ _ HY Hu HYne Hune Hex). cbn [fst].
    destruct (leave_existing_spec st s HI)
      as [HI1 [Hnot [Hrooms [_ [_ Hconn1]]]]].
    apply Inv_add; auto.
    + congruence.
    + intros room k u' Hroom Hget Hname.
      rewrite Hrooms in Hroom.
      destruct (JsMap.get (rooms st) Y) as [room0|] eqn:HY0; [|discriminate].
      destruct (inv_room _ HI _ _ HY0) as [Hwf0 [Hne0 _]].
      destruct (without_Some _ _ _ Hwf0 Hne0 Hroom) as [_ [_ Hback]].
      destruct (Hback _ _ Hget) as [_ Hget0].
      eapply existingUser_None; eassumption.
Qed.

(** Every listener but the join handler leaves the state as it is. *)
Lemma on_keeps_state name h :
  on name = Some h -> name <> "join-request" ->
  forall st s data now, fst (h st s data now) = st.
Proof.
  unfold on. intros Hon Hname st s data now.
  destruct (String.eqb_spec name "join-request"); [contradiction|].
  repeat match type of Hon with
         | (if ?b then _ else _) = Some _ => destruct b
         end;
    try discriminate; injection Hon as <-; try reflexivity;
    unfold destructured; destruct data as [d|]; try reflexivity;
    unfold code_change, send_message, cursor_move, file_open, file_content,
      file_save;
    destruct (field d "roomId") as [r|]; try reflexivity;
    destruct (truthy r); reflexivity.
Qed.

Lemma Inv_init : Inv init.
Proof.
  constructor; simpl; try (constructor; fail); try discriminate.
Qed.

(** The invariant does not read the sessions. *)
Lemma Inv_with_sessions st ss : Inv st -> Inv (with_sessions st ss).
Proof. intros [H1 H2 H3 H4 H5 H6 H7]. constructor; assumption. Qed.

Lemma step_Inv st i : Inv st -> Inv (fst (step st i)).
Proof.
  intros HI. destruct i as [s|s name data now|s]; simpl.
  - destruct (connected st s) eqn:Hc; [assumption|]. simpl.
    unfold connected in Hc. apply has_false in Hc.
    assert (Hk : forall r room k u,
               JsMap.get (rooms st) r = Some room -> JsMap.get room k = Some u ->
               k <> s).
    { intros r room k u Hr Hu ->.
      destruct (inv_member _ HI _ _ _ _ Hr Hu) as [_ [_ [_ [_ [rs [Hrs _]]]]]].
      congruence. }
    constructor; simpl.
    + apply (inv_rooms_wf _ HI).
    + apply (inv_usm_wf _ HI).
    + apply wf_set, (inv_sids_wf _ HI).
    + apply (inv_room _ HI).
    + intros r room k u Hr Hu.
      destruct (inv_member _ HI _ _ _ _ Hr Hu) as [H1 [H2 [H3 [H4 H5]]]].
      repeat split; auto. rewrite get_set_other; eauto.
    + apply (inv_single _ HI).
    + apply (inv_distinct _ HI).
  - destruct (connected st s) eqn:Hc; [|assumption].
    destruct (on name) as [h|] eqn:Hon; [|assumption].
    destruct (String.eqb_spec name "join-request") as [->|Hne].
    + injection Hon as <-. now apply join_request_Inv.
    + now rewrite (on_keeps_state _ _ Hon Hne).
  - destruct (connected st s) eqn:Hc; [|assumption].
    apply (disconnect_spec st s
             (JsMap.set (sessions st) s (rooms_of (sids st) s))
             (JsMap.delete (sids st) s) HI).
    + apply wf_delete, (inv_sids_wf _ HI).
    + intros k Hk. now apply get_delete_other.
Qed.

Lemma reachable_Inv st : reachable st -> Inv st.
Proof.
  induction 1 as [|st i _ IH]; [apply Inv_init|now apply step_Inv].
Qed.

Lemma run_app st is1 is2 :
  run st (is1 ++ is2) =
  let '(st1, out1) := run st is1 in
  let '(st2, out2) := run st1 is2 in
  (st2, out1 ++ out2).
Proof.
  revert st. induction is1 as [|i is1 IH]; intros st; simpl.
  - destruct (run st is2). reflexivity.
  - destruct (step st i) as [st1 out1]. rewrite IH.
    destruct (run st1 is1) as [st2 out2].
    destruct (run st2 is2) as [st3 out3]. now rewrite app_assoc.
Qed.

Lemma reachable_run st inputs :
  reachable st -> reachable (fst (run st inputs)).
Proof.
  revert st. induction inputs as [|i rest IH]; intros st H; simpl.
  - assumption.
  - pose proof (reachable_step st i H) as H1.
    destruct (step st i) as [st1 out1]. simpl in H1.
    specialize (IH st1 H1). destruct (run st1 rest). assumption.
Qed.

(* ================================================================== *)
(** * What the two removal paths emit *)

Lemma leave_existing_effects st s X roomX user :
  Inv st ->
  JsMap.get (rooms st) X = Some roomX -> JsMap.get roomX s = Some user ->
  snd (leave_existing st s) =
  if (JsMap.size (JsMap.delete roomX s) =? 0)%nat then []
  else socket_to_emit (socket_leave (sids st) s X) s X "user-left"
         (PUserLeft s (Some (User.username user))).
Proof.
  intros HI HX Hu.
  assert (Hhas : JsMap.has roomX s = true) by (apply has_true; eauto).
  unfold leave_existing.
  rewrite (getRoomForSocket_member _ _ _ _ HI HX Hhas).
  destruct (inv_room _ HI _ _ HX) as [_ [_ HXne]].
  apply truthy_true in HXne. rewrite HXne. simpl rooms. rewrite HX.
  destruct (inv_member _ HI _ _ _ _ HX Hu) as [_ [_ [_ [Husm _]]]].
  destruct (JsMap.size (JsMap.delete roomX s) =? 0)%nat; [reflexivity|].
  simpl. now rewrite Husm.
Qed.

Lemma disconnect_effects st s ss tbl X roomX user :
  Inv st ->
  JsMap.get (rooms st) X = Some roomX -> JsMap.get roomX s = Some user ->
  snd (disconnect (with_sids (with_sessions st ss) tbl) s) =
  if (JsMap.size (JsMap.delete roomX s) =? 0)%nat then []
  else io_to_emit tbl X "user-left" (PUserLeft s (Some (User.username user))).
Proof.
  intros HI HX Hu.
  assert (Hhas : JsMap.has roomX s = true) by (apply has_true; eauto).
  unfold disconnect. simpl rooms.
  rewrite (getRoomForSocket_member _ _ _ _ HI HX Hhas).
  destruct (inv_room _ HI _ _ HX) as [_ [_ HXne]].
  apply truthy_true in HXne. rewrite HXne, HX, Hu.
  destruct (JsMap.size (JsMap.delete roomX s) =? 0)%nat; reflexivity.
Qed.

Lemma disconnect_registry st s ss tbl X roomX user :
  Inv st ->
  JsMap.get (rooms st) X = Some roomX -> JsMap.get roomX s = Some user ->
  JsMap.get (userSocketMap (fst (disconnect (with_sids (with_sessions st ss) tbl) s))) s = None.
Proof.
  intros HI HX Hu.
  assert (Hhas : JsMap.has roomX s = true) by (apply has_true; eauto).
  unfold disconnect. simpl rooms.
  rewrite (getRoomForSocket_member _ _ _ _ HI HX Hhas).
  destruct (inv_room _ HI _ _ HX) as [_ [_ HXne]].
  apply truthy_true in HXne. rewrite HXne, HX, Hu.
  destruct (JsMap.size (JsMap.delete roomX s) =? 0)%nat; simpl;
    apply get_delete_same, (inv_usm_wf _ HI).
Qed.

Lemma disconnect_no_room st s :
  getRoomForSocket (rooms st) s = None -> disconnect st s = (st, []).
Proof. intros H. unfold disconnect. now rewrite H. Qed.

Lemma without_member s room :
  JsMap.has room s = true ->
  without s room =
  if (JsMap.size (JsMap.delete room s) =? 0)%nat then None
  else Some (JsMap.delete room s).
Proof. intros H. unfold without. now rewrite H. Qed.

(** A member other than the one leaving is still reached through the
    socket.io room once the leaver's own entry has changed. *)
Lemma member_in_room st tbl s m X :
  Inv st -> (forall k, k <> s -> JsMap.get tbl k = JsMap.get (sids st) k) ->
  m <> s -> is_member st m X = true -> In m (in_room tbl X).
Proof.
  intros HI Htbl Hne Hm. apply is_member_true in Hm.
  destruct Hm as [room [u [Hr Hu]]].
  destruct (inv_member _ HI _ _ _ _ Hr Hu) as [_ [_ [_ [_ [rs [Hrs Hin]]]]]].
  eapply in_room_intro; [|eassumption]. now rewrite Htbl.
Qed.

Lemma is_member_connected st s r :
  Inv st -> is_member st s r = true -> connected st s = true.
Proof.
  intros HI Hm. apply is_member_true in Hm. destruct Hm as [room [u [Hr Hu]]].
  destruct (inv_member _ HI _ _ _ _ Hr Hu) as [_ [_ [_ [_ [rs [Hrs _]]]]]].
  unfold connected. apply has_true. eauto.
Qed.

Lemma alice_and_bob_reachable : reachable alice_and_bob.
Proof. apply reachable_run, reachable_init. Qed.

Lemma bob_alone_reachable : reachable bob_alone.
Proof. apply reachable_run, reachable_init. Qed.

(* ================================================================== *)
(** * Properties of the specification *)

(** C2.  In every state produced from the initial one by any sequence of
    inputs (connections, join requests, code changes and the other relays,
    disconnects), the usernames of the members of any room are pairwise
    distinct. *)
Theorem usernames_pairwise_distinct (inputs : list Input) (roomId : string) :
  NoDup (map User.username
           (getUsersInRoom (rooms (fst (run init inputs))) roomId)).
Proof.
  pose proof (reachable_Inv _ (reachable_run init inputs reachable_init)) as HI.
  set (st := fst (run init inputs)) in *.
  unfold getUsersInRoom.
  destruct (JsMap.get (rooms st) roomId) as [room|] eqn:Hr; [|constructor].
  apply NoDup_map_values.
  - apply (inv_room _ HI _ _ Hr).
  - intros k1 k2 u1 u2. apply (inv_distinct _ HI _ _ _ _ _ _ Hr).
Qed.

(** The validation path of the join handler.  A request whose [roomId] or
    [username] is missing or empty passes the validation error to
    [callback], emits nothing and returns the state it was given.  So the
    error is sent back when the request came with an acknowledgment
    function, and nothing at all is sent when it came without one. *)
Lemma join_validation_error (st : State) (socket : string)
    (data : option Obj) (now : Z) :
  missing_or_empty (field (or_empty_object data) "roomId") = true \/
  missing_or_empty (field (or_empty_object data) "username") = true ->
  join_request st socket data now = (st, [Callback socket validation_error]) /\
  sent true (snd (join_request st socket data now))
  = [Callback socket validation_error] /\
  sent false (snd (join_request st socket data now)) = [].
Proof.
  intros H. rewrite (join_request_invalid _ _ _ _ H). repeat split.
Qed.

(** C3.  With B in "r1" and A connected, A sends a join request for "r1"
    that has no [username].  The handler returns the state unchanged and
    passes the validation error to [callback], and does nothing else.  If
    the request came with an acknowledgment function the error is sent
    back; if it came without one, as the client's own re-join does, nothing
    is sent to A: the failure is not reported. *)
Theorem validation_error_unreported_without_ack :
  let request := Event "A" "join-request" (Some [("roomId", "r1")]) 2%Z in
  connected bob_alone "A" = true /\
  missing_or_empty
    (field (or_empty_object (Some [("roomId", "r1")])) "username") = true /\
  step bob_alone request
  = (bob_alone,
     [Callback "A" (AckError "Room ID and username are required")]) /\
  sent true (snd (step bob_alone request))
  = [Callback "A" (AckError "Room ID and username are required")] /\
  sent false (snd (step bob_alone request)) = [].
Proof. cbv zeta. repeat split; reflexivity. Qed.

Lemma step_creates_room st i r :
  Inv st ->
  JsMap.has (rooms st) r = false ->
  JsMap.has (rooms (fst (step st i))) r = true ->
  exists socket data now,
    i = Event socket "join-request" data now /\
    acknowledged (snd (step st i)) socket r.
Proof.
  intros HI Hno Hyes. apply has_false in Hno.
  destruct i as [s|s name data now|s]; simpl in *.
  - destruct (connected st s); simpl in Hyes; apply has_true in Hyes;
      destruct Hyes; congruence.
  - destruct (connected st s) eqn:Hc;
      [|apply has_true in Hyes; destruct Hyes; simpl in *; congruence].
    destruct (on name) as [h|] eqn:Hon;
      [|apply has_true in Hyes; destruct Hyes; simpl in *; congruence].
    destruct (String.eqb_spec name "join-request") as [->|Hne].
    + injection Hon as <-. exists s, data, now. split; [reflexivity|].
      destruct (join_request_cases st s data)
        as [Hbad|[Y [u [HY [Hu [HYne [Hune [[eu Hex]|Hex]]]]]]]].
      * rewrite (join_request_invalid _ _ _ now Hbad) in Hyes.
        apply has_true in Hyes; destruct Hyes; simpl in *; congruence.
      * rewrite (join_request_conflict _ _ _ now _ _ _ HY Hu HYne Hune Hex)
          in Hyes.
        apply has_true in Hyes; destruct Hyes; simpl in *; congruence.
      * rewrite (join_request_commit _ _ _ now _ _ HY Hu HYne Hune Hex) in *.
        cbn [fst snd] in *.
        destruct (leave_existing_spec st s HI) as [_ [_ [Hrooms _]]].
        destruct (commit_join_state (fst (leave_existing st s)) s Y u now)
          as [Hget _].
        apply has_true in Hyes. destruct Hyes as [room Hroom].
        rewrite Hget in Hroom.
        destruct (String.eqb_spec r Y) as [->|HrY].
        -- rewrite commit_join_effects. cbv zeta.
           eexists _, _. apply in_or_app. right. apply in_or_app. right.
           apply in_or_app. right. left. reflexivity.
        -- rewrite Hrooms, Hno in Hroom. discriminate.
    + rewrite (on_keeps_state _ _ Hon Hne) in Hyes.
      apply has_true in Hyes; destruct Hyes; congruence.
  - destruct (connected st s) eqn:Hc;
      [|apply has_true in Hyes; destruct Hyes; simpl in *; congruence].
    destruct (disconnect_spec st s
                (JsMap.set (sessions st) s (rooms_of (sids st) s))
                (JsMap.delete (sids st) s) HI)
      as [_ [_ [Hrooms _]]].
    + apply wf_delete, (inv_sids_wf _ HI).
    + intros k Hk. now apply get_delete_other.
    + apply has_true in Hyes. destruct Hyes as [room Hroom].
      rewrite Hrooms, Hno in Hroom. discriminate.
Qed.

Lemma without_None s room :
  JsMap.wf room -> without s room = None ->
  forall m, JsMap.has room m = true <-> m = s.
Proof.
  unfold without. intros Hwf.
  destruct (JsMap.has room s) eqn:Hhas; [|discriminate].
  destruct (JsMap.size (JsMap.delete room s) =? 0)%nat eqn:Hsz; [|discriminate].
  intros _ m. apply size_zero in Hsz. split.
  - intros Hm. destruct (String.eqb_spec m s) as [|Hne]; [assumption|].
    exfalso. apply has_true in Hm. destruct Hm as [v Hv].
    rewrite <- (get_delete_other room s m Hne), Hsz in Hv. discriminate.
  - now intros ->.
Qed.

Lemma step_deletes_room st i r :
  Inv st ->
  JsMap.has (rooms st) r = true ->
  JsMap.has (rooms (fst (step st i))) r = false ->
  exists socket,
    (i = Disconnect socket \/
     exists data now, i = Event socket "join-request" data now) /\
    forall m, is_member st m r = true <-> m = socket.
Proof.
  intros HI Hyes Hno. apply has_true in Hyes. destruct Hyes as [room Hroom].
  destruct (inv_room _ HI _ _ Hroom) as [Hwf _].
  apply has_false in Hno.
  assert (Hlast : forall s, without s room = None ->
            forall m, is_member st m r = true <-> m = s).
  { intros s Hw m. unfold is_member. rewrite Hroom. now apply without_None. }
  destruct i as [s|s name data now|s]; simpl in *.
  - destruct (connected st s); simpl in Hno; congruence.
  - destruct (connected st s) eqn:Hc; [|simpl in Hno; congruence].
    destruct (on name) as [h|] eqn:Hon; [|simpl in Hno; congruence].
    destruct (String.eqb_spec name "join-request") as [->|Hne].
    + injection Hon as <-. exists s. split; [right; eauto|].
      destruct (join_request_cases st s data)
        as [Hbad|[Y [u [HY [Hu [HYne [Hune [[eu Hex]|Hex]]]]]]]].
      * rewrite (join_request_invalid _ _ _ now Hbad) in Hno.
        simpl in Hno. congruence.
      * rewrite (join_request_conflict _ _ _ now _ _ _ HY Hu HYne Hune Hex)
          in Hno.
        simpl in Hno. congruence.
      * rewrite (join_request_commit _ _ _ now _ _ HY Hu HYne Hune Hex) in Hno.
        cbn [fst] in Hno.
        destruct (leave_existing_spec st s HI) as [_ [_ [Hrooms _]]].
        destruct (commit_join_state (fst (leave_existing st s)) s Y u now)
          as [Hget _].
        rewrite Hget in Hno.
        destruct (String.eqb_spec r Y); [discriminate|].
        rewrite Hrooms, Hroom in Hno. now apply Hlast.
    + rewrite (on_keeps_state _ _ Hon Hne) in Hno. congruence.
  - destruct (connected st s) eqn:Hc; [|simpl in Hno; congruence].
    exists s. split; [now left|].
    destruct (disconnect_spec st s
                (JsMap.set (sessions st) s (rooms_of (sids st) s))
                (JsMap.delete (sids st) s) HI)
      as [_ [_ [Hrooms _]]].
    + apply wf_delete, (inv_sids_wf _ HI).
    + intros k Hk. now apply get_delete_other.
    + rewrite Hrooms, Hroom in Hno. now apply Hlast.
Qed.

(** C8.  In every state produced from the initial one by any sequence of
    inputs, a room id has an entry in the directory exactly when its member
    count is positive.  A step that makes an entry appear is a join request
    for that very id which was acknowledged as a success; a step that makes
    an entry disappear is the disconnect, or a join request, of the
    connection that was its only member. *)
Theorem room_exists_iff_nonempty (inputs : list Input) (roomId : string) :
  let st := fst (run init inputs) in
  (JsMap.has (rooms st) roomId = true <-> 0 < member_count st roomId) /\
  (forall i,
      JsMap.has (rooms st) roomId = false ->
      JsMap.has (rooms (fst (step st i))) roomId = true ->
      exists socket data now,
        i = Event socket "join-request" data now /\
        acknowledged (snd (step st i)) socket roomId) /\
  (forall i,
      JsMap.has (rooms st) roomId = true ->
      JsMap.has (rooms (fst (step st i))) roomId = false ->
      exists socket,
        (i = Disconnect socket \/
         exists data now, i = Event socket "join-request" data now) /\
        forall m, is_member st m roomId = true <-> m = socket).
Proof.
  intros st.
  pose proof (reachable_Inv _ (reachable_run init inputs reachable_init)) as HI.
  fold st in HI. split; [|split].
  - unfold member_count, getUsersInRoom, JsMap.has.
    destruct (JsMap.get (rooms st) roomId) as [room|] eqn:Hr.
    + destruct (inv_room _ HI _ _ Hr) as [_ [Hne _]].
      destruct room; [congruence|]. simpl. split; [lia|reflexivity].
    + simpl. split; [discriminate|lia].
  - intros i. now apply step_creates_room.
  - intros i. now apply step_deletes_room.
Qed.

Lemma step_join_request st s data now :
  connected st s = true ->
  step st (Event s "join-request" data now) = join_request st s data now.
Proof. intros H. simpl. now rewrite H. Qed.

Lemma step_not_connected st s name data now :
  connected st s = false -> step st (Event s name data now) = (st, []).
Proof. intros H. simpl. now rewrite H. Qed.

Lemma acknowledged_connected st s data now Y :
  acknowledged (snd (step st (Event s "join-request" data now))) s Y ->
  connected st s = true.
Proof.
  destruct (connected st s) eqn:Hc; [reflexivity|].
  rewrite (step_not_connected _ _ _ _ _ Hc). intros [users [y []]].
Qed.

(** C4.  A and B are members of the room named "A", the id of A's socket,
    and A's join request for "r2" is acknowledged as a success.  A is taken
    out of the room named "A" and put into "r2", and B stays behind as the
    remaining member; but the [user-left] that [socket.to] addresses to the
    room named "A" excepts every socket of the room named by A's id, which
    is that same room: nobody receives [user-left].  ([join-accepted], sent
    to the room named by A's id, goes to B, and [user-joined] to A.) *)
Theorem implicit_leave_not_announced :
  let request := Event "A" "join-request" (join_data "r2" "alice") 3%Z in
  let st' := fst (step both_in_room_A request) in
  let out := snd (step both_in_room_A request) in
  is_member both_in_room_A "A" "A" = true /\
  is_member both_in_room_A "B" "A" = true /\
  acknowledged out "A" "r2" /\
  is_member st' "A" "A" = false /\
  is_member st' "A" "r2" = true /\
  is_member st' "B" "A" = true /\
  (forall m, ~ receives_event out m "user-left") /\
  out =
  [ Emit "B" "join-accepted"
      (PJoinAccepted "A" "alice" "r2" [User.mk "A" "alice" 3%Z "r2"]);
    Emit "A" "user-joined" (PUserJoined "A" "alice" 3%Z "r2");
    Callback "A" (AckSuccess "r2" [User.mk "A" "alice" 3%Z "r2"] "A") ].
Proof.
  cbv zeta.
  assert (Hout : snd (step both_in_room_A
                        (Event "A" "join-request" (join_data "r2" "alice") 3%Z))
                 = [ Emit "B" "join-accepted"
                       (PJoinAccepted "A" "alice" "r2"
                          [User.mk "A" "alice" 3%Z "r2"]);
                     Emit "A" "user-joined" (PUserJoined "A" "alice" 3%Z "r2");
                     Callback "A"
                       (AckSuccess "r2" [User.mk "A" "alice" 3%Z "r2"] "A") ])
    by reflexivity.
  rewrite Hout.
  split; [reflexivity|]. split; [reflexivity|].
  split; [eexists _, _; right; right; left; reflexivity|].
  split; [reflexivity|]. split; [reflexivity|]. split; [reflexivity|].
  split; [|reflexivity].
  intros m [p Hin]. simpl in Hin.
  destruct Hin as [E|[E|[E|[]]]]; discriminate.
Qed.

(** C6.  Two successful join requests.  With B in the room named "A", A's
    request for "r1" sends [join-accepted] to A and to B: B is not the
    requester, and not a member of "r1".  With A alone in the room named
    "A", A's request for "r2" takes A out of the room of its own id first:
    then A, the requester, receives no [join-accepted], and receives the
    [user-joined] about itself. *)
Theorem join_accepted_not_to_requester_only :
  let first := Event "A" "join-request" (join_data "r1" "alice") 2%Z in
  let second := Event "A" "join-request" (join_data "r2" "alice") 2%Z in
  (is_member bob_in_room_A "B" "A" = true /\
   acknowledged (snd (step bob_in_room_A first)) "A" "r1" /\
   is_member (fst (step bob_in_room_A first)) "B" "r1" = false /\
   receives (snd (step bob_in_room_A first)) "B" "join-accepted"
     (PJoinAccepted "A" "alice" "r1" [User.mk "A" "alice" 2%Z "r1"])) /\
  (is_member alice_in_room_A "A" "A" = true /\
   acknowledged (snd (step alice_in_room_A second)) "A" "r2" /\
   ~ receives_event (snd (step alice_in_room_A second)) "A" "join-accepted" /\
   receives (snd (step alice_in_room_A second)) "A" "user-joined"
     (PUserJoined "A" "alice" 2%Z "r2")).
Proof.
  cbv zeta. split.
  - split; [reflexivity|].
    split; [eexists _, _; vm_compute; right; right; left; reflexivity|].
    split; [reflexivity|]. vm_compute. right. left. reflexivity.
  - split; [reflexivity|].
    split; [eexists _, _; vm_compute; right; left; reflexivity|].
    split; [|vm_compute; left; reflexivity].
    intros [p Hin]. vm_compute in Hin.
    destruct Hin as [E|[E|[]]]; discriminate.
Qed.

Lemma find_Some_of_In {A : Type} (p : A -> bool) (l : list A) (x : A) :
  In x l -> p x = true -> exists y, find p l = Some y.
Proof.
  intros Hin Hp. destruct (find p l) as [y|] eqn:E; [eauto|].
  rewrite (find_none _ _ E x Hin) in Hp. discriminate.
Qed.

(** X11.  The conflict path in every reachable state.  A request for a
    room in which another connection already carries the requested
    username returns the state unchanged and passes the error to the
    callback of the requester.  The one event it emits is named
    [username_exists]; it goes to the sockets that have joined the room
    named by the requester's id, which is the requester alone when that
    room holds the requester and no other socket. *)
Theorem join_conflict_rejected (st : State) (socket Y u m : string)
    (room : JsMap.t User.t) (holder : User.t) (data : option Obj) (now : Z) :
  reachable st -> connected st socket = true ->
  field (or_empty_object data) "roomId" = Some Y ->
  field (or_empty_object data) "username" = Some u ->
  JsMap.get (rooms st) Y = Some room ->
  JsMap.get room m = Some holder ->
  User.username holder = u -> m <> socket ->
  let out := snd (step st (Event socket "join-request" data now)) in
  fst (step st (Event socket "join-request" data now)) = st /\
  (forall k a, In (Callback k a) out <->
               k = socket /\ a = AckError (conflict_message u)) /\
  (forall k event p, In (Emit k event p) out <->
                     event = "username_exists" /\
                     p = PError (conflict_message u) /\
                     In k (in_room (sids st) socket)) /\
  (own_room (sids st) socket ->
   out = [Emit socket "username_exists" (PError (conflict_message u));
          Callback socket (AckError (conflict_message u))]).
Proof.
  intros Hreach Hconn HY Hu Hroom Hholder Hname Hne out. subst out.
  pose proof (reachable_Inv _ Hreach) as HI.
  rewrite (step_join_request _ _ _ _ Hconn).
  destruct (inv_room _ HI _ _ Hroom) as [_ [_ HYne]].
  destruct (inv_member _ HI _ _ _ _ Hroom Hholder) as [Hid [_ [Hune _]]].
  assert (Hex : exists eu, existingUser st socket Y u = Some eu).
  { unfold existingUser. rewrite Hroom.
    apply (find_Some_of_In _ _ holder).
    - eapply get_In_values; eassumption.
    - simpl. rewrite Hname, String.eqb_refl, Hid. simpl.
      destruct (String.eqb_spec m socket); [contradiction|reflexivity]. }
  destruct Hex as [eu Hex].
  assert (Hune' : u <> "") by congruence.
  rewrite (join_request_conflict _ _ _ now _ _ _ HY Hu HYne Hune' Hex).
  cbn [fst snd]. split; [reflexivity|]. split; [|split].
  - intros k a. rewrite in_app_iff. split.
    + intros [Hin|[E|[]]].
      * apply socket_emit_In in Hin. destruct Hin as [k' [E _]]. discriminate.
      * injection E as <- <-. auto.
    + intros [-> ->]. right. left. reflexivity.
  - intros k event p. rewrite in_app_iff. split.
    + intros [Hin|[E|[]]]; [|discriminate].
      apply socket_emit_In in Hin. destruct Hin as [k' [E Hin]].
      injection E as E1 E2 E3. subst k' event p. auto.
    + intros [-> [-> Hin]]. left. apply socket_emit_In. eauto.
  - intros Hown. unfold socket_emit. rewrite Hown. reflexivity.
Qed.

(** C1.  With B alone in "r1" as "bob", the join request of connection A
    for "r1" as "bob" is refused: the callback gets the error, the state is
    unchanged, and A (nobody else) is sent one event.  That event is named
    [username_exists], which is neither the [username-exists] of the
    client's [SocketEvent] table nor any name the client listens to, so no
    [username-exists] event reaches the requester. *)
Theorem conflict_event_name_mismatch :
  let request := Event "A" "join-request" (join_data "r1" "bob") 2%Z in
  is_member bob_alone "B" "r1" = true /\
  step bob_alone request =
  (bob_alone,
   [Emit "A" "username_exists"
      (PError "Username 'bob' is already taken in this room");
    Callback "A" (AckError "Username 'bob' is already taken in this room")]) /\
  ~ receives_event (snd (step bob_alone request)) "A"
      SocketEvent.USERNAME_EXISTS /\
  ~ In "username_exists" client_listeners.
Proof.
  cbv zeta. split; [reflexivity|]. split; [reflexivity|]. split.
  - intros [p Hin]. vm_compute in Hin.
    destruct Hin as [E|[E|[]]]; discriminate.
  - vm_compute. intuition discriminate.
Qed.

(** C5.  With A and B in "r1", a [leave-room] event from A for "r1" is
    dropped: the server has no listener for it.  A is still a member of
    "r1" in the directory and in the registry, and nobody is notified;
    closing A's connection instead does take A out and notifies B. *)
Theorem leave_room_keeps_membership :
  let request := Event "A" "leave-room" (Some [("roomId", "r1")]) 3%Z in
  on "leave-room" = None /\
  is_member alice_and_bob "A" "r1" = true /\
  is_member (fst (step alice_and_bob request)) "A" "r1" = true /\
  JsMap.has (userSocketMap (fst (step alice_and_bob request))) "A" = true /\
  snd (step alice_and_bob request) = [] /\
  is_member (fst (step alice_and_bob (Disconnect "A"))) "A" "r1" = false /\
  JsMap.has (userSocketMap (fst (step alice_and_bob (Disconnect "A")))) "A"
  = false /\
  snd (step alice_and_bob (Disconnect "A"))
  = [Emit "B" "user-left" (PUserLeft "A" (Some "alice"))].
Proof. cbv zeta. repeat split; reflexivity. Qed.

Lemma with_sids_same st :
  with_sids (with_sessions st (sessions st)) (sids st) = st.
Proof. destruct st; reflexivity. Qed.

Lemma step_code_change st s d now :
  connected st s = true ->
  step st (Event s "code-change" (Some d) now) = code_change st s d now.
Proof. intros H. simpl. now rewrite H. Qed.

Lemma code_change_state st s d now : fst (code_change st s d now) = st.
Proof.
  unfold code_change. destruct (field d "roomId") as [r|]; [|reflexivity].
  destruct (truthy r); reflexivity.
Qed.

Lemma code_change_to_members st c r d now m :
  Inv st -> field d "roomId" = Some r ->
  ~ In m (in_room (sids st) c) -> is_member st m r = true ->
  receives (snd (code_change st c d now)) m "code-update"
    (PCodeUpdate (field d "code") (field d "cursorPos") (field d "filePath")
       c now).
Proof.
  intros HI Hr Hne Hm. unfold code_change. rewrite Hr.
  pose proof Hm as Hm'. apply is_member_true in Hm'.
  destruct Hm' as [room [u [Hroom Hu]]].
  destruct (inv_room _ HI _ _ Hroom) as [_ [_ Hrne]].
  apply truthy_true in Hrne. rewrite Hrne. simpl.
  unfold receives. apply socket_to_emit_In. exists m.
  split; [reflexivity|]. split; [assumption|].
  destruct (inv_member _ HI _ _ _ _ Hroom Hu) as [_ [_ [_ [_ [rs [Hrs Hin]]]]]].
  eapply in_room_intro; eassumption.
Qed.

(** C7.  Two [code-change] events of connection A.  With A and B members
    of the room named "A", A's [code-change] for that room reaches nobody:
    B, a member other than A, receives no [code-update].  With A and B
    members of "r2" after A has moved there from the room named "A", A's
    [code-change] for "r2" is relayed to B and to A itself. *)
Theorem code_update_misses_member_and_echoes :
  let in_A := Event "A" "code-change" (Some [("roomId", "A"); ("code", "x")]) 4%Z in
  let in_r2 := Event "A" "code-change" (Some [("roomId", "r2"); ("code", "x")]) 4%Z in
  (is_member both_in_room_A "A" "A" = true /\
   is_member both_in_room_A "B" "A" = true /\
   snd (step both_in_room_A in_A) = []) /\
  (is_member moved_from_room_A "A" "r2" = true /\
   is_member moved_from_room_A "B" "r2" = true /\
   snd (step moved_from_room_A in_r2)
   = [ Emit "A" "code-update" (PCodeUpdate (Some "x") None None "A" 4%Z);
       Emit "B" "code-update" (PCodeUpdate (Some "x") None None "A" 4%Z) ] /\
   receives (snd (step moved_from_room_A in_r2)) "A" "code-update"
     (PCodeUpdate (Some "x") None None "A" 4%Z)).
Proof.
  cbv zeta. repeat split; try reflexivity. vm_compute. left. reflexivity.
Qed.

(** C10.  With B the only member of the room named "A" and A connected
    and in no room, A's [code-change] for the room named "A" is relayed to
    nobody: B, the member of the target room, receives no [code-update].
    [socket.to] excepts the sockets of the room named by the sender's id,
    and here that is the target room. *)
Theorem code_change_to_own_id_room_relays_nothing :
  let request :=
    Event "A" "code-change" (Some [("roomId", "A"); ("code", "x")]) 4%Z in
  connected bob_in_room_A "A" = true /\
  is_member bob_in_room_A "A" "A" = false /\
  is_member bob_in_room_A "B" "A" = true /\
  snd (step bob_in_room_A request) = [] /\
  ~ receives_event (snd (step bob_in_room_A request)) "B" "code-update".
Proof.
  cbv zeta. repeat split; try reflexivity. intros [p []].
Qed.

(** C9.  The [disconnect] listener is idempotent.  For a connection that
    is in no room it returns the state unchanged and emits nothing; run a
    second time for the same connection it likewise changes nothing and
    emits nothing, so twice is the same as once; and a second close of the
    same connection is not even dispatched. *)
Theorem disconnect_idempotent (st : State) (socket : string) :
  reachable st ->
  ((forall r, is_member st socket r = false) ->
   disconnect st socket = (st, [])) /\
  disconnect (fst (disconnect st socket)) socket
  = (fst (disconnect st socket), []) /\
  step (fst (step st (Disconnect socket))) (Disconnect socket)
  = (fst (step st (Disconnect socket)), []).
Proof.
  intros Hreach. pose proof (reachable_Inv _ Hreach) as HI.
  assert (Hnone : forall st0, Inv st0 ->
            (forall r, is_member st0 socket r = false) ->
            getRoomForSocket (rooms st0) socket = None).
  { intros st0 HI0 Hnot.
    destruct (getRoomForSocket (rooms st0) socket) as [r|] eqn:E;
      [|reflexivity].
    apply (getRoomForSocket_is_member st0 socket r HI0) in E.
    rewrite Hnot in E. discriminate. }
  split; [|split].
  - intros Hnot. apply disconnect_no_room. now apply Hnone.
  - destruct (disconnect_spec st socket (sessions st) (sids st) HI
                (inv_sids_wf _ HI))
      as [HI1 [Hnot1 _]]; [reflexivity|].
    rewrite with_sids_same in HI1, Hnot1.
    apply disconnect_no_room. now apply Hnone.
  - simpl. destruct (connected st socket) eqn:Hc.
    + set (tbl := JsMap.delete (sids st) socket).
      destruct (disconnect_spec st socket
                  (JsMap.set (sessions st) socket (rooms_of (sids st) socket))
                  tbl HI) as [_ [_ [_ [_ Hsids]]]].
      * apply wf_delete, (inv_sids_wf _ HI).
      * intros k Hk. now apply get_delete_other.
      * unfold connected. rewrite Hsids. unfold JsMap.has, tbl.
        rewrite get_delete_same by apply (inv_sids_wf _ HI). reflexivity.
    + simpl. now rewrite Hc.
Qed.

(* ================================================================== *)
(** * The properties at concrete inputs *)

Ltac pick_in := repeat (first [left; reflexivity | right]).

Lemma disconnect_idempotent_witness :
  (reachable bob_alone /\
   (forall r, is_member bob_alone "A" r = false) /\
   disconnect bob_alone "A" = (bob_alone, [])) /\
  (reachable alice_and_bob /\
   disconnect (fst (disconnect alice_and_bob "A")) "A"
   = (fst (disconnect alice_and_bob "A"), []) /\
   step (fst (step alice_and_bob (Disconnect "A"))) (Disconnect "A")
   = (fst (step alice_and_bob (Disconnect "A")), [])).
Proof.
  assert (h0 : reachable bob_alone) by apply bob_alone_reachable.
  assert (h1 : reachable alice_and_bob) by apply alice_and_bob_reachable.
  assert (h2 : forall r, is_member bob_alone "A" r = false).
  { intros r. unfold is_member.
    change (rooms bob_alone)
      with [("r1", [("B", User.mk "B" "bob" 1%Z "r1")])].
    simpl. destruct (r =? "r1"); reflexivity. }
  split.
  - exact (conj h0 (conj h2
      (proj1 (disconnect_idempotent bob_alone "A" h0) h2))).
  - exact (conj h1 (proj2 (disconnect_idempotent alice_and_bob "A" h1))).
Defined.

(* ================================================================== *)
(** * The lenient server, for comparison

    The specification takes the strict server as the contract.  The
    lenient one shares the no-op of [disconnect] for a connection in no
    room and the membership-blind relay of [code-change]; it does not share
    the validation of the username, the uniqueness of usernames, or the
    implicit leave. *)

Module LenientFacts.

Example lenient_admits_same_username :
  map LenientUser.username (getUsersInRoom (Lenient.rooms lenient_two_bobs) "r1")
  = ["bob"; "bob"].
Proof. reflexivity. Qed.

Example lenient_defaults_missing_username :
  Lenient.join_request
    {| Lenient.rooms := []; Lenient.sids := [("A", ["A"])] |}
    "A" [("roomId", "r1")] 1%Z
  = ({| Lenient.rooms := [("r1", [("A", LenientUser.mk "A" "Anonymous" 1%Z)])];
        Lenient.sids := [("A", ["A"; "r1"])] |},
     [Emit "A" "join-success"
        (PJoinSuccess "r1" [LenientUser.mk "A" "Anonymous" 1%Z])]).
Proof. reflexivity. Qed.

Example lenient_keeps_previous_room :
  let st := fst (Lenient.run Lenient.init
                   [ Connection "A";
                     Event "A" "join-request" (join_data "r1" "alice") 1%Z;
                     Event "A" "join-request" (join_data "r2" "alice") 2%Z ]) in
  JsMap.keys (Lenient.rooms st) = ["r1"; "r2"] /\
  JsMap.keys (Lenient.rooms (fst (Lenient.step st (Disconnect "A")))) = ["r2"].
Proof. split; reflexivity. Qed.

Lemma lenient_disconnect_no_room st s :
  Lenient.getRoomId (Lenient.rooms st) s = None ->
  Lenient.disconnect st s = (st, []).
Proof. intros H. unfold Lenient.disconnect. now rewrite H. Qed.

Lemma lenient_code_change_ignores_directory st rms c d now :
  Lenient.code_change {| Lenient.rooms := rms; Lenient.sids := Lenient.sids st |}
    c d now
  = ({| Lenient.rooms := rms; Lenient.sids := Lenient.sids st |},
     snd (Lenient.code_change st c d now)).
Proof.
  unfold Lenient.code_change. simpl.
  destruct (field d "roomId"); reflexivity.
Qed.

End LenientFacts.

(* ================================================================== *)
(** * Membership before and after a step *)

Lemma has_set {V : Type} (m : JsMap.t V) k v k' :
  JsMap.has (JsMap.set m k v) k' = (k' =? k) || JsMap.has m k'.
Proof.
  unfold JsMap.has. rewrite get_set.
  destruct (String.eqb_spec k' k); reflexivity.
Qed.

Lemma has_delete {V : Type} (m : JsMap.t V) k k' :
  JsMap.wf m ->
  JsMap.has (JsMap.delete m k) k' = JsMap.has m k' && negb (k' =? k).
Proof.
  intros Hwf. unfold JsMap.has.
  destruct (String.eqb_spec k' k) as [->|Hne].
  - rewrite get_delete_same by assumption.
    destruct (JsMap.get m k); reflexivity.
  - rewrite get_delete_other by assumption.
    destruct (JsMap.get m k'); reflexivity.
Qed.

Lemma without_has s room k :
  JsMap.wf room ->
  match without s room with
  | Some room' => JsMap.has room' k
  | None => false
  end = JsMap.has room k && negb (k =? s).
Proof.
  intros Hwf. unfold without.
  destruct (JsMap.has room s) eqn:Hs.
  - destruct (JsMap.size (JsMap.delete room s) =? 0)%nat eqn:Hsz.
    + rewrite <- (has_delete room s k Hwf).
      apply size_zero in Hsz. now rewrite Hsz.
    + now apply has_delete.
  - destruct (String.eqb_spec k s) as [->|Hne].
    + rewrite Hs. reflexivity.
    + now rewrite andb_true_r.
Qed.

Lemma removed_members st s rms k r :
  Inv st ->
  (forall r, JsMap.get rms r =
             match JsMap.get (rooms st) r with
             | Some room => without s room
             | None => None
             end) ->
  match JsMap.get rms r with
  | Some room => JsMap.has room k
  | None => false
  end = is_member st k r && negb (k =? s).
Proof.
  intros HI Hrooms. rewrite Hrooms. unfold is_member.
  destruct (JsMap.get (rooms st) r) as [room|] eqn:Hr; [|reflexivity].
  apply without_has. apply (inv_room _ HI _ _ Hr).
Qed.

Lemma leave_existing_members st s k r :
  Inv st ->
  is_member (fst (leave_existing st s)) k r = is_member st k r && negb (k =? s).
Proof.
  intros HI. destruct (leave_existing_spec st s HI) as [_ [_ [Hrooms _]]].
  unfold is_member at 1. now apply removed_members.
Qed.

Lemma disconnect_members st s ss tbl k r :
  Inv st -> JsMap.wf tbl ->
  (forall k, k <> s -> JsMap.get tbl k = JsMap.get (sids st) k) ->
  is_member (fst (disconnect (with_sids (with_sessions st ss) tbl) s)) k r
  = is_member st k r && negb (k =? s).
Proof.
  intros HI Hwf Htbl.
  destruct (disconnect_spec st s ss tbl HI Hwf Htbl) as [_ [_ [Hrooms _]]].
  unfold is_member at 1. now apply removed_members.
Qed.

Lemma commit_join_members st s Y u now k r :
  is_member (fst (commit_join st s Y u now)) k r
  = ((k =? s) && (r =? Y)) || is_member st k r.
Proof.
  destruct (commit_join_state st s Y u now) as [Hget _].
  unfold is_member at 1. rewrite Hget.
  destruct (String.eqb_spec r Y) as [->|Hne].
  - rewrite has_set, andb_true_r. f_equal.
    unfold is_member, room_or_empty.
    destruct (JsMap.get (rooms st) Y); reflexivity.
  - now rewrite andb_false_r.
Qed.

(** Membership after a join request that takes the commit path. *)
Lemma join_commit_members st s data now Y u k r :
  Inv st ->
  field (or_empty_object data) "roomId" = Some Y ->
  field (or_empty_object data) "username" = Some u ->
  Y <> "" -> u <> "" -> existingUser st s Y u = None ->
  is_member (fst (join_request st s data now)) k r
  = ((k =? s) && (r =? Y)) || (is_member st k r && negb (k =? s)).
Proof.
  intros HI HY Hu HYne Hune Hex.
  rewrite (join_request_commit _ _ _ now _ _ HY Hu HYne Hune Hex). cbn [fst].
  rewrite commit_join_members. now rewrite leave_existing_members.
Qed.

Lemma leave_existing_sids st s :
  Inv st ->
  sids (fst (leave_existing st s)) =
  match getRoomForSocket (rooms st) s with
  | Some X => socket_leave (sids st) s X
  | None => sids st
  end.
Proof.
  intros HI. unfold leave_existing.
  destruct (getRoomForSocket (rooms st) s) as [X|] eqn:EX; [|reflexivity].
  destruct (getRoomForSocket_get _ _ _ (inv_rooms_wf _ HI) EX)
    as [roomX [HX Hhas]].
  destruct (inv_room _ HI _ _ HX) as [_ [_ HXne]].
  apply truthy_true in HXne. rewrite HXne. simpl rooms. rewrite HX.
  destruct (JsMap.size (JsMap.delete roomX s) =? 0)%nat; reflexivity.
Qed.

Lemma disconnect_registry_state st s ss tbl :
  Inv st ->
  userSocketMap (fst (disconnect (with_sids (with_sessions st ss) tbl) s)) =
  match getRoomForSocket (rooms st) s with
  | Some _ => JsMap.delete (userSocketMap st) s
  | None => userSocketMap st
  end.
Proof.
  intros HI. unfold disconnect. simpl rooms.
  destruct (getRoomForSocket (rooms st) s) as [X|] eqn:EX; [|reflexivity].
  destruct (getRoomForSocket_get _ _ _ (inv_rooms_wf _ HI) EX)
    as [roomX [HX Hhas]].
  destruct (inv_room _ HI _ _ HX) as [_ [_ HXne]].
  apply truthy_true in HXne. rewrite HXne, HX.
  apply has_true in Hhas. destruct Hhas as [u Hu]. rewrite Hu.
  destruct (JsMap.size (JsMap.delete roomX s) =? 0)%nat; reflexivity.
Qed.

Lemma removed_keeps st s rms r room k u :
  Inv st ->
  (forall r, JsMap.get rms r =
             match JsMap.get (rooms st) r with
             | Some room => without s room
             | None => None
             end) ->
  JsMap.get (rooms st) r = Some room -> JsMap.get room k = Some u -> k <> s ->
  exists room', JsMap.get rms r = Some room' /\ JsMap.get room' k = Some u.
Proof.
  intros HI Hrooms Hr Hk Hne. rewrite Hrooms, Hr. unfold without.
  destruct (JsMap.has room s); [|eauto].
  assert (Hd : JsMap.get (JsMap.delete room s) k = Some u)
    by now rewrite get_delete_other.
  destruct (JsMap.size (JsMap.delete room s) =? 0)%nat eqn:Hsz; [|eauto].
  apply size_zero in Hsz. rewrite Hsz in Hd. discriminate.
Qed.

Lemma commit_join_keeps st s Y u now r room k v :
  JsMap.get (rooms st) r = Some room -> JsMap.get room k = Some v -> k <> s ->
  exists room', JsMap.get (rooms (fst (commit_join st s Y u now))) r = Some room'
                /\ JsMap.get room' k = Some v.
Proof.
  intros Hr Hk Hne. destruct (commit_join_state st s Y u now) as [Hget _].
  rewrite Hget. destruct (String.eqb_spec r Y) as [->|HrY]; [|eauto].
  eexists. split; [reflexivity|]. rewrite get_set_other by assumption.
  unfold room_or_empty. now rewrite Hr.
Qed.

Lemma Mirrored_init : Mirrored init.
Proof. constructor; simpl; discriminate. Qed.

Lemma join_request_Mirrored st s data now :
  Inv st -> Mirrored st -> connected st s = true ->
  Mirrored (fst (join_request st s data now)).
Proof.
  intros HI HM Hconn.
  destruct (join_request_cases st s data)
    as [Hbad|[Y [u [HY [Hu [HYne [Hune [[eu Hex]|Hex]]]]]]]].
  - now rewrite (join_request_invalid _ _ _ _ Hbad).
  - now rewrite (join_request_conflict _ _ _ _ _ _ _ HY Hu HYne Hune Hex).
  - pose proof (join_commit_members st s data now Y u) as Hmem.
    rewrite (join_request_commit _ _ _ now _ _ HY Hu HYne Hune Hex) in *.
    cbn [fst] in *.
    destruct (leave_existing_spec st s HI)
      as [HI1 [Hnot [Hrooms [Husm1 [Hsids1 Hconn1]]]]].
    pose proof (leave_existing_sids st s HI) as Hsids_s.
    set (st1 := fst (leave_existing st s)) in *.
    destruct (commit_join_state st1 s Y u now) as [Hget [Husm [Htbl _]]].
    constructor.
    intros k v Hv. rewrite Husm, get_set in Hv.
    destruct (String.eqb_spec k s) as [->|Hne].
    + injection Hv as <-. simpl. rewrite Hget, String.eqb_refl.
      eexists. split; [reflexivity|apply get_set_same].
    + rewrite Husm1 in Hv.
      destruct (usm_backed _ HM _ _ Hv) as [room [Hr Hk]].
      destruct (removed_keeps st s (rooms st1) _ _ _ _ HI Hrooms Hr Hk Hne)
        as [room1 [Hr1 Hk1]].
      eapply commit_join_keeps; eassumption.
Qed.

Lemma step_Mirrored st i :
  Inv st -> Mirrored st -> Mirrored (fst (step st i)).
Proof.
  intros HI HM. destruct i as [s|s name data now|s]; simpl.
  - destruct (connected st s) eqn:Hc; [assumption|].
    constructor; simpl. apply (usm_backed _ HM).
  - destruct (connected st s) eqn:Hc; [|assumption].
    destruct (on name) as [h|] eqn:Hon; [|assumption].
    destruct (String.eqb_spec name "join-request") as [->|Hne].
    + injection Hon as <-. now apply join_request_Mirrored.
    + now rewrite (on_keeps_state _ _ Hon Hne).
  - destruct (connected st s) eqn:Hc; [|assumption].
    set (tbl := JsMap.delete (sids st) s).
    assert (Hwft : JsMap.wf tbl) by (apply wf_delete, (inv_sids_wf _ HI)).
    assert (Htbl : forall k, k <> s -> JsMap.get tbl k = JsMap.get (sids st) k).
    { intros k Hk. now apply get_delete_other. }
    destruct (disconnect_spec st s
                (JsMap.set (sessions st) s (rooms_of (sids st) s))
                tbl HI Hwft Htbl)
      as [_ [_ [Hrooms [_ Hsids]]]].
    pose proof (disconnect_registry_state st s
                  (JsMap.set (sessions st) s (rooms_of (sids st) s))
                  tbl HI) as Husm.
    constructor.
    intros k v Hv. rewrite Husm in Hv.
    assert (Hkv : k <> s /\ JsMap.get (userSocketMap st) k = Some v).
    { destruct (getRoomForSocket (rooms st) s) as [X|] eqn:EX.
      - apply get_delete_Some in Hv; [assumption|apply (inv_usm_wf _ HI)].
      - split; [|assumption]. intros ->.
        destruct (usm_backed _ HM _ _ Hv) as [room [Hr Hk]].
        assert (Hh : JsMap.has room s = true) by (apply has_true; eauto).
        rewrite (getRoomForSocket_None _ _ EX _ _ Hr) in Hh. discriminate. }
    destruct Hkv as [Hne Hv0].
    destruct (usm_backed _ HM _ _ Hv0) as [room [Hr Hk]].
    eapply removed_keeps; eassumption.
Qed.

Lemma run_invariants inputs :
  Inv (fst (run init inputs)) /\ Mirrored (fst (run init inputs)).
Proof.
  assert (H : forall st, Inv st -> Mirrored st ->
            Inv (fst (run st inputs)) /\ Mirrored (fst (run st inputs))).
  { induction inputs as [|i rest IH]; intros st HI HM; simpl; [auto|].
    pose proof (step_Inv st i HI) as HI1.
    pose proof (step_Mirrored st i HI HM) as HM1.
    destruct (step st i) as [st1 out1]. simpl in HI1, HM1.
    specialize (IH st1 HI1 HM1). destruct (run st1 rest). exact IH. }
  apply H; [apply Inv_init|apply Mirrored_init].
Qed.

(* ================================================================== *)
(** * Further properties of the strict server *)

(** X1.  After any sequence of inputs, [userSocketMap] and [rooms] hold
    the same memberships: a socket id maps to a user object in the registry
    exactly when some room's member map has that very object under that
    id, and then the room is the one the object names. *)
Theorem registry_mirrors_directory (inputs : list Input) (s : string)
    (u : User.t) :
  let st := fst (run init inputs) in
  (JsMap.get (userSocketMap st) s = Some u <->
   exists r room, JsMap.get (rooms st) r = Some room /\
                  JsMap.get room s = Some u) /\
  (forall r room, JsMap.get (rooms st) r = Some room ->
                  JsMap.get room s = Some u -> User.roomId u = r).
Proof.
  intros st. destruct (run_invariants inputs) as [HI HM]. fold st in HI, HM.
  split; [split|].
  - intros Hu. destruct (usm_backed _ HM _ _ Hu) as [room [Hr Hk]]. eauto.
  - intros [r [room [Hr Hk]]].
    now destruct (inv_member _ HI _ _ _ _ Hr Hk) as [_ [_ [_ [Husm _]]]].
  - intros r room Hr Hk.
    now destruct (inv_member _ HI _ _ _ _ Hr Hk) as [_ [Hroom _]].
Qed.

(** X2.  After any sequence of inputs a connection is a member of at most
    one room, and [getRoomForSocket] returns exactly that room. *)
Theorem one_room_per_connection (inputs : list Input) (s r1 r2 : string) :
  let st := fst (run init inputs) in
  is_member st s r1 = true -> is_member st s r2 = true ->
  r1 = r2 /\ getRoomForSocket (rooms st) s = Some r1.
Proof.
  intros st H1 H2. destruct (run_invariants inputs) as [HI _]. fold st in HI.
  apply (getRoomForSocket_is_member st s r1 HI) in H1.
  apply (getRoomForSocket_is_member st s r2 HI) in H2.
  split; [congruence|assumption].
Qed.

Lemma one_room_per_connection_witness :
  is_member (fst (run init alice_and_bob_inputs)) "A" "r1" = true /\
  is_member (fst (run init alice_and_bob_inputs)) "A" "r1" = true /\
  "r1" = "r1" /\
  getRoomForSocket (rooms (fst (run init alice_and_bob_inputs))) "A" = Some "r1".
Proof.
  assert (h : is_member (fst (run init alice_and_bob_inputs)) "A" "r1" = true)
    by reflexivity.
  exact (conj h (conj h
    (one_room_per_connection alice_and_bob_inputs "A" "r1" "r1" h h))).
Defined.

(** X4.  The room list of the health endpoint, after any sequence of
    inputs, names no room twice and names exactly the rooms that have at
    least one member. *)
Theorem health_lists_live_rooms (inputs : list Input) (r : string) :
  let st := fst (run init inputs) in
  NoDup (health_rooms st) /\
  (In r (health_rooms st) <-> exists s, is_member st s r = true).
Proof.
  intros st. destruct (run_invariants inputs) as [HI _]. fold st in HI.
  split; [apply (inv_rooms_wf _ HI)|]. unfold health_rooms. split.
  - intros Hin. destruct (JsMap.get (rooms st) r) as [room|] eqn:Hr.
    + destruct (inv_room _ HI _ _ Hr) as [_ [Hne _]].
      destruct room as [|[s u] room]; [congruence|].
      exists s. unfold is_member. rewrite Hr. unfold JsMap.has. simpl.
      now rewrite String.eqb_refl.
    + exfalso. eapply get_None_keys; eassumption.
  - intros [s Hm]. apply is_member_true in Hm.
    destruct Hm as [room [u [Hr _]]]. eapply get_In_keys; eassumption.
Qed.

Lemma set_set {V : Type} (m : JsMap.t V) k v v' :
  JsMap.set (JsMap.set m k v) k v' = JsMap.set m k v'.
Proof.
  induction m as [|[k0 v0] m IH]; simpl.
  - now rewrite String.eqb_refl.
  - destruct (String.eqb_spec k k0) as [->|Hne]; simpl.
    + now rewrite String.eqb_refl.
    + destruct (String.eqb_spec k k0); [contradiction|]. now rewrite IH.
Qed.

Lemma set_same {V : Type} (m : JsMap.t V) k v :
  JsMap.get m k = Some v -> JsMap.set m k v = m.
Proof.
  induction m as [|[k0 v0] m IH]; simpl; [discriminate|].
  destruct (String.eqb_spec k k0) as [->|Hne].
  - now intros [= ->].
  - intros H. now rewrite IH.
Qed.

Lemma delete_set_absent {V : Type} (m : JsMap.t V) k v :
  JsMap.get m k = None -> JsMap.delete (JsMap.set m k v) k = m.
Proof.
  induction m as [|[k0 v0] m IH]; simpl.
  - now rewrite String.eqb_refl.
  - destruct (String.eqb_spec k k0) as [->|Hne]; [discriminate|].
    intros H. simpl. destruct (String.eqb_spec k k0); [contradiction|].
    now rewrite IH.
Qed.

Lemma existingUser_self st s Y room user :
  Inv st ->
  JsMap.get (rooms st) Y = Some room -> JsMap.get room s = Some user ->
  existingUser st s Y (User.username user) = None.
Proof.
  intros HI Hr Hs. unfold existingUser. rewrite Hr.
  destruct (find _ (JsMap.values room)) as [x|] eqn:E; [|reflexivity].
  exfalso. apply find_some in E. destruct E as [Hin Hp].
  apply andb_true_iff in Hp. destruct Hp as [Hn Hi].
  apply String.eqb_eq in Hn.
  apply In_values in Hin. destruct Hin as [k Hk].
  apply In_get in Hk; [|apply (inv_room _ HI _ _ Hr)].
  assert (k = s) by (eapply (inv_distinct _ HI); eassumption). subst k.
  destruct (inv_member _ HI _ _ _ _ Hr Hk) as [Hid _].
  rewrite Hid, String.eqb_refl in Hi. discriminate.
Qed.

Lemma join_commit_acknowledged st s data now Y u :
  field (or_empty_object data) "roomId" = Some Y ->
  field (or_empty_object data) "username" = Some u ->
  Y <> "" -> u <> "" -> existingUser st s Y u = None ->
  acknowledged (snd (join_request st s data now)) s Y.
Proof.
  intros HY Hu HYne Hune Hex.
  rewrite (join_request_commit _ _ _ now _ _ HY Hu HYne Hune Hex). cbn [snd].
  rewrite commit_join_effects. cbv zeta. eexists _, _.
  apply in_or_app. right. apply in_or_app. right.
  apply in_or_app. right. left. reflexivity.
Qed.

(** X5.  A member that sends the join request again for its own room and
    username is not stopped by the duplicate scan: the request is
    acknowledged as a success and every connection is a member of exactly
    the rooms it was a member of before. *)
Theorem rejoin_keeps_membership (inputs : list Input) (s Y : string)
    (room : JsMap.t User.t) (user : User.t) (now : Z) :
  let st := fst (run init inputs) in
  JsMap.get (rooms st) Y = Some room ->
  JsMap.get room s = Some user ->
  let res :=
    step st (Event s "join-request" (join_data Y (User.username user)) now) in
  acknowledged (snd res) s Y /\
  (forall k r, is_member (fst res) k r = is_member st k r).
Proof.
  intros st Hr Hs res. subst res.
  destruct (run_invariants inputs) as [HI _]. fold st in HI.
  assert (Hm : is_member st s Y = true) by (apply is_member_true; eauto).
  rewrite (step_join_request _ _ _ _ (is_member_connected _ _ _ HI Hm)).
  destruct (inv_room _ HI _ _ Hr) as [_ [_ HYne]].
  destruct (inv_member _ HI _ _ _ _ Hr Hs) as [_ [_ [Hune _]]].
  pose proof (existingUser_self _ _ _ _ _ HI Hr Hs) as Hex.
  split.
  - now apply (join_commit_acknowledged st s
                 (join_data Y (User.username user)) now Y (User.username user)).
  - intros k r.
    rewrite (join_commit_members st s (join_data Y (User.username user)) now
               Y (User.username user) k r HI eq_refl eq_refl HYne Hune Hex).
    destruct (String.eqb_spec k s) as [->|Hne]; simpl.
    + rewrite andb_false_r, orb_false_r.
      destruct (String.eqb_spec r Y) as [->|HrY]; [now rewrite Hm|].
      destruct (is_member st s r) eqn:E; [|reflexivity].
      exfalso. apply HrY.
      apply (getRoomForSocket_is_member st s r HI) in E.
      apply (getRoomForSocket_is_member st s Y HI) in Hm. congruence.
    + now rewrite andb_true_r.
Qed.

Lemma rejoin_keeps_membership_witness :
  JsMap.get (rooms (fst (run init alice_and_bob_inputs))) "r1"
  = Some [("A", User.mk "A" "alice" 1%Z "r1");
          ("B", User.mk "B" "bob" 2%Z "r1")] /\
  JsMap.get [("A", User.mk "A" "alice" 1%Z "r1");
             ("B", User.mk "B" "bob" 2%Z "r1")] "A"
  = Some (User.mk "A" "alice" 1%Z "r1") /\
  let res :=
    step (fst (run init alice_and_bob_inputs))
      (Event "A" "join-request" (join_data "r1" "alice") 5%Z) in
  acknowledged (snd res) "A" "r1" /\
  (forall k r, is_member (fst res) k r
               = is_member (fst (run init alice_and_bob_inputs)) k r).
Proof.
  assert (h1 : JsMap.get (rooms (fst (run init alice_and_bob_inputs))) "r1"
               = Some [("A", User.mk "A" "alice" 1%Z "r1");
                       ("B", User.mk "B" "bob" 2%Z "r1")]) by reflexivity.
  assert (h2 : JsMap.get [("A", User.mk "A" "alice" 1%Z "r1");
                          ("B", User.mk "B" "bob" 2%Z "r1")] "A"
               = Some (User.mk "A" "alice" 1%Z "r1")) by reflexivity.
  exact (conj h1 (conj h2
    (rejoin_keeps_membership alice_and_bob_inputs "A" "r1" _ _ 5%Z h1 h2))).
Defined.

Lemma step_disconnect st s :
  connected st s = true ->
  step st (Disconnect s)
  = disconnect
      (with_sids
         (with_sessions st (JsMap.set (sessions st) s (rooms_of (sids st) s)))
         (JsMap.delete (sids st) s))
      s.
Proof. intros H. simpl. now rewrite H. Qed.

Lemma commit_join_rooms st s Y u now :
  rooms (fst (commit_join st s Y u now))
  = JsMap.set (rooms st) Y
      (JsMap.set (room_or_empty st Y) s (User.mk s u now Y)).
Proof.
  unfold commit_join, room_or_empty. simpl. unfold JsMap.has.
  destruct (JsMap.get (rooms st) Y) as [room|] eqn:HY; simpl.
  - now rewrite HY.
  - rewrite get_set_same. simpl. apply set_set.
Qed.

Lemma leave_existing_no_room st s :
  getRoomForSocket (rooms st) s = None -> leave_existing st s = (st, []).
Proof. intros H. unfold leave_existing. now rewrite H. Qed.

Lemma not_member_no_room st s :
  Inv st -> (forall r, is_member st s r = false) ->
  getRoomForSocket (rooms st) s = None.
Proof.
  intros HI Hnot.
  destruct (getRoomForSocket (rooms st) s) as [r|] eqn:E; [|reflexivity].
  apply (getRoomForSocket_is_member st s r HI) in E.
  rewrite Hnot in E. discriminate.
Qed.

(** X6.  For a connection that is in no room, a successful join followed
    by the close of the connection is a round trip on the registries:
    [rooms] and [userSocketMap] are exactly what they were before the join,
    order of entries included. *)
Theorem join_then_disconnect_restores (inputs : list Input) (s Y : string)
    (data : option Obj) (now : Z) :
  let st := fst (run init inputs) in
  (forall r, is_member st s r = false) ->
  acknowledged (snd (step st (Event s "join-request" data now))) s Y ->
  let st1 := fst (step st (Event s "join-request" data now)) in
  let st2 := fst (step st1 (Disconnect s)) in
  is_member st1 s Y = true /\
  rooms st2 = rooms st /\
  userSocketMap st2 = userSocketMap st /\
  connected st2 s = false.
Proof.
  intros st Hnot Hack st1 st2. subst st1 st2.
  destruct (run_invariants inputs) as [HI HM]. fold st in HI, HM.
  pose proof (acknowledged_connected _ _ _ _ _ Hack) as Hconn.
  pose proof (step_Inv st (Event s "join-request" data now) HI) as HI1.
  rewrite (step_join_request _ _ _ _ Hconn) in *.
  destruct (acknowledged_commit _ _ _ _ _ Hack)
    as [u [HY [Hu [HYne [Hune Hex]]]]].
  pose proof (not_member_no_room _ _ HI Hnot) as Hnone.
  rewrite (join_request_commit _ _ _ now _ _ HY Hu HYne Hune Hex) in *.
  rewrite (leave_existing_no_room _ _ Hnone) in *. cbn [fst snd] in *.
  set (user := User.mk s u now Y) in *.
  set (st1 := fst (commit_join st s Y u now)) in *.
  destruct (commit_join_state st s Y u now) as [_ [Husm [Hsids _]]].
  fold st1 in Husm, Hsids.
  pose proof (commit_join_rooms st s Y u now) as Hrooms. fold st1 user in Hrooms.
  assert (Hm1 : is_member st1 s Y = true).
  { unfold st1. rewrite commit_join_members.
    now rewrite !String.eqb_refl. }
  split; [exact Hm1|].
  assert (Hroom_s : JsMap.get (room_or_empty st Y) s = None).
  { specialize (Hnot Y). unfold is_member in Hnot. unfold room_or_empty.
    destruct (JsMap.get (rooms st) Y) as [room|]; [|reflexivity].
    now apply has_false. }
  assert (Husm_s : JsMap.get (userSocketMap st) s = None).
  { destruct (JsMap.get (userSocketMap st) s) as [v|] eqn:E; [|reflexivity].
    destruct (usm_backed _ HM _ _ E) as [room [Hr Hk]].
    specialize (Hnot (User.roomId v)). unfold is_member in Hnot.
    rewrite Hr in Hnot. apply has_false in Hnot. congruence. }
  assert (Hconn1 : connected st1 s = true).
  { unfold connected, JsMap.has. rewrite Hsids, socket_join_get, String.eqb_refl.
    unfold connected in Hconn. apply has_true in Hconn.
    destruct Hconn as [rs Hrs]. now rewrite Hrs. }
  rewrite (step_disconnect _ _ Hconn1).
  set (tbl := JsMap.delete (sids st1) s).
  assert (Hget1 : JsMap.get (rooms st1) Y
                  = Some (JsMap.set (room_or_empty st Y) s user)).
  { rewrite Hrooms. apply get_set_same. }
  assert (Hhas1 : JsMap.has (JsMap.set (room_or_empty st Y) s user) s = true).
  { unfold JsMap.has. now rewrite get_set_same. }
  unfold disconnect, with_sids, with_sessions, with_rooms, with_userSocketMap,
    connected.
  cbn [rooms userSocketMap sids sessions].
  rewrite (getRoomForSocket_member _ _ _ _ HI1 Hget1 Hhas1).
  apply truthy_true in HYne. rewrite HYne, Hget1, get_set_same.
  rewrite (delete_set_absent _ _ _ Hroom_s).
  assert (Htbl : JsMap.has tbl s = false).
  { unfold JsMap.has, tbl.
    rewrite get_delete_same by apply (inv_sids_wf _ HI1). reflexivity. }
  rewrite Husm, (delete_set_absent _ _ _ Husm_s), Hrooms.
  unfold room_or_empty in *.
  destruct (JsMap.get (rooms st) Y) as [room|] eqn:HroomY.
  - destruct (inv_room _ HI _ _ HroomY) as [_ [Hne _]].
    destruct (JsMap.size room =? 0)%nat eqn:Hsz;
      [apply size_zero in Hsz; contradiction|].
    simpl. rewrite set_set, (set_same _ _ _ HroomY). auto.
  - simpl. rewrite (delete_set_absent _ _ _ HroomY). auto.
Qed.

Lemma join_then_disconnect_restores_witness :
  (forall r, is_member (fst (run init bob_alone_inputs)) "A" r = false) /\
  acknowledged
    (snd (step (fst (run init bob_alone_inputs))
            (Event "A" "join-request" (join_data "r1" "alice") 2%Z)))
    "A" "r1" /\
  let st1 := fst (step (fst (run init bob_alone_inputs))
                    (Event "A" "join-request" (join_data "r1" "alice") 2%Z)) in
  let st2 := fst (step st1 (Disconnect "A")) in
  is_member st1 "A" "r1" = true /\
  rooms st2 = rooms (fst (run init bob_alone_inputs)) /\
  userSocketMap st2 = userSocketMap (fst (run init bob_alone_inputs)) /\
  connected st2 "A" = false.
Proof.
  assert (h1 : forall r,
             is_member (fst (run init bob_alone_inputs)) "A" r = false).
  { intros r. unfold is_member.
    change (rooms (fst (run init bob_alone_inputs)))
      with [("r1", [("B", User.mk "B" "bob" 1%Z "r1")])].
    simpl. destruct (r =? "r1"); reflexivity. }
  assert (h2 : acknowledged
                 (snd (step (fst (run init bob_alone_inputs))
                         (Event "A" "join-request" (join_data "r1" "alice") 2%Z)))
                 "A" "r1").
  { unfold acknowledged. eexists _, _. cbv. pick_in. }
  exact (conj h1 (conj h2
    (join_then_disconnect_restores bob_alone_inputs "A" "r1"
       (join_data "r1" "alice") 2%Z h1 h2))).
Defined.

(* ================================================================== *)
(** * Who can receive what *)

(** What each listener other than the join handler can emit: the event a
    relay is written for, to sockets of the addressed socket.io room, or
    [error] to the sockets of the room named by the sender's id. *)
Lemma relay_emits name h st s data now e :
  on name = Some h -> name <> "join-request" ->
  In e (snd (h st s data now)) ->
  exists m event p,
    e = Emit m event p /\
    ((event = "error" /\ In m (in_room (sids st) s) /\ name = "code-change") \/
     (exists r, field (or_empty_object data) "roomId" = Some r /\
                In m (in_room (sids st) r) /\
                ((name = "code-change" /\ event = "code-update" /\
                  ~ In m (in_room (sids st) s) /\
                  exists d, data = Some d /\
                    p = PCodeUpdate (field d "code") (field d "cursorPos")
                          (field d "filePath") s now) \/
                 (name = "send-message" /\ event = "receive-message") \/
                 (name = "cursor-move" /\ event = "cursor-move" /\
                  ~ In m (in_room (sids st) s)) \/
                 (name = "file-open" /\ event = "file-opened" /\
                  ~ In m (in_room (sids st) s)) \/
                 (name = "file-content" /\ event = "file-update" /\
                  ~ In m (in_room (sids st) s)) \/
                 (name = "file-save" /\ event = "file-saved")))).
Proof.
  unfold on. intros Hon Hname Hin.
  destruct (String.eqb_spec name "join-request"); [contradiction|].
  destruct (String.eqb_spec name "code-change") as [->|];
    [|destruct (String.eqb_spec name "send-message") as [->|];
      [|destruct (String.eqb_spec name "cursor-move") as [->|];
        [|destruct (String.eqb_spec name "file-open") as [->|];
          [|destruct (String.eqb_spec name "file-content") as [->|];
            [|destruct (String.eqb_spec name "file-save") as [->|];
              [|destruct (name =? "connect_error");
                [|destruct (name =? "error"); [|discriminate]]]]]]]];
    injection Hon as <-; try (simpl in Hin; contradiction);
    unfold destructured in Hin; destruct data as [d|];
    try (simpl in Hin; contradiction);
    unfold code_change, send_message, cursor_move, file_open, file_content,
      file_save in Hin;
    simpl or_empty_object;
    destruct (field d "roomId") as [r|] eqn:Hr;
    try (simpl in Hin; contradiction).
  - destruct (truthy r); cbn [snd] in Hin.
    + apply socket_to_emit_In in Hin. destruct Hin as [m [-> [Hne Hm]]].
      exists m, "code-update". eexists. split; [reflexivity|]. right.
      exists r. split; [reflexivity|]. split; [assumption|]. left.
      repeat split; eauto.
    + apply socket_emit_In in Hin. destruct Hin as [m [-> Hm]].
      exists m, "error". eexists. split; [reflexivity|]. left. auto.
  - cbn [snd] in Hin. apply socket_emit_In in Hin. destruct Hin as [m [-> Hm]].
    exists m, "error". eexists. split; [reflexivity|]. left. auto.
  - cbn [snd] in Hin. apply io_to_emit_In in Hin. destruct Hin as [m [-> Hm]].
    exists m, "receive-message". eexists. split; [reflexivity|]. right.
    exists r. split; [reflexivity|]. split; [assumption|]. right. left. auto.
  - cbn [snd] in Hin. apply socket_to_emit_In in Hin.
    destruct Hin as [m [-> [Hne Hm]]].
    exists m, "cursor-move". eexists. split; [reflexivity|]. right.
    exists r. split; [reflexivity|]. split; [assumption|].
    right. right. left. auto.
  - cbn [snd] in Hin. apply socket_to_emit_In in Hin.
    destruct Hin as [m [-> [Hne Hm]]].
    exists m, "file-opened". eexists. split; [reflexivity|]. right.
    exists r. split; [reflexivity|]. split; [assumption|].
    right. right. right. left. auto.
  - cbn [snd] in Hin. apply socket_to_emit_In in Hin.
    destruct Hin as [m [-> [Hne Hm]]].
    exists m, "file-update". eexists. split; [reflexivity|]. right.
    exists r. split; [reflexivity|]. split; [assumption|].
    right. right. right. right. left. auto.
  - cbn [snd] in Hin. apply io_to_emit_In in Hin. destruct Hin as [m [-> Hm]].
    exists m, "file-saved". eexists. split; [reflexivity|]. right.
    exists r. split; [reflexivity|]. split; [assumption|].
    right. right. right. right. right. auto.
Qed.

Lemma relay_event_cases name h st s data now m event p :
  on name = Some h -> name <> "join-request" ->
  In (Emit m event p) (snd (h st s data now)) ->
  In event ["error"; "code-update"; "receive-message"; "cursor-move";
            "file-opened"; "file-update"; "file-saved"].
Proof.
  intros Hon Hne Hin.
  destruct (relay_emits _ _ _ _ _ _ _ Hon Hne Hin)
    as [m' [ev [p' [E [[-> _]|[r [_ [_ H]]]]]]]]; injection E as -> -> ->.
  - simpl; auto.
  - destruct H as [[_ [-> _]]|[[_ ->]|[[_ [-> _]]|[[_ [-> _]]|[[_ [-> _]]|[_ ->]]]]]];
      simpl; auto 10.
Qed.

(** What the join handler can emit.  [join-accepted] carries the id of the
    requester and the truthy [username] and [roomId] of the request. *)
Lemma join_request_emits st s data now m event p :
  In (Emit m event p) (snd (join_request st s data now)) ->
  (event = "username_exists" /\ In m (in_room (sids st) s)) \/
  (event = "user-left" /\ In (Emit m event p) (snd (leave_existing st s))) \/
  (event = "join-accepted" /\
   exists u Y users, p = PJoinAccepted s u Y users /\ u <> "" /\ Y <> "") \/
  event = "user-joined".
Proof.
  intros Hin.
  destruct (join_request_cases st s data)
    as [Hbad|[Y [u [HY [Hu [HYne [Hune [[eu Hex]|Hex]]]]]]]].
  - rewrite (join_request_invalid _ _ _ _ Hbad) in Hin.
    destruct Hin as [E|[]]. discriminate.
  - rewrite (join_request_conflict _ _ _ _ _ _ _ HY Hu HYne Hune Hex) in Hin.
    cbn [snd] in Hin. apply in_app_or in Hin.
    destruct Hin as [Hin|[E|[]]]; [|discriminate].
    apply socket_emit_In in Hin. destruct Hin as [m' [E Hm]].
    injection E as E1 E2 E3. subst m' event p. auto.
  - rewrite (join_request_commit _ _ _ _ _ _ HY Hu HYne Hune Hex) in Hin.
    cbn [snd] in Hin. apply in_app_or in Hin. destruct Hin as [Hin|Hin].
    + destruct (leave_existing_only_emits _ _ _ Hin) as [m' [p' E]].
      injection E as E1 E2 E3. subst m' event p'. auto.
    + rewrite commit_join_effects in Hin. cbv zeta in Hin.
      apply in_app_or in Hin. destruct Hin as [Hin|Hin].
      * apply socket_emit_In in Hin. destruct Hin as [m' [E Hm]].
        injection E as E1 E2 E3. subst m' event p.
        right. right. left. split; [reflexivity|]. eauto 6.
      * apply in_app_or in Hin. destruct Hin as [Hin|[E|[]]]; [|discriminate].
        apply socket_to_emit_In in Hin. destruct Hin as [m' [E _]].
        injection E as E1 E2 E3. subst m' event p. auto.
Qed.

Lemma disconnect_emits st s e :
  In e (snd (disconnect st s)) ->
  exists m u, e = Emit m "user-left" (PUserLeft s (Some u)).
Proof.
  unfold disconnect.
  destruct (getRoomForSocket (rooms st) s) as [X|]; [|simpl; tauto].
  destruct (truthy X); [|simpl; tauto].
  destruct (JsMap.get (rooms st) X) as [room|]; [|simpl; tauto].
  destruct (JsMap.get room s) as [u|]; [|simpl; tauto].
  destruct (JsMap.size (JsMap.delete room s) =? 0)%nat; [simpl; tauto|].
  simpl. intros H. apply io_to_emit_In in H. destruct H as [m [-> _]]. eauto.
Qed.

(** X9.  A chat message is relayed with [io.to]: after any sequence of
    inputs, every member of the addressed room, the sender included when
    it is a member, receives [receive-message] with the [username] and
    [text] of the request as they were sent. *)
Theorem send_message_reaches_whole_room (inputs : list Input) (s r m : string)
    (d : Obj) (now : Z) :
  let st := fst (run init inputs) in
  connected st s = true ->
  field d "roomId" = Some r ->
  is_member st m r = true ->
  receives (snd (step st (Event s "send-message" (Some d) now))) m
    "receive-message" (PReceiveMessage (field d "username") (field d "text")).
Proof.
  intros st Hc Hr Hm. destruct (run_invariants inputs) as [HI _].
  fold st in HI. simpl. rewrite Hc. unfold send_message. rewrite Hr.
  simpl. unfold receives. apply io_to_emit_In. exists m.
  split; [reflexivity|].
  apply is_member_true in Hm. destruct Hm as [room [u [Hroom Hu]]].
  destruct (inv_member _ HI _ _ _ _ Hroom Hu) as [_ [_ [_ [_ [rs [Hrs Hin]]]]]].
  eapply in_room_intro; eassumption.
Qed.

Lemma send_message_reaches_whole_room_witness :
  connected (fst (run init alice_and_bob_inputs)) "A" = true /\
  field chat_data "roomId" = Some "r1" /\
  is_member (fst (run init alice_and_bob_inputs)) "A" "r1" = true /\
  receives
    (snd (step (fst (run init alice_and_bob_inputs))
            (Event "A" "send-message" (Some chat_data) 3%Z)))
    "A" "receive-message"
    (PReceiveMessage (field chat_data "username") (field chat_data "text")).
Proof.
  assert (h1 : connected (fst (run init alice_and_bob_inputs)) "A" = true)
    by reflexivity.
  assert (h2 : field chat_data "roomId" = Some "r1") by reflexivity.
  assert (h3 : is_member (fst (run init alice_and_bob_inputs)) "A" "r1" = true)
    by reflexivity.
  exact (conj h1 (conj h2 (conj h3
    (send_message_reaches_whole_room alice_and_bob_inputs "A" "r1" "A"
       chat_data 3%Z h1 h2 h3)))).
Defined.

(** X10.  A sender whose socket is in the socket.io room named by its own
    id, where the connection put it, gets no echo from the listeners
    written with [socket.to]: if handling an event sends anything back to
    the connection that sent it, the event is a join request, a chat
    message, a file save, or a [code-change] answered with [error]. *)
Theorem relays_never_echo (st : State) (s name : string) (data : option Obj)
    (now : Z) (event : string) (p : Payload) :
  In s (in_room (sids st) s) ->
  In (Emit s event p) (snd (step st (Event s name data now))) ->
  name = "join-request" \/ name = "send-message" \/ name = "file-save" \/
  (name = "code-change" /\ event = "error").
Proof.
  intros Hown. simpl. destruct (connected st s); [|intros []].
  destruct (on name) as [h|] eqn:Hon; [|intros []].
  destruct (String.eqb_spec name "join-request") as [->|Hne]; [auto|].
  intros Hin.
  destruct (relay_emits _ _ _ _ _ _ _ Hon Hne Hin) as [m' [ev [p' [E Hc]]]].
  injection E as Em Eev Ep. subst m' ev p'.
  destruct Hc as [[-> [_ ->]]|[r [_ [_ H]]]]; [auto|].
  destruct H as [[_ [_ [Hn _]]]
                |[[-> _]|[[_ [_ Hn]]|[[_ [_ Hn]]|[[_ [_ Hn]]|[-> _]]]]]];
    auto; contradiction.
Qed.

Lemma relays_never_echo_witness :
  In "A" (in_room (sids alice_and_bob) "A") /\
  In (Emit "A" "error" (PMessage "Room ID is required"))
     (snd (step alice_and_bob
             (Event "A" "code-change" (Some [("code", "x")]) 3%Z))) /\
  ("code-change" = "join-request" \/ "code-change" = "send-message" \/
   "code-change" = "file-save" \/
   ("code-change" = "code-change" /\ "error" = "error")).
Proof.
  assert (h0 : In "A" (in_room (sids alice_and_bob) "A")).
  { vm_compute. left. reflexivity. }
  assert (h : In (Emit "A" "error" (PMessage "Room ID is required"))
                 (snd (step alice_and_bob
                         (Event "A" "code-change" (Some [("code", "x")]) 3%Z)))).
  { vm_compute. left. reflexivity. }
  exact (conj h0 (conj h (relays_never_echo alice_and_bob "A" "code-change" _
                            3%Z "error" _ h0 h))).
Defined.

Lemma join_conflict_rejected_witness :
  reachable bob_alone /\
  connected bob_alone "A" = true /\
  field (or_empty_object (join_data "r1" "bob")) "roomId" = Some "r1" /\
  field (or_empty_object (join_data "r1" "bob")) "username" = Some "bob" /\
  JsMap.get (rooms bob_alone) "r1" = Some [("B", User.mk "B" "bob" 1%Z "r1")] /\
  JsMap.get [("B", User.mk "B" "bob" 1%Z "r1")] "B"
  = Some (User.mk "B" "bob" 1%Z "r1") /\
  User.username (User.mk "B" "bob" 1%Z "r1") = "bob" /\
  "B" <> "A" /\
  let out :=
    snd (step bob_alone (Event "A" "join-request" (join_data "r1" "bob") 2%Z)) in
  fst (step bob_alone (Event "A" "join-request" (join_data "r1" "bob") 2%Z))
  = bob_alone /\
  (forall k a, In (Callback k a) out <->
               k = "A" /\ a = AckError (conflict_message "bob")) /\
  (forall k event p, In (Emit k event p) out <->
                     event = "username_exists" /\
                     p = PError (conflict_message "bob") /\
                     In k (in_room (sids bob_alone) "A")) /\
  (own_room (sids bob_alone) "A" ->
   out = [Emit "A" "username_exists" (PError (conflict_message "bob"));
          Callback "A" (AckError (conflict_message "bob"))]).
Proof.
  assert (h1 : reachable bob_alone) by apply bob_alone_reachable.
  assert (h2 : connected bob_alone "A" = true) by reflexivity.
  assert (h3 : field (or_empty_object (join_data "r1" "bob")) "roomId"
               = Some "r1") by reflexivity.
  assert (h4 : field (or_empty_object (join_data "r1" "bob")) "username"
               = Some "bob") by reflexivity.
  assert (h5 : JsMap.get (rooms bob_alone) "r1"
               = Some [("B", User.mk "B" "bob" 1%Z "r1")]) by reflexivity.
  assert (h6 : JsMap.get [("B", User.mk "B" "bob" 1%Z "r1")] "B"
               = Some (User.mk "B" "bob" 1%Z "r1")) by reflexivity.
  assert (h7 : User.username (User.mk "B" "bob" 1%Z "r1") = "bob")
    by reflexivity.
  assert (h8 : "B" <> "A") by discriminate.
  exact (conj h1 (conj h2 (conj h3 (conj h4 (conj h5 (conj h6 (conj h7
    (conj h8
       (join_conflict_rejected bob_alone "A" "r1" "bob" "B" _ _
          (join_data "r1" "bob") 2%Z h1 h2 h3 h4 h5 h6 h7 h8))))))))).
Defined.

Lemma step_emits st i m event p :
  In (Emit m event p) (snd (step st i)) -> In event server_events.
Proof.
  destruct i as [s|s name data now|s]; simpl.
  - destruct (connected st s); intros [].
  - destruct (connected st s); [|intros []].
    destruct (on name) as [h|] eqn:Hon; [|intros []].
    destruct (String.eqb_spec name "join-request") as [->|Hne].
    + injection Hon as <-. intros Hin. apply join_request_emits in Hin.
      destruct Hin as [[-> _]|[[-> _]|[[-> _]| ->]]]; simpl; auto 12.
    + intros Hin. pose proof (relay_event_cases _ _ _ _ _ _ _ _ _ Hon Hne Hin) as H.
      simpl in H. unfold server_events. simpl.
      intuition (subst; auto 12).
  - destruct (connected st s); [|intros []].
    intros Hin. apply disconnect_emits in Hin. destruct Hin as [m' [u E]].
    injection E as _ <- _. simpl; auto.
Qed.

(** X12.  Whatever the state and the input, an event the strict server
    emits carries one of eleven names.  None of them is a name [Editor] or
    [EditorPage] listens to.  In [SocketProvider] every one of them runs
    the catch-all [handleIncomingEvent], which writes it to the console,
    and besides that [join-accepted] runs [handleJoiningAccept] and
    [code-update] runs [handleCodeUpdate]; the other nine ([user-joined],
    [user-left], [username_exists], [error] and the relays of chat, cursor
    and file activity) run no handler registered by name. *)
Theorem client_hears_two_events (st : State) (i : Input) (m event : string)
    (p : Payload) :
  In (Emit m event p) (snd (step st i)) ->
  In event server_events /\
  ~ In event editor_listeners /\
  handlers_run event =
  "handleIncomingEvent"
  :: (if event =? "join-accepted" then ["handleJoiningAccept"]
      else if event =? "code-update" then ["handleCodeUpdate"]
      else []).
Proof.
  intros Hin. pose proof (step_emits _ _ _ _ _ Hin) as Hev.
  split; [assumption|].
  unfold server_events in Hev. simpl in Hev.
  repeat (destruct Hev as [<-|Hev];
          [split; [simpl; intuition discriminate|reflexivity]|]).
  destruct Hev.
Qed.

Lemma client_hears_two_events_witness :
  In (Emit "B" "code-update"
        (PCodeUpdate (field code_data "code") (field code_data "cursorPos")
           (field code_data "filePath") "A" 3%Z))
     (snd (step alice_and_bob (Event "A" "code-change" (Some code_data) 3%Z)))
  /\ In "code-update" server_events /\
  ~ In "code-update" editor_listeners /\
  handlers_run "code-update" =
  "handleIncomingEvent"
  :: (if "code-update" =? "join-accepted" then ["handleJoiningAccept"]
      else if "code-update" =? "code-update" then ["handleCodeUpdate"]
      else []).
Proof.
  assert (h : In (Emit "B" "code-update"
                    (PCodeUpdate (field code_data "code")
                       (field code_data "cursorPos")
                       (field code_data "filePath") "A" 3%Z))
                 (snd (step alice_and_bob
                         (Event "A" "code-change" (Some code_data) 3%Z)))).
  { vm_compute. left. reflexivity. }
  exact (conj h (client_hears_two_events alice_and_bob _ "B" "code-update" _ h)).
Defined.

(* ================================================================== *)
(** * The CORS origin check *)

Lemma prefix_app (p tail : string) : String.prefix p (String.append p tail) = true.
Proof.
  induction p as [|c p IH]; simpl.
  - destruct tail; reflexivity.
  - destruct (Ascii.ascii_dec c c) as [_|N]; [exact IH|congruence].
Qed.

Lemma dots_then_first (suffix s : string) :
  Cors.dots_then suffix s = true ->
  s = suffix \/ exists rest, s = String "."%char rest.
Proof.
  destruct s as [|c rest]; simpl.
  - rewrite orb_false_r. intros H. left. now apply String.eqb_eq.
  - intros H. apply orb_true_iff in H. destruct H as [H|H].
    + left. now apply String.eqb_eq.
    + apply andb_true_iff in H. destruct H as [Hc _].
      apply Ascii.eqb_eq in Hc. subst. right. eauto.
Qed.

(** X13.  The origin check compares by prefix: whatever the environment,
    an origin that merely begins with one of the three built-in localhost
    strings or with the configured frontend URL is admitted, whatever
    follows that prefix. *)
Theorem cors_admits_any_extension (env : Cors.Env) (p tail : string) :
  In p [ "http://localhost:5173"; "http://localhost:5174";
         "https://localhost:5173"; Cors.FRONTEND_URL env ] ->
  Cors.origin_allowed env (Some (String.append p tail)) = true.
Proof.
  intros Hin. unfold Cors.origin_allowed.
  apply orb_true_iff. right. apply orb_true_iff. right.
  apply existsb_exists. exists (Cors.Str p). split.
  - unfold Cors.allowedOrigins. apply filter_In. split.
    + simpl in Hin. simpl. intuition (subst; auto 10).
    + simpl. simpl in Hin.
      destruct Hin as [<-|[<-|[<-|[<-|[]]]]]; try reflexivity.
      unfold Cors.FRONTEND_URL, Cors.env_or.
      destruct (Cors.FRONTEND_URL_var env) as [s|]; [|reflexivity].
      destruct (truthy s) eqn:E; [assumption|reflexivity].
  - simpl. apply prefix_app.
Qed.

Lemma cors_admits_any_extension_witness :
  In "http://localhost:5173"
     [ "http://localhost:5173"; "http://localhost:5174";
       "https://localhost:5173"; Cors.FRONTEND_URL production_env ] /\
  Cors.origin_allowed production_env
    (Some (String.append "http://localhost:5173" ".attacker.example")) = true.
Proof.
  assert (h : In "http://localhost:5173"
                 [ "http://localhost:5173"; "http://localhost:5174";
                   "https://localhost:5173"; Cors.FRONTEND_URL production_env ])
    by (left; reflexivity).
  exact (conj h (cors_admits_any_extension production_env
                   "http://localhost:5173" ".attacker.example" h)).
Defined.

(** X14.  Outside development mode the two Vercel patterns admit nothing
    a browser sends: an origin that does not begin with a dot is admitted
    only if it begins with one of the non-empty string entries.  In
    particular an origin [https://<app>.vercel.app] is refused unless a
    string entry is its prefix. *)
Theorem cors_patterns_need_leading_dot (env : Cors.Env) (c : Ascii.ascii)
    (rest : string) :
  Cors.NODE_ENV env <> "development" ->
  c <> "."%char ->
  Cors.origin_allowed env (Some (String c rest)) = true ->
  exists p,
    In p [ "http://localhost:5173"; "http://localhost:5174";
           "https://localhost:5173"; Cors.FRONTEND_URL env;
           Cors.RENDER_URL env ] /\
    p <> "" /\ String.prefix p (String c rest) = true.
Proof.
  intros Hdev Hc H. unfold Cors.origin_allowed in H.
  destruct (String.eqb_spec (Cors.NODE_ENV env) "development");
    [contradiction|].
  change (truthy (String c rest)) with true in H. cbn [orb negb] in H.
  apply existsb_exists in H. destruct H as [r [Hin Hr]].
  unfold Cors.allowedOrigins in Hin. apply filter_In in Hin.
  destruct Hin as [Hin Ht]. destruct r as [p|suffix].
  - exists p. simpl in Ht. apply truthy_true in Ht.
    split; [|split; assumption].
    simpl in Hin. simpl. intuition congruence.
  - exfalso. cbn [Cors.rule_admits] in Hr.
    assert (Hs : suffix = ".vercel.app" \/ suffix = ".vercel.dev").
    { simpl in Hin. intuition congruence. }
    apply dots_then_first in Hr. destruct Hr as [E|[rest' E]].
    + destruct Hs as [-> | ->]; injection E as -> _; now apply Hc.
    + injection E as -> _. now apply Hc.
Qed.

Lemma cors_patterns_need_leading_dot_witness :
  Cors.NODE_ENV production_env <> "development" /\
  "h"%char <> "."%char /\
  Cors.origin_allowed production_env
    (Some (String "h" "ttps://codeinsync.example")) = true /\
  exists p,
    In p [ "http://localhost:5173"; "http://localhost:5174";
           "https://localhost:5173"; Cors.FRONTEND_URL production_env;
           Cors.RENDER_URL production_env ] /\
    p <> "" /\ String.prefix p (String "h" "ttps://codeinsync.example") = true.
Proof.
  assert (h1 : Cors.NODE_ENV production_env <> "development") by discriminate.
  assert (h2 : "h"%char <> "."%char) by discriminate.
  assert (h3 : Cors.origin_allowed production_env
                 (Some (String "h" "ttps://codeinsync.example")) = true)
    by reflexivity.
  exact (conj h1 (conj h2 (conj h3
    (cors_patterns_need_leading_dot production_env "h"
       "ttps://codeinsync.example" h1 h2 h3)))).
Defined.

Example vercel_preview_refused :
  Cors.origin_allowed production_env (Some "https://my-app.vercel.app") = false.
Proof. reflexivity. Qed.

(* ================================================================== *)
(** * Properties of the lenient server *)

Lemma In_delete_incl {V : Type} (m : JsMap.t V) k x :
  In x (JsMap.delete m k) -> In x m.
Proof.
  induction m as [|[k0 v0] m IH]; simpl; [tauto|].
  destruct (k =? k0); simpl; intuition.
Qed.

Lemma In_set_inv {V : Type} (m : JsMap.t V) k v x :
  In x (JsMap.set m k v) -> x = (k, v) \/ In x m.
Proof.
  induction m as [|[k0 v0] m IH]; simpl.
  - intuition.
  - destruct (String.eqb_spec k k0) as [->|Hne]; simpl; intuition.
Qed.

Lemma lenient_join_rooms st s d now r :
  field d "roomId" = Some r -> r <> "" ->
  Lenient.rooms (fst (Lenient.join_request st s d now))
  = JsMap.set (Lenient.rooms st) r
      (JsMap.set (match JsMap.get (Lenient.rooms st) r with
                  | Some room => room
                  | None => []
                  end) s
         (LenientUser.mk s (Lenient.or_anonymous (field d "username")) now)).
Proof.
  intros Hr Hne. unfold Lenient.join_request. rewrite Hr.
  apply truthy_true in Hne. rewrite Hne. simpl. unfold JsMap.has.
  destruct (JsMap.get (Lenient.rooms st) r) as [room|] eqn:E.
  - now rewrite E.
  - rewrite get_set_same. apply set_set.
Qed.

Lemma lenient_join_keeps_state st s d now :
  (field d "roomId" = None \/ field d "roomId" = Some "") ->
  fst (Lenient.join_request st s d now) = st.
Proof.
  unfold Lenient.join_request. intros [-> | ->]; reflexivity.
Qed.

Lemma lenient_step_nonempty st i :
  lenient_rooms_nonempty st -> lenient_rooms_nonempty (fst (Lenient.step st i)).
Proof.
  unfold lenient_rooms_nonempty. rewrite !Forall_forall. intros H.
  destruct i as [s|s name data now|s]; simpl.
  - destruct (JsMap.has (Lenient.sids st) s); exact H.
  - destruct (JsMap.has (Lenient.sids st) s); [|exact H].
    unfold Lenient.on.
    destruct (name =? "join-request").
    + destruct data as [d|]; [|exact H].
      destruct (field d "roomId") as [r|] eqn:Hr;
        [|rewrite lenient_join_keeps_state by auto; exact H].
      destruct (String.eqb_spec r "") as [->|Hne];
        [rewrite lenient_join_keeps_state by auto; exact H|].
      rewrite (lenient_join_rooms _ _ _ _ _ Hr Hne).
      intros x Hx. apply In_set_inv in Hx. destruct Hx as [->|Hx]; [|auto].
      simpl. apply set_not_nil.
    + destruct (name =? "code-change").
      * destruct data as [d|]; [|exact H].
        unfold Lenient.code_change. destruct (field d "roomId"); exact H.
      * destruct (name =? "ping"); [destruct data|]; exact H.
  - destruct (JsMap.has (Lenient.sids st) s); [|exact H].
    unfold Lenient.disconnect. simpl.
    destruct (Lenient.getRoomId (Lenient.rooms st) s) as [r|]; [|exact H].
    destruct (truthy r); [|exact H].
    destruct (JsMap.get (Lenient.rooms st) r) as [room|]; [|exact H].
    destruct (JsMap.size (JsMap.delete room s) =? 0)%nat eqn:Hsz; simpl.
    + intros x Hx. apply In_delete_incl in Hx. auto.
    + intros x Hx. apply In_set_inv in Hx. destruct Hx as [->|Hx]; [|auto].
      simpl. intros E. rewrite E in Hsz. discriminate.
Qed.

(** X15.  The lenient server, too, never keeps an empty room: after any
    sequence of inputs every entry of its [rooms] has at least one
    member. *)
Theorem lenient_rooms_never_empty (inputs : list Input) :
  Forall (fun e => snd e <> [])
         (Lenient.rooms (fst (Lenient.run Lenient.init inputs))).
Proof.
  assert (H : forall st, lenient_rooms_nonempty st ->
                         lenient_rooms_nonempty (fst (Lenient.run st inputs))).
  { induction inputs as [|i rest IH]; intros st Hst; simpl; [assumption|].
    pose proof (lenient_step_nonempty st i Hst) as H1.
    destruct (Lenient.step st i) as [st1 out1]. simpl in H1.
    specialize (IH st1 H1). destruct (Lenient.run st1 rest). exact IH. }
  apply H. constructor.
Qed.

(** X16.  The lenient join handler, given a truthy [roomId], always admits
    the requester, under the username it sent or "Anonymous" and never
    under an empty one, and takes nobody out of any room: every membership
    that held before, the requester's membership of another room included,
    still holds. *)
Theorem lenient_join_only_adds (st : Lenient.State) (s r : string) (d : Obj)
    (now : Z) :
  field d "roomId" = Some r -> r <> "" ->
  let st' := fst (Lenient.join_request st s d now) in
  (exists room user,
      JsMap.get (Lenient.rooms st') r = Some room /\
      JsMap.get room s = Some user /\
      LenientUser.username user = Lenient.or_anonymous (field d "username") /\
      LenientUser.username user <> "") /\
  (forall m r', lenient_is_member st m r' = true ->
                lenient_is_member st' m r' = true).
Proof.
  intros Hr Hne st'. subst st'.
  pose proof (lenient_join_rooms st s d now r Hr Hne) as Hrooms. split.
  - eexists _, _. rewrite Hrooms. split; [apply get_set_same|].
    split; [apply get_set_same|]. split; [reflexivity|]. simpl.
    unfold Lenient.or_anonymous. destruct (field d "username") as [u|];
      [|discriminate].
    destruct (truthy u) eqn:E; [now apply truthy_true|discriminate].
  - intros m r' Hm. unfold lenient_is_member in *. rewrite Hrooms, get_set.
    destruct (String.eqb_spec r' r) as [->|Hrr]; [|exact Hm].
    rewrite has_set. destruct (JsMap.get (Lenient.rooms st) r);
      [|discriminate].
    rewrite Hm. apply orb_true_r.
Qed.

Lemma lenient_join_only_adds_witness :
  field [("roomId", "r2")] "roomId" = Some "r2" /\
  "r2" <> "" /\
  let st' := fst (Lenient.join_request lenient_two_bobs "A"
                    [("roomId", "r2")] 3%Z) in
  (exists room user,
      JsMap.get (Lenient.rooms st') "r2" = Some room /\
      JsMap.get room "A" = Some user /\
      LenientUser.username user
      = Lenient.or_anonymous (field [("roomId", "r2")] "username") /\
      LenientUser.username user <> "") /\
  (forall m r', lenient_is_member lenient_two_bobs m r' = true ->
                lenient_is_member st' m r' = true).
Proof.
  assert (h1 : field [("roomId", "r2")] "roomId" = Some "r2") by reflexivity.
  assert (h2 : "r2" <> "") by discriminate.
  exact (conj h1 (conj h2
    (lenient_join_only_adds lenient_two_bobs "A" "r2" [("roomId", "r2")] 3%Z
       h1 h2))).
Defined.

(* ================================================================== *)
(** * Client handlers against the server *)

Lemma filter_out_one {A : Type} (f : A -> string) (a : string) (l : list A) :
  NoDup (map f l) -> In a (map f l) ->
  List.length (filter (fun u => negb (f u =? a)) l) + 1 = List.length l.
Proof.
  induction l as [|x l IH]; simpl; [tauto|].
  intros Hnd Hin. inversion Hnd as [|? ? Hnotin Hnd']; subst.
  destruct (String.eqb_spec (f x) a) as [E|Hne]; simpl.
  - assert (Hall : filter (fun u => negb (f u =? a)) l = l).
    { apply forallb_filter_id. apply forallb_forall. intros y Hy.
      destruct (String.eqb_spec (f y) a) as [Ey|]; [|reflexivity].
      exfalso. apply Hnotin. rewrite E, <- Ey. now apply in_map. }
    rewrite Hall. lia.
  - destruct Hin as [|Hin]; [contradiction|].
    specialize (IH Hnd' Hin). lia.
Qed.

Lemma snapshot_usernames_NoDup inputs r :
  NoDup (map User.username (getUsersInRoom (rooms (fst (run init inputs))) r)).
Proof.
  destruct (run_invariants inputs) as [HI _].
  unfold getUsersInRoom.
  destruct (JsMap.get (rooms (fst (run init inputs))) r) as [room|] eqn:Hr;
    [|constructor].
  apply NoDup_map_values; [apply (inv_room _ HI _ _ Hr)|].
  intros k1 k2 u1 u2. apply (inv_distinct _ HI _ _ _ _ _ _ Hr).
Qed.

(** X17.  [handleUserLeft] removes by username.  Applied to a user list
    the strict server can send (the snapshot of a room after any sequence
    of inputs) and to a user carrying the username of one of its entries,
    it removes exactly one entry, and what is left are the users with
    another username. *)
Theorem handleUserLeft_removes_one (inputs : list Input) (r : string)
    (gone : User.t) :
  let users := getUsersInRoom (rooms (fst (run init inputs))) r in
  In (User.username gone) (map User.username users) ->
  List.length (Client.handleUserLeft (Some gone) users) + 1 = List.length users /\
  (forall u, In u (Client.handleUserLeft (Some gone) users) <->
             In u users /\ User.username u <> User.username gone).
Proof.
  intros users Hin. split.
  - unfold Client.handleUserLeft.
    apply (filter_out_one User.username); [|assumption].
    apply snapshot_usernames_NoDup.
  - intros u. unfold Client.handleUserLeft. rewrite filter_In.
    destruct (String.eqb_spec (User.username u) (User.username gone));
      simpl; intuition congruence.
Qed.

Lemma handleUserLeft_removes_one_witness :
  let users :=
    getUsersInRoom (rooms (fst (run init alice_and_bob_inputs))) "r1" in
  In (User.username (User.mk "A" "alice" 0%Z ""))
     (map User.username users) /\
  List.length (Client.handleUserLeft (Some (User.mk "A" "alice" 0%Z "")) users)
  + 1 = List.length users /\
  (forall u,
      In u (Client.handleUserLeft (Some (User.mk "A" "alice" 0%Z "")) users) <->
      In u users /\
      User.username u <> User.username (User.mk "A" "alice" 0%Z "")).
Proof.
  cbv zeta.
  assert (h : In (User.username (User.mk "A" "alice" 0%Z ""))
                 (map User.username
                    (getUsersInRoom
                       (rooms (fst (run init alice_and_bob_inputs))) "r1")))
    by (left; reflexivity).
  exact (conj h
    (handleUserLeft_removes_one alice_and_bob_inputs "r1"
       (User.mk "A" "alice" 0%Z "") h)).
Defined.

(** X18.  A [code-change] built by the client, by [emitCodeChange] of
    [SocketProvider] or by [handleCodeChange] of [Editor], always carries a
    truthy [roomId]: in any state the strict server answers it with
    [code-update] emissions only, never with [error], and changes no
    state. *)
Theorem client_code_change_never_errors (st : State) (i : Input)
    (socket_connected : bool) (socket : string) (editor_socket : option string)
    (roomId code cursorPos : option string) (value : string) (now : Z) :
  In i (Client.emitCodeChange socket_connected socket roomId code cursorPos now)
  \/ In i (Client.handleCodeChange editor_socket roomId value now) ->
  fst (step st i) = st /\
  forall e, In e (snd (step st i)) -> event_of e = Some "code-update".
Proof.
  assert (H : forall s d r, field d "roomId" = Some r -> truthy r = true ->
            fst (step st (Event s "code-change" (Some d) now)) = st /\
            forall e, In e (snd (step st (Event s "code-change" (Some d) now)))
                      -> event_of e = Some "code-update").
  { intros s d r Hr Ht. simpl. destruct (connected st s); [|split; [auto|intros ? []]].
    unfold destructured, code_change. rewrite Hr, Ht. split; [reflexivity|].
    simpl. intros e He. apply socket_to_emit_In in He.
    destruct He as [m [-> _]]. reflexivity. }
  unfold Client.emitCodeChange, Client.handleCodeChange.
  intros [Hin|Hin].
  - destruct roomId as [r|]; [|destruct Hin].
    destruct (truthy r) eqn:Ht; [|rewrite orb_true_r in Hin; destruct Hin].
    destruct socket_connected; [|destruct Hin].
    destruct Hin as [<-|[]]. now apply (H _ _ r).
  - destruct editor_socket as [s|]; [|destruct Hin].
    destruct roomId as [r|]; [|destruct Hin].
    destruct (truthy r) eqn:Ht; [|destruct Hin].
    destruct Hin as [<-|[]]. now apply (H _ _ r).
Qed.

Lemma client_code_change_never_errors_witness :
  (In (Event "A" "code-change"
         (Some [("roomId", "r1"); ("code", "x")]) 3%Z)
      (Client.emitCodeChange true "A" (Some "r1") (Some "x") None 3%Z)
   \/ In (Event "A" "code-change"
            (Some [("roomId", "r1"); ("code", "x")]) 3%Z)
         (Client.handleCodeChange (Some "A") (Some "r1") "x" 3%Z)) /\
  fst (step alice_and_bob
         (Event "A" "code-change" (Some [("roomId", "r1"); ("code", "x")]) 3%Z))
  = alice_and_bob /\
  forall e,
    In e (snd (step alice_and_bob
                 (Event "A" "code-change"
                    (Some [("roomId", "r1"); ("code", "x")]) 3%Z))) ->
    event_of e = Some "code-update".
Proof.
  assert (h : In (Event "A" "code-change"
                    (Some [("roomId", "r1"); ("code", "x")]) 3%Z)
                 (Client.emitCodeChange true "A" (Some "r1") (Some "x") None 3%Z)
              \/ In (Event "A" "code-change"
                       (Some [("roomId", "r1"); ("code", "x")]) 3%Z)
                    (Client.handleCodeChange (Some "A") (Some "r1") "x" 3%Z))
    by (left; left; reflexivity).
  exact (conj h
    (client_code_change_never_errors alice_and_bob _ true "A" (Some "A")
       (Some "r1") (Some "x") None "x" 3%Z h)).
Defined.

Lemma falsy_field_false o k :
  Client.falsy_field o k = false -> exists v, field o k = Some v /\ v <> "".
Proof.
  unfold Client.falsy_field. destruct (field o k) as [v|]; [|discriminate].
  intros H. exists v. split; [reflexivity|].
  apply truthy_true. now destruct (truthy v).
Qed.

(** X19.  The automatic re-join of [handleConnect] is sent only with a
    truthy cached [username] and [roomId], so the strict server does not
    take the validation path: for a connected socket, either no other
    connection holds the username in the cached room and the socket is a
    member of that room after the request, or another connection holds it
    and the state is unchanged. *)
Theorem auto_rejoin_passes_validation (st : State) (s : string)
    (cu : option Obj) (now : Z) (i : Input) :
  In i (Client.handleConnect s cu now) ->
  connected st s = true ->
  exists Y u,
    cu <> None /\
    field (or_empty_object cu) "roomId" = Some Y /\ Y <> "" /\
    field (or_empty_object cu) "username" = Some u /\ u <> "" /\
    ((existingUser st s Y u = None /\
      is_member (fst (step st i)) s Y = true) \/
     ((exists holder, existingUser st s Y u = Some holder) /\
      fst (step st i) = st)).
Proof.
  unfold Client.handleConnect. intros Hin Hc.
  destruct cu as [o|]; [|destruct Hin].
  destruct (Client.falsy_field o "username") eqn:Hu; [destruct Hin|].
  destruct (Client.falsy_field o "roomId") eqn:Hr; [destruct Hin|].
  destruct Hin as [<-|[]].
  apply falsy_field_false in Hu. destruct Hu as [u [Hu Hune]].
  apply falsy_field_false in Hr. destruct Hr as [Y [HY HYne]].
  exists Y, u. split; [discriminate|]. split; [exact HY|].
  split; [exact HYne|]. split; [exact Hu|]. split; [exact Hune|].
  rewrite (step_join_request _ _ _ _ Hc).
  destruct (existingUser st s Y u) as [eu|] eqn:Hex.
  - right. split; [eauto|].
    now rewrite (join_request_conflict st s (Some o) now Y u eu HY Hu HYne Hune
                   Hex).
  - left. split; [reflexivity|].
    rewrite (join_request_commit st s (Some o) now Y u HY Hu HYne Hune Hex).
    cbn [fst]. rewrite commit_join_members. now rewrite !String.eqb_refl.
Qed.

Lemma auto_rejoin_passes_validation_witness :
  In (Event "A" "join-request"
        (Some [("username", "bob"); ("roomId", "r1"); ("socketId", "old")])
        2%Z)
     (Client.handleConnect "A"
        (Some [("username", "bob"); ("roomId", "r1"); ("socketId", "old")])
        2%Z) /\
  connected bob_alone "A" = true /\
  exists Y u,
    Some [("username", "bob"); ("roomId", "r1"); ("socketId", "old")] <> None /\
    field (or_empty_object
             (Some [("username", "bob"); ("roomId", "r1"); ("socketId", "old")]))
      "roomId" = Some Y /\ Y <> "" /\
    field (or_empty_object
             (Some [("username", "bob"); ("roomId", "r1"); ("socketId", "old")]))
      "username" = Some u /\ u <> "" /\
    ((existingUser bob_alone "A" Y u = None /\
      is_member
        (fst (step bob_alone
                (Event "A" "join-request"
                   (Some [("username", "bob"); ("roomId", "r1");
                          ("socketId", "old")]) 2%Z))) "A" Y = true) \/
     ((exists holder, existingUser bob_alone "A" Y u = Some holder) /\
      fst (step bob_alone
             (Event "A" "join-request"
                (Some [("username", "bob"); ("roomId", "r1");
                       ("socketId", "old")]) 2%Z))
      = bob_alone)).
Proof.
  assert (h1 : In (Event "A" "join-request"
                     (Some [("username", "bob"); ("roomId", "r1");
                            ("socketId", "old")]) 2%Z)
                  (Client.handleConnect "A"
                     (Some [("username", "bob"); ("roomId", "r1");
                            ("socketId", "old")]) 2%Z))
    by (left; reflexivity).
  assert (h2 : connected bob_alone "A" = true) by reflexivity.
  exact (conj h1 (conj h2
    (auto_rejoin_passes_validation bob_alone "A" _ 2%Z _ h1 h2))).
Defined.

Lemma join_accepted_fields st i m id u Y users :
  In (Emit m "join-accepted" (PJoinAccepted id u Y users)) (snd (step st i)) ->
  u <> "" /\ Y <> "".
Proof.
  destruct i as [s|s name data now|s]; simpl.
  - destruct (connected st s); intros [].
  - destruct (connected st s); [|intros []].
    destruct (on name) as [h|] eqn:Hon; [|intros []].
    destruct (String.eqb_spec name "join-request") as [->|Hne].
    + injection Hon as <-. intros Hin. apply join_request_emits in Hin.
      destruct Hin as [[E _]|[[E _]|[[_ H]|E]]]; try discriminate.
      destruct H as [u' [Y' [users' [E [Hu HY]]]]].
      injection E as E1 E2 E3 E4. subst. auto.
    + intros Hin. pose proof (relay_event_cases _ _ _ _ _ _ _ _ _ Hon Hne Hin) as H.
      simpl in H. intuition discriminate.
  - destruct (connected st s); [|intros []].
    intros Hin. apply disconnect_emits in Hin. destruct Hin as [m' [u' E]].
    discriminate.
Qed.

(** X20.  Accept, then reconnect.  Whatever [join-accepted] the strict
    server sends to a connection, [handleJoiningAccept] stores its user
    list, sets the status to "joined" and caches the identity, and the
    next [handleConnect], under any new socket id, sends exactly one join
    request, from which the server reads the same room and the same
    username. *)
Theorem rejoin_uses_accepted_identity (st : State) (i : Input) (m id u Y : string)
    (users : list User.t) (prev : Client.AppState) (new_socket : string)
    (now : Z) :
  In (Emit m "join-accepted" (PJoinAccepted id u Y users)) (snd (step st i)) ->
  let app := Client.handleJoiningAccept m prev
               (Client.join_accepted_payload id u Y users) in
  let cu := Client.currentUser app in
  Client.users app = users /\
  Client.status app = "joined" /\
  field cu "socketId" = Some m /\
  Client.handleConnect new_socket (Some cu) now
  = [Event new_socket "join-request" (Some cu) now] /\
  field (or_empty_object (Some cu)) "roomId" = Some Y /\
  field (or_empty_object (Some cu)) "username" = Some u.
Proof.
  intros Hin app cu. apply join_accepted_fields in Hin.
  destruct Hin as [Hu HY].
  assert (Hroom : field cu "roomId" = Some Y).
  { unfold cu, app, Client.handleJoiningAccept, field. simpl.
    rewrite !get_set. reflexivity. }
  assert (Hname : field cu "username" = Some u).
  { unfold cu, app, Client.handleJoiningAccept, field. simpl.
    rewrite !get_set. reflexivity. }
  split; [reflexivity|]. split; [reflexivity|]. split.
  { unfold cu, app, Client.handleJoiningAccept, field. simpl.
    apply get_set_same. }
  split; [|split; assumption].
  unfold Client.handleConnect, Client.falsy_field. rewrite Hroom, Hname.
  apply truthy_true in Hu. apply truthy_true in HY. now rewrite Hu, HY.
Qed.

Lemma rejoin_uses_accepted_identity_witness :
  In (Emit "A" "join-accepted"
        (PJoinAccepted "A" "alice" "r1"
           [User.mk "B" "bob" 1%Z "r1"; User.mk "A" "alice" 2%Z "r1"]))
     (snd (step bob_alone
             (Event "A" "join-request" (join_data "r1" "alice") 2%Z))) /\
  let app := Client.handleJoiningAccept "A"
               (Client.mkAppState [("username", "alice")] [] "initial")
               (Client.join_accepted_payload "A" "alice" "r1"
                  [User.mk "B" "bob" 1%Z "r1"; User.mk "A" "alice" 2%Z "r1"]) in
  let cu := Client.currentUser app in
  Client.users app
  = [User.mk "B" "bob" 1%Z "r1"; User.mk "A" "alice" 2%Z "r1"] /\
  Client.status app = "joined" /\
  field cu "socketId" = Some "A" /\
  Client.handleConnect "A2" (Some cu) 9%Z
  = [Event "A2" "join-request" (Some cu) 9%Z] /\
  field (or_empty_object (Some cu)) "roomId" = Some "r1" /\
  field (or_empty_object (Some cu)) "username" = Some "alice".
Proof.
  assert (h : In (Emit "A" "join-accepted"
                    (PJoinAccepted "A" "alice" "r1"
                       [User.mk "B" "bob" 1%Z "r1";
                        User.mk "A" "alice" 2%Z "r1"]))
                 (snd (step bob_alone
                         (Event "A" "join-request" (join_data "r1" "alice")
                            2%Z)))).
  { cbv. pick_in. }
  exact (conj h
    (rejoin_uses_accepted_identity bob_alone _ "A" "A" "alice" "r1" _
       (Client.mkAppState [("username", "alice")] [] "initial") "A2" 9%Z h)).
Defined.

(** The retry delay of the client's [connect_error] listener grows
    with the attempt count it is computed from, never exceeds 10000 ms,
    and is 10000 ms from the count 10 on. *)
Theorem reconnect_delay_capped (a b : Z) :
  (a <= b)%Z ->
  (Client.reconnect_delay a <= Client.reconnect_delay b)%Z /\
  (Client.reconnect_delay b <= 10000)%Z /\
  Client.reconnect_delay (Z.max b 10) = 10000%Z.
Proof. unfold Client.reconnect_delay. lia. Qed.

Lemma reconnect_delay_capped_witness :
  (5 <= 12)%Z /\
  (Client.reconnect_delay 5 <= Client.reconnect_delay 12)%Z /\
  (Client.reconnect_delay 12 <= 10000)%Z /\
  Client.reconnect_delay (Z.max 12 10) = 10000%Z.
Proof.
  assert (h : (5 <= 12)%Z) by lia.
  exact (conj h (reconnect_delay_capped 5 12 h)).
Defined.

(** X22.  The guard of [handleCodeUpdate] against the relay of the strict
    server.  In any state, a [code-update] delivered in the step of a
    [code-change] names that sender; the recipient's handler dispatches
    it, with the [code] and [cursorPos] the sender put in its
    [code-change], unless the recipient is the sender itself, whose own
    update the guard drops.  When the sender's socket is in the socket.io
    room named by its own id the server sends it no update, and every
    update delivered passes the guard. *)
Theorem server_code_update_passes_guard (st : State) (s m : string) (d : Obj)
    (now : Z) (p : Payload) :
  In (Emit m "code-update" p)
     (snd (step st (Event s "code-change" (Some d) now))) ->
  p = PCodeUpdate (field d "code") (field d "cursorPos") (field d "filePath")
        s now /\
  Client.handleCodeUpdate m p
  = (if s =? m then None else Some (field d "code", field d "cursorPos")) /\
  (In s (in_room (sids st) s) ->
   Client.handleCodeUpdate m p = Some (field d "code", field d "cursorPos")).
Proof.
  simpl. destruct (connected st s); [|intros []].
  unfold destructured, code_change.
  destruct (field d "roomId") as [r|].
  2:{ cbn [snd]. intros Hin. apply socket_emit_In in Hin.
      destruct Hin as [k [E _]]. discriminate. }
  destruct (truthy r); cbn [snd]; intros Hin.
  2:{ apply socket_emit_In in Hin. destruct Hin as [k [E _]]. discriminate. }
  apply socket_to_emit_In in Hin. destruct Hin as [k [E [Hout _]]].
  injection E as E1 E2. subst k p.
  split; [reflexivity|]. split; [reflexivity|].
  intros Hown. simpl.
  destruct (String.eqb_spec s m) as [->|Hne]; [contradiction|reflexivity].
Qed.

Lemma server_code_update_passes_guard_witness :
  In (Emit "B" "code-update"
        (PCodeUpdate (field code_data "code") (field code_data "cursorPos")
           (field code_data "filePath") "A" 3%Z))
     (snd (step alice_and_bob (Event "A" "code-change" (Some code_data) 3%Z)))
  /\
  PCodeUpdate (field code_data "code") (field code_data "cursorPos")
    (field code_data "filePath") "A" 3%Z
  = PCodeUpdate (field code_data "code") (field code_data "cursorPos")
      (field code_data "filePath") "A" 3%Z /\
  Client.handleCodeUpdate "B"
    (PCodeUpdate (field code_data "code") (field code_data "cursorPos")
       (field code_data "filePath") "A" 3%Z)
  = (if "A" =? "B" then None
     else Some (field code_data "code", field code_data "cursorPos")) /\
  (In "A" (in_room (sids alice_and_bob) "A") ->
   Client.handleCodeUpdate "B"
     (PCodeUpdate (field code_data "code") (field code_data "cursorPos")
        (field code_data "filePath") "A" 3%Z)
   = Some (field code_data "code", field code_data "cursorPos")).
Proof.
  assert (h : In (Emit "B" "code-update"
                    (PCodeUpdate (field code_data "code")
                       (field code_data "cursorPos")
                       (field code_data "filePath") "A" 3%Z))
                 (snd (step alice_and_bob
                         (Event "A" "code-change" (Some code_data) 3%Z)))).
  { vm_compute. left. reflexivity. }
  exact (conj h
    (server_code_update_passes_guard alice_and_bob "A" "B" code_data 3%Z _ h)).
Defined.

(** X23.  After any sequence of inputs, a step changes whether a
    connection is a member of a room only if the step is that connection's
    own join request or its own disconnect: no input of one connection
    moves another. *)
Theorem membership_changes_only_by_owner (inputs : list Input) (i : Input)
    (k r : string) :
  let st := fst (run init inputs) in
  is_member (fst (step st i)) k r <> is_member st k r ->
  i = Disconnect k \/ exists data now, i = Event k "join-request" data now.
Proof.
  intros st Hdiff. destruct (run_invariants inputs) as [HI _]. fold st in HI.
  destruct i as [s|s name data now|s].
  - exfalso. apply Hdiff. simpl. destruct (connected st s); reflexivity.
  - destruct (connected st s) eqn:Hc;
      [|exfalso; apply Hdiff; now rewrite (step_not_connected _ _ _ _ _ Hc)].
    destruct (String.eqb_spec name "join-request") as [->|Hne].
    + destruct (String.eqb_spec k s) as [->|Hks]; [right; eauto|].
      exfalso. apply Hdiff. rewrite (step_join_request _ _ _ _ Hc).
      destruct (join_request_cases st s data)
        as [Hbad|[Y [u [HY [Hu [HYne [Hune [[eu Hex]|Hex]]]]]]]].
      * now rewrite (join_request_invalid _ _ _ _ Hbad).
      * now rewrite (join_request_conflict _ _ _ _ _ _ _ HY Hu HYne Hune Hex).
      * rewrite (join_commit_members st s data now Y u k r HI HY Hu HYne Hune Hex).
        destruct (String.eqb_spec k s); [contradiction|]. simpl.
        apply andb_true_r.
    + exfalso. apply Hdiff. simpl. rewrite Hc.
      destruct (on name) as [h|] eqn:Hon; [|reflexivity].
      now rewrite (on_keeps_state _ _ Hon Hne).
  - destruct (String.eqb_spec k s) as [->|Hks]; [now left|].
    exfalso. apply Hdiff.
    destruct (connected st s) eqn:Hc; [|simpl; now rewrite Hc].
    rewrite (step_disconnect _ _ Hc).
    rewrite (disconnect_members st s _ _ k r HI).
    + destruct (String.eqb_spec k s); [contradiction|apply andb_true_r].
    + apply wf_delete, (inv_sids_wf _ HI).
    + intros k' Hk'. now apply get_delete_other.
Qed.

Lemma membership_changes_only_by_owner_witness :
  is_member (fst (step (fst (run init alice_and_bob_inputs)) (Disconnect "A")))
    "A" "r1"
  <> is_member (fst (run init alice_and_bob_inputs)) "A" "r1" /\
  (Disconnect "A" = Disconnect "A" \/
   exists data now, Disconnect "A" = Event "A" "join-request" data now).
Proof.
  assert (h : is_member
                (fst (step (fst (run init alice_and_bob_inputs))
                        (Disconnect "A"))) "A" "r1"
              <> is_member (fst (run init alice_and_bob_inputs)) "A" "r1")
    by (vm_compute; discriminate).
  exact (conj h
    (membership_changes_only_by_owner alice_and_bob_inputs (Disconnect "A")
       "A" "r1" h)).
Defined.

(** X24.  The join effect of [EditorPage] against the strict server: for a
    connected socket, the request it builds is answered through the
    callback exactly once, and the status the callback sets tells the
    truth: "joined" means the socket is now a member of the requested
    room, "connection_failed" means the server state is unchanged. *)
Theorem join_effect_status_is_truthful (st : State) (s : string)
    (roomId username : option string) (now : Z) (i : Input) :
  In i (Client.join_effect s roomId username now) ->
  connected st s = true ->
  exists r response,
    roomId = Some r /\
    In (Callback s response) (snd (step st i)) /\
    (forall m a, In (Callback m a) (snd (step st i)) ->
                 m = s /\ a = response) /\
    ((Client.join_effect_status response = "joined" /\
      is_member (fst (step st i)) s r = true) \/
     (Client.join_effect_status response = "connection_failed" /\
      fst (step st i) = st)).
Proof.
  unfold Client.join_effect. intros Hin Hc.
  destruct roomId as [r|]; [|destruct Hin].
  destruct username as [u|]; [|destruct Hin].
  destruct (truthy r) eqn:Hr; [|destruct Hin].
  destruct (truthy u) eqn:Hu; [|destruct Hin].
  destruct Hin as [<-|[]].
  apply truthy_true in Hr. apply truthy_true in Hu.
  rewrite (step_join_request _ _ _ _ Hc).
  set (data := Some [("username", u); ("roomId", r)]).
  assert (HY : field (or_empty_object data) "roomId" = Some r) by reflexivity.
  assert (HU : field (or_empty_object data) "username" = Some u) by reflexivity.
  exists r.
  destruct (existingUser st s r u) as [eu|] eqn:Hex.
  - rewrite (join_request_conflict _ _ _ now _ _ _ HY HU Hr Hu Hex).
    exists (AckError (conflict_message u)). split; [reflexivity|].
    cbn [fst snd]. split; [apply in_or_app; right; now left|]. split.
    + intros m a Hin. apply in_app_or in Hin. destruct Hin as [Hin|[E|[]]].
      * apply socket_emit_In in Hin. destruct Hin as [m' [E _]]. discriminate.
      * injection E as <- <-. auto.
    + right. split; reflexivity.
  - rewrite (join_request_commit _ _ _ now _ _ HY HU Hr Hu Hex). cbn [fst snd].
    rewrite commit_join_effects. cbv zeta. eexists.
    split; [reflexivity|]. split.
    { apply in_or_app. right. apply in_or_app. right.
      apply in_or_app. right. now left. }
    split.
    + intros m a Hin. apply in_app_or in Hin. destruct Hin as [Hin|Hin].
      * apply leave_existing_only_emits in Hin.
        destruct Hin as [m' [p' E]]. discriminate.
      * apply in_app_or in Hin. destruct Hin as [Hin|Hin].
        -- apply socket_emit_In in Hin. destruct Hin as [m' [E _]].
           discriminate.
        -- apply in_app_or in Hin. destruct Hin as [Hin|[E|[]]].
           ++ apply socket_to_emit_In in Hin. destruct Hin as [m' [E _]].
              discriminate.
           ++ injection E as <- <-. auto.
    + left. split; [reflexivity|].
      rewrite commit_join_members. now rewrite !String.eqb_refl.
Qed.

Lemma join_effect_status_is_truthful_witness :
  In (Event "A" "join-request"
        (Some [("username", "alice"); ("roomId", "r1")]) 2%Z)
     (Client.join_effect "A" (Some "r1") (Some "alice") 2%Z) /\
  connected bob_alone "A" = true /\
  exists r response,
    Some "r1" = Some r /\
    In (Callback "A" response)
       (snd (step bob_alone
               (Event "A" "join-request"
                  (Some [("username", "alice"); ("roomId", "r1")]) 2%Z))) /\
    (forall m a,
        In (Callback m a)
           (snd (step bob_alone
                   (Event "A" "join-request"
                      (Some [("username", "alice"); ("roomId", "r1")]) 2%Z))) ->
        m = "A" /\ a = response) /\
    ((Client.join_effect_status response = "joined" /\
      is_member
        (fst (step bob_alone
                (Event "A" "join-request"
                   (Some [("username", "alice"); ("roomId", "r1")]) 2%Z)))
        "A" r = true) \/
     (Client.join_effect_status response = "connection_failed" /\
      fst (step bob_alone
             (Event "A" "join-request"
                (Some [("username", "alice"); ("roomId", "r1")]) 2%Z))
      = bob_alone)).
Proof.
  assert (h1 : In (Event "A" "join-request"
                     (Some [("username", "alice"); ("roomId", "r1")]) 2%Z)
                  (Client.join_effect "A" (Some "r1") (Some "alice") 2%Z))
    by (left; reflexivity).
  assert (h2 : connected bob_alone "A" = true) by reflexivity.
  exact (conj h1 (conj h2
    (join_effect_status_is_truthful bob_alone "A" (Some "r1") (Some "alice") 2%Z
       _ h1 h2))).
Defined.

(* ================================================================== *)
(** * Notifications while room names and socket ids stay apart

    [socket.emit] and [socket.to] go through the room named by the
    sender's id.  As long as that room holds the sender and nobody else
    ([own_room]), they reach the requester alone and the room without the
    sender, and the notifications of the handlers are those their comments
    announce. *)

Lemma in_room_NoDup tbl r : JsMap.wf tbl -> NoDup (in_room tbl r).
Proof.
  unfold JsMap.wf, JsMap.keys, in_room.
  induction tbl as [|[k rs] tbl IH]; simpl; intros Hwf; [constructor|].
  inversion Hwf as [|? ? Hnin Hnd]; subst.
  destruct (joined r rs); simpl; [|auto].
  constructor; [|auto].
  intros Hin. apply Hnin. apply in_map_iff in Hin.
  destruct Hin as [[k' rs'] [E Hf]]. simpl in E. subst k'.
  apply filter_In in Hf. destruct Hf as [Hf _].
  apply in_map_iff. exists (k, rs'). auto.
Qed.

Lemma NoDup_singleton {A : Type} (l : list A) (x : A) :
  NoDup l -> (forall y, In y l <-> y = x) -> l = [x].
Proof.
  intros Hnd H. destruct l as [|a l].
  - exfalso. now apply (proj2 (H x)).
  - assert (a = x) by (apply H; now left). subst a.
    destruct l as [|b l]; [reflexivity|].
    exfalso. assert (b = x) by (apply H; right; now left). subst b.
    inversion Hnd as [|? ? Hnin _]; subst. apply Hnin. now left.
Qed.

(** A change of [s]'s own entry that keeps [s] in the room of its id
    keeps that room to [s] alone. *)
Lemma own_room_kept tbl tbl' s :
  JsMap.wf tbl -> JsMap.wf tbl' ->
  (forall k, k <> s -> JsMap.get tbl' k = JsMap.get tbl k) ->
  (exists rs, JsMap.get tbl' s = Some rs /\ In s rs) ->
  own_room tbl s -> own_room tbl' s.
Proof.
  intros Hwf Hwf' Hother [rs [Hrs Hin]] Hown. unfold own_room.
  apply NoDup_singleton; [now apply in_room_NoDup|].
  intros m. split.
  - intros Hm. destruct (String.eqb_spec m s) as [|Hne]; [assumption|].
    destruct (in_room_elim _ _ _ Hwf' Hm) as [rs' [Hrs' Hin']].
    rewrite Hother in Hrs' by assumption.
    apply (own_room_In _ _ _ Hown). eapply in_room_intro; eassumption.
  - intros ->. eapply in_room_intro; eassumption.
Qed.

Lemma own_room_others tbl tbl' s m :
  JsMap.wf tbl' ->
  (forall k, k <> s -> JsMap.get tbl' k = JsMap.get tbl k) ->
  own_room tbl s -> m <> s -> ~ In m (in_room tbl' s).
Proof.
  intros Hwf' Hother Hown Hne Hm.
  destruct (in_room_elim _ _ _ Hwf' Hm) as [rs' [Hrs' Hin']].
  rewrite Hother in Hrs' by assumption.
  apply Hne, (own_room_In _ _ _ Hown). eapply in_room_intro; eassumption.
Qed.

(** The socket.io rooms of the requester after the commit path: those it
    had, without the room it was a member of, with the room it asked
    for. *)
Lemma join_commit_sids st s Y u now :
  Inv st ->
  let st2 := fst (commit_join (fst (leave_existing st s)) s Y u now) in
  (forall k, k <> s -> JsMap.get (sids st2) k = JsMap.get (sids st) k) /\
  JsMap.get (sids st2) s =
  option_map
    (fun rs =>
       let rs1 := match getRoomForSocket (rooms st) s with
                  | Some X => filter (fun r => negb (r =? X)) rs
                  | None => rs
                  end in
       if joined Y rs1 then rs1 else rs1 ++ [Y])
    (JsMap.get (sids st) s).
Proof.
  intros HI. cbv zeta.
  destruct (commit_join_state (fst (leave_existing st s)) s Y u now)
    as [_ [_ [Htbl _]]].
  rewrite Htbl, (leave_existing_sids st s HI). split.
  - intros k Hk. rewrite socket_join_get.
    destruct (String.eqb_spec k s); [contradiction|].
    destruct (getRoomForSocket (rooms st) s); [|reflexivity].
    rewrite socket_leave_get.
    destruct (String.eqb_spec k s); [contradiction|reflexivity].
  - rewrite socket_join_get, String.eqb_refl.
    destruct (getRoomForSocket (rooms st) s); [|reflexivity].
    rewrite socket_leave_get, String.eqb_refl.
    destruct (JsMap.get (sids st) s); reflexivity.
Qed.

Lemma join_commit_own_room st s Y u now :
  Inv st -> own_room (sids st) s -> is_member st s s = false ->
  own_room (sids (fst (commit_join (fst (leave_existing st s)) s Y u now))) s.
Proof.
  intros HI Hown Hnot.
  destruct (join_commit_sids st s Y u now HI) as [Hother Hs].
  cbv zeta in Hother, Hs.
  destruct (commit_join_state (fst (leave_existing st s)) s Y u now)
    as [_ [_ [Htbl _]]].
  assert (Hself : In s (in_room (sids st) s)) by now apply own_room_In.
  destruct (in_room_elim _ _ _ (inv_sids_wf _ HI) Hself) as [rs [Hrs Hin]].
  apply (own_room_kept (sids st)); auto using inv_sids_wf.
  - rewrite Htbl. apply socket_join_wf.
    rewrite (leave_existing_sids st s HI).
    destruct (getRoomForSocket (rooms st) s);
      [apply socket_leave_wf|]; apply (inv_sids_wf _ HI).
  - rewrite Hs, Hrs. simpl. eexists. split; [reflexivity|].
    assert (Hin1 : In s match getRoomForSocket (rooms st) s with
                        | Some X => filter (fun r => negb (r =? X)) rs
                        | None => rs
                        end).
    { destruct (getRoomForSocket (rooms st) s) as [X|] eqn:EX; [|assumption].
      apply filter_In. split; [assumption|].
      destruct (String.eqb_spec s X) as [->|]; [|reflexivity].
      apply (getRoomForSocket_is_member st X X HI) in EX. congruence. }
    destruct (joined Y _); [assumption|]. apply in_or_app. now left.
Qed.

(** X25.  The relay of [code-change] while the room named by the
    sender's id holds the sender alone.  In every reachable state, every
    member of the addressed room other than the sender, whether or not the
    sender is a member itself, receives [code-update] with the [code],
    [cursorPos] and [filePath] of the request, the sender's id and the
    clock reading; the sender receives no [code-update]; the state is
    unchanged; and the emissions are computed from the socket.io table
    alone, the same whatever the directory and the registry contain. *)
Theorem code_change_fanout (st : State) (A roomId : string) (data : Obj)
    (now : Z) :
  reachable st ->
  connected st A = true ->
  field data "roomId" = Some roomId ->
  own_room (sids st) A ->
  let out := snd (step st (Event A "code-change" (Some data) now)) in
  (forall B, B <> A -> is_member st B roomId = true ->
     receives out B "code-update"
       (PCodeUpdate (field data "code") (field data "cursorPos")
          (field data "filePath") A now)) /\
  (forall p, ~ receives out A "code-update" p) /\
  fst (step st (Event A "code-change" (Some data) now)) = st /\
  (forall rms usm ss,
     snd (code_change (mkState rms usm (sids st) ss) A data now) = out).
Proof.
  intros Hreach Hconn Hr Hown out. subst out.
  pose proof (reachable_Inv _ Hreach) as HI.
  rewrite (step_code_change _ _ _ _ Hconn).
  split; [|split; [|split]].
  - intros B HB Hm. apply (code_change_to_members st A roomId); auto.
    intros Hin. apply HB. now apply (own_room_In _ _ _ Hown).
  - intros p Hin. unfold receives, code_change in Hin. rewrite Hr in Hin.
    destruct (truthy roomId); cbn [snd] in Hin.
    + apply socket_to_emit_In in Hin. destruct Hin as [m [E [Hne _]]].
      injection E as E1 E2. subst m. apply Hne. now apply own_room_In.
    + apply socket_emit_In in Hin. destruct Hin as [m [E _]]. discriminate.
  - apply code_change_state.
  - intros rms usm ss. unfold code_change. simpl.
    destruct (field data "roomId") as [r'|]; [|reflexivity].
    destruct (truthy r'); reflexivity.
Qed.

Lemma code_change_fanout_witness :
  reachable alice_and_bob /\
  connected alice_and_bob "A" = true /\
  field code_data "roomId" = Some "r1" /\
  own_room (sids alice_and_bob) "A" /\
  let out := snd (step alice_and_bob
                    (Event "A" "code-change" (Some code_data) 3%Z)) in
  (forall B, B <> "A" -> is_member alice_and_bob B "r1" = true ->
     receives out B "code-update"
       (PCodeUpdate (field code_data "code") (field code_data "cursorPos")
          (field code_data "filePath") "A" 3%Z)) /\
  (forall p, ~ receives out "A" "code-update" p) /\
  fst (step alice_and_bob (Event "A" "code-change" (Some code_data) 3%Z))
  = alice_and_bob /\
  (forall rms usm ss,
     snd (code_change (mkState rms usm (sids alice_and_bob) ss) "A" code_data
            3%Z) = out).
Proof.
  assert (h1 : reachable alice_and_bob) by apply alice_and_bob_reachable.
  assert (h2 : connected alice_and_bob "A" = true) by reflexivity.
  assert (h3 : field code_data "roomId" = Some "r1") by reflexivity.
  assert (h4 : own_room (sids alice_and_bob) "A") by reflexivity.
  exact (conj h1 (conj h2 (conj h3 (conj h4
    (code_change_fanout alice_and_bob "A" "r1" code_data 3%Z h1 h2 h3 h4))))).
Defined.

(** X26.  The notifications of a successful join while the room named by
    the requester's id holds the requester alone and the requester is not
    a member of a room of that name.  In every reachable state the
    requester receives [join-accepted] with its profile (id, username,
    room) and the list of the users of the room after the commit, which
    holds every member's user and so the committed one, and its callback
    gets the same list; nobody else receives [join-accepted] or an
    acknowledgment; every other member of the room receives [user-joined]
    describing the new user; the requester does not receive
    [user-joined]. *)
Theorem join_success_notifications (st : State) (socket Y : string)
    (data : option Obj) (now : Z) :
  reachable st ->
  acknowledged (snd (step st (Event socket "join-request" data now))) socket Y ->
  own_room (sids st) socket ->
  is_member st socket socket = false ->
  let st' := fst (step st (Event socket "join-request" data now)) in
  let out := snd (step st (Event socket "join-request" data now)) in
  exists username,
    let user := User.mk socket username now Y in
    let users := getUsersInRoom (rooms st') Y in
    field (or_empty_object data) "username" = Some username /\
    JsMap.get (userSocketMap st') socket = Some user /\
    In user users /\
    (forall m room u, JsMap.get (rooms st') Y = Some room ->
       JsMap.get room m = Some u -> In u users) /\
    receives out socket "join-accepted" (PJoinAccepted socket username Y users) /\
    In (Callback socket (AckSuccess Y users socket)) out /\
    (forall m p, receives out m "join-accepted" p -> m = socket) /\
    (forall m a, In (Callback m a) out -> m = socket) /\
    (forall m, m <> socket -> is_member st' m Y = true ->
       receives out m "user-joined" (PUserJoined socket username now Y)) /\
    (forall p, ~ receives out socket "user-joined" p).
Proof.
  intros Hreach Hack Hown Hself st' out. subst st' out.
  pose proof (reachable_Inv _ Hreach) as HI.
  pose proof (acknowledged_connected _ _ _ _ _ Hack) as Hconn.
  rewrite (step_join_request _ _ _ _ Hconn) in *.
  destruct (acknowledged_commit _ _ _ _ _ Hack)
    as [u [HY [Hu [HYne [Hune Hex]]]]].
  rewrite (join_request_commit _ _ _ now _ _ HY Hu HYne Hune Hex).
  cbn [fst snd]. exists u. cbv zeta.
  pose proof (join_commit_own_room st socket Y u now HI Hown Hself) as Hown2.
  destruct (leave_existing_spec st socket HI)
    as [HI1 [Hnot [Hrooms [_ [Hsids Hconn1]]]]].
  set (st1 := fst (leave_existing st socket)) in *.
  destruct (commit_join_state st1 socket Y u now) as [Hget [Husm [Htbl _]]].
  set (st2 := fst (commit_join st1 socket Y u now)) in *.
  assert (HroomY : JsMap.get (rooms st2) Y
                   = Some (JsMap.set (room_or_empty st1 Y) socket
                             (User.mk socket u now Y))).
  { rewrite Hget. now rewrite String.eqb_refl. }
  assert (Hout2 : snd (commit_join st1 socket Y u now) =
            Emit socket "join-accepted"
              (PJoinAccepted socket u Y (getUsersInRoom (rooms st2) Y))
            :: socket_to_emit (sids st2) socket Y "user-joined"
                 (PUserJoined socket u now Y)
            ++ [Callback socket
                  (AckSuccess Y (getUsersInRoom (rooms st2) Y) socket)]).
  { rewrite commit_join_effects. cbv zeta. fold st2.
    unfold socket_emit. rewrite Hown2. reflexivity. }
  rewrite Hout2.
  split; [assumption|]. split; [rewrite Husm; apply get_set_same|].
  split.
  { unfold getUsersInRoom. rewrite HroomY.
    eapply get_In_values. apply get_set_same. }
  split.
  { intros m room v Hroom Hv. unfold getUsersInRoom. rewrite Hroom.
    eapply get_In_values; eassumption. }
  split; [unfold receives; apply in_or_app; right; now left|].
  split.
  { apply in_or_app; right. right. apply in_or_app. right. now left. }
  split.
  { intros m p Hin. unfold receives in Hin. apply in_app_or in Hin.
    destruct Hin as [Hin|[E|Hin]].
    - apply leave_existing_only_emits in Hin.
      destruct Hin as [m' [p' E]]. discriminate.
    - now injection E.
    - apply in_app_or in Hin. destruct Hin as [Hin|[E|[]]]; [|discriminate].
      apply socket_to_emit_In in Hin. destruct Hin as [m' [E _]]. discriminate. }
  split.
  { intros m a Hin. apply in_app_or in Hin. destruct Hin as [Hin|[E|Hin]].
    - apply leave_existing_only_emits in Hin.
      destruct Hin as [m' [p' E]]. discriminate.
    - discriminate.
    - apply in_app_or in Hin. destruct Hin as [Hin|[E|[]]].
      + apply socket_to_emit_In in Hin. destruct Hin as [m' [E _]]. discriminate.
      + now injection E. }
  split.
  { intros m Hm Hmem. unfold receives. apply in_or_app. right. right.
    apply in_or_app. left. apply socket_to_emit_In.
    exists m. split; [reflexivity|]. split.
    { intros Hin. apply Hm. now apply (own_room_In _ _ _ Hown2). }
    apply (member_in_room st1 (sids st2) socket m Y HI1).
    - intros k Hk. rewrite Htbl, socket_join_get.
      destruct (String.eqb_spec k socket); [contradiction|reflexivity].
    - assumption.
    - unfold is_member in Hmem. rewrite HroomY in Hmem.
      apply has_true in Hmem. destruct Hmem as [v Hv].
      rewrite get_set_other in Hv by assumption.
      unfold room_or_empty in Hv. apply is_member_true.
      destruct (JsMap.get (rooms st1) Y) as [room|] eqn:E; [eauto|discriminate]. }
  intros p Hin. unfold receives in Hin. apply in_app_or in Hin.
  destruct Hin as [Hin|[E|Hin]].
  - apply leave_existing_only_emits in Hin.
    destruct Hin as [m' [p' E]]. discriminate.
  - discriminate.
  - apply in_app_or in Hin. destruct Hin as [Hin|[E|[]]]; [|discriminate].
    apply socket_to_emit_In in Hin. destruct Hin as [m' [E [Hne _]]].
    injection E as E1 E2. subst m'. apply Hne. now apply own_room_In.
Qed.

Lemma join_success_notifications_witness :
  reachable bob_alone /\
  acknowledged
    (snd (step bob_alone
            (Event "A" "join-request" (join_data "r1" "alice") 2%Z)))
    "A" "r1" /\
  own_room (sids bob_alone) "A" /\
  is_member bob_alone "A" "A" = false /\
  let st' := fst (step bob_alone
                    (Event "A" "join-request" (join_data "r1" "alice") 2%Z)) in
  let out := snd (step bob_alone
                    (Event "A" "join-request" (join_data "r1" "alice") 2%Z)) in
  exists username,
    let user := User.mk "A" username 2%Z "r1" in
    let users := getUsersInRoom (rooms st') "r1" in
    field (or_empty_object (join_data "r1" "alice")) "username"
    = Some username /\
    JsMap.get (userSocketMap st') "A" = Some user /\
    In user users /\
    (forall m room u, JsMap.get (rooms st') "r1" = Some room ->
       JsMap.get room m = Some u -> In u users) /\
    receives out "A" "join-accepted" (PJoinAccepted "A" username "r1" users) /\
    In (Callback "A" (AckSuccess "r1" users "A")) out /\
    (forall m p, receives out m "join-accepted" p -> m = "A") /\
    (forall m a, In (Callback m a) out -> m = "A") /\
    (forall m, m <> "A" -> is_member st' m "r1" = true ->
       receives out m "user-joined" (PUserJoined "A" username 2%Z "r1")) /\
    (forall p, ~ receives out "A" "user-joined" p).
Proof.
  assert (h1 : reachable bob_alone) by apply bob_alone_reachable.
  assert (h2 : acknowledged
                 (snd (step bob_alone
                         (Event "A" "join-request" (join_data "r1" "alice") 2%Z)))
                 "A" "r1").
  { unfold acknowledged. eexists _, _. vm_compute. pick_in. }
  assert (h3 : own_room (sids bob_alone) "A") by reflexivity.
  assert (h4 : is_member bob_alone "A" "A" = false) by reflexivity.
  exact (conj h1 (conj h2 (conj h3 (conj h4
    (join_success_notifications bob_alone "A" "r1"
       (join_data "r1" "alice") 2%Z h1 h2 h3 h4))))).
Defined.

(** X27.  The implicit leave of a join while the room named by the
    requester's id holds the requester alone.  In every reachable state, a
    connection that is a member of room X, other than the room of its own
    id, and whose join request for another room Y is acknowledged as a
    success is first taken out of X: X disappears from the directory if
    the connection was alone in it, otherwise X keeps its other members
    and each of them receives [user-left] with the connection id and its
    username.  Only then is it inserted into Y: all [user-left] messages
    precede [join-accepted].  Afterwards the connection is a member of Y
    and of no other room, and its socket has left the socket.io room X and
    is in the socket.io room Y. *)
Theorem join_moves_between_rooms (st : State) (socket X Y : string)
    (data : option Obj) (now : Z) :
  reachable st ->
  is_member st socket X = true ->
  X <> Y ->
  acknowledged (snd (step st (Event socket "join-request" data now))) socket Y ->
  own_room (sids st) socket ->
  X <> socket ->
  let st' := fst (step st (Event socket "join-request" data now)) in
  let out := snd (step st (Event socket "join-request" data now)) in
  exists roomX user,
    JsMap.get (rooms st) X = Some roomX /\
    JsMap.get roomX socket = Some user /\
    (JsMap.delete roomX socket = [] -> JsMap.has (rooms st') X = false) /\
    (JsMap.delete roomX socket <> [] ->
     JsMap.get (rooms st') X = Some (JsMap.delete roomX socket) /\
     forall m, m <> socket -> is_member st m X = true ->
       receives out m "user-left"
         (PUserLeft socket (Some (User.username user)))) /\
    (exists gone joining,
        out = gone ++ joining /\
        (forall e, In e gone ->
           exists m, e = Emit m "user-left"
                           (PUserLeft socket (Some (User.username user)))) /\
        (exists p rest, joining = Emit socket "join-accepted" p :: rest) /\
        (forall m p, ~ In (Emit m "user-left" p) joining)) /\
    (forall r, is_member st' socket r = true <-> r = Y) /\
    ~ In socket (in_room (sids st') X) /\
    In socket (in_room (sids st') Y).
Proof.
  intros Hreach HmX HXY Hack Hown HXs st' out. subst st' out.
  pose proof (reachable_Inv _ Hreach) as HI.
  pose proof (is_member_connected _ _ _ HI HmX) as Hconn.
  assert (Hself : is_member st socket socket = false).
  { destruct (is_member st socket socket) eqn:E; [|reflexivity].
    apply (getRoomForSocket_is_member st socket socket HI) in E.
    apply (getRoomForSocket_is_member st socket X HI) in HmX. congruence. }
  pose proof (step_Inv st (Event socket "join-request" data now) HI) as HI'.
  rewrite (step_join_request _ _ _ _ Hconn) in *.
  destruct (acknowledged_commit _ _ _ _ _ Hack)
    as [u [HY [Hu [HYne [Hune Hex]]]]].
  rewrite (join_request_commit _ _ _ now _ _ HY Hu HYne Hune Hex) in *.
  cbn [fst snd] in *.
  pose proof (join_commit_own_room st socket Y u now HI Hown Hself) as Hown2.
  destruct (join_commit_sids st socket Y u now HI) as [_ Hsids2].
  cbv zeta in Hsids2.
  pose proof HmX as HmX'. apply is_member_true in HmX'.
  destruct HmX' as [roomX [user [HX Huser]]].
  assert (Hhas : JsMap.has roomX socket = true) by (apply has_true; eauto).
  destruct (leave_existing_spec st socket HI)
    as [HI1 [Hnot [Hrooms [_ [Hsids Hconn1]]]]].
  set (st1 := fst (leave_existing st socket)) in *.
  destruct (commit_join_state st1 socket Y u now) as [Hget _].
  assert (HgetX : JsMap.get (rooms (fst (commit_join st1 socket Y u now))) X
                  = if (JsMap.size (JsMap.delete roomX socket) =? 0)%nat
                    then None else Some (JsMap.delete roomX socket)).
  { rewrite Hget. destruct (String.eqb_spec X Y); [contradiction|].
    rewrite Hrooms, HX. now apply without_member. }
  pose proof (leave_existing_effects _ _ _ _ _ HI HX Huser) as Hleft.
  exists roomX, user. split; [assumption|]. split; [assumption|].
  split; [|split; [|split; [|split; [|split]]]].
  - intros Hnil. apply size_zero in Hnil. rewrite Hnil in HgetX.
    apply has_false. exact HgetX.
  - intros Hnn. destruct (JsMap.size (JsMap.delete roomX socket) =? 0)%nat eqn:Hsz;
      [apply size_zero in Hsz; contradiction|].
    split; [exact HgetX|].
    assert (Hleave : forall k, k <> socket ->
              JsMap.get (socket_leave (sids st) socket X) k
              = JsMap.get (sids st) k).
    { intros k Hk. rewrite socket_leave_get.
      destruct (String.eqb_spec k socket); [contradiction|reflexivity]. }
    intros m Hm HmemX. unfold receives. apply in_or_app. left.
    rewrite Hleft. apply socket_to_emit_In. exists m.
    split; [reflexivity|]. split.
    + apply (own_room_others (sids st)); auto.
      apply socket_leave_wf, (inv_sids_wf _ HI).
    + apply (member_in_room st _ socket m X HI); assumption.
  - exists (snd (leave_existing st socket)),
           (snd (commit_join st1 socket Y u now)).
    split; [reflexivity|]. split; [|split].
    + intros e He. rewrite Hleft in He.
      destruct (JsMap.size (JsMap.delete roomX socket) =? 0)%nat; [destruct He|].
      apply socket_to_emit_In in He. destruct He as [m [-> _]]. eauto.
    + rewrite commit_join_effects. cbv zeta. unfold socket_emit.
      rewrite Hown2. simpl. eauto.
    + intros m p Hin. rewrite commit_join_effects in Hin. cbv zeta in Hin.
      apply in_app_or in Hin. destruct Hin as [Hin|Hin].
      * apply socket_emit_In in Hin. destruct Hin as [m' [E _]]. discriminate.
      * apply in_app_or in Hin. destruct Hin as [Hin|[E|[]]]; [|discriminate].
        apply socket_to_emit_In in Hin. destruct Hin as [m' [E _]].
        discriminate.
  - intros r. apply add_is_member. exact Hnot.
  - intros Hin.
    destruct (in_room_elim _ _ _ (inv_sids_wf _ HI') Hin) as [rs2 [Hrs2 HinX]].
    rewrite Hsids2 in Hrs2.
    pose proof HmX as HroomX.
    apply (getRoomForSocket_is_member st socket X HI) in HroomX.
    rewrite HroomX in Hrs2.
    destruct (JsMap.get (sids st) socket) as [rs|]; [|discriminate].
    simpl in Hrs2. injection Hrs2 as <-.
    assert (HnotX : ~ In X (filter (fun r => negb (r =? X)) rs)).
    { intros H. apply filter_In in H. destruct H as [_ H].
      rewrite String.eqb_refl in H. discriminate. }
    destruct (joined Y _); [contradiction|].
    apply in_app_or in HinX. destruct HinX as [H|[E|[]]];
      [contradiction|congruence].
  - unfold connected in Hconn. apply has_true in Hconn.
    destruct Hconn as [rs Hrs].
    eapply in_room_intro; [rewrite Hsids2, Hrs; reflexivity|].
    simpl. destruct (joined Y _) eqn:Ej; [now apply joined_In|].
    apply in_or_app. right. now left.
Qed.

Lemma join_moves_between_rooms_witness :
  reachable alice_and_bob /\
  is_member alice_and_bob "A" "r1" = true /\
  "r1" <> "r2" /\
  acknowledged
    (snd (step alice_and_bob
            (Event "A" "join-request" (join_data "r2" "alice") 3%Z)))
    "A" "r2" /\
  own_room (sids alice_and_bob) "A" /\
  "r1" <> "A" /\
  let st' := fst (step alice_and_bob
                    (Event "A" "join-request" (join_data "r2" "alice") 3%Z)) in
  let out := snd (step alice_and_bob
                    (Event "A" "join-request" (join_data "r2" "alice") 3%Z)) in
  exists roomX user,
    JsMap.get (rooms alice_and_bob) "r1" = Some roomX /\
    JsMap.get roomX "A" = Some user /\
    (JsMap.delete roomX "A" = [] -> JsMap.has (rooms st') "r1" = false) /\
    (JsMap.delete roomX "A" <> [] ->
     JsMap.get (rooms st') "r1" = Some (JsMap.delete roomX "A") /\
     forall m, m <> "A" -> is_member alice_and_bob m "r1" = true ->
       receives out m "user-left"
         (PUserLeft "A" (Some (User.username user)))) /\
    (exists gone joining,
        out = gone ++ joining /\
        (forall e, In e gone ->
           exists m, e = Emit m "user-left"
                           (PUserLeft "A" (Some (User.username user)))) /\
        (exists p rest, joining = Emit "A" "join-accepted" p :: rest) /\
        (forall m p, ~ In (Emit m "user-left" p) joining)) /\
    (forall r, is_member st' "A" r = true <-> r = "r2") /\
    ~ In "A" (in_room (sids st') "r1") /\
    In "A" (in_room (sids st') "r2").
Proof.
  assert (h1 : reachable alice_and_bob) by apply alice_and_bob_reachable.
  assert (h2 : is_member alice_and_bob "A" "r1" = true) by reflexivity.
  assert (h3 : "r1" <> "r2") by discriminate.
  assert (h4 : acknowledged
                 (snd (step alice_and_bob
                         (Event "A" "join-request" (join_data "r2" "alice") 3%Z)))
                 "A" "r2").
  { unfold acknowledged. eexists _, _. vm_compute. pick_in. }
  assert (h5 : own_room (sids alice_and_bob) "A") by reflexivity.
  assert (h6 : "r1" <> "A") by discriminate.
  exact (conj h1 (conj h2 (conj h3 (conj h4 (conj h5 (conj h6
    (join_moves_between_rooms alice_and_bob "A" "r1" "r2"
       (join_data "r2" "alice") 3%Z h1 h2 h3 h4 h5 h6))))))).
Defined.

(* ================================================================== *)
(** * A connection restored by connection state recovery *)

(** X28.  A and B have joined "r1", A's connection closes and is restored.
    The [disconnect] listener has taken A out of [rooms] and
    [userSocketMap], and the restored socket is back in the socket.io room
    "r1": A is connected, a member of no room, and receives B's
    [code-update] for "r1".  The join handler leaves the room it finds in
    the directory only, so after A's join request for "r2" A is a member
    of "r2" and still in the socket.io room "r1", and still receives B's
    [code-update] for "r1". *)
Theorem restored_connection_stays_in_old_room :
  let relay := Event "B" "code-change" (Some code_data) 5%Z in
  let update :=
    PCodeUpdate (field code_data "code") (field code_data "cursorPos")
      (field code_data "filePath") "B" 5%Z in
  let moved :=
    fst (step alice_restored
           (Event "A" "join-request" (join_data "r2" "alice") 4%Z)) in
  connected alice_restored "A" = true /\
  getRoomForSocket (rooms alice_restored) "A" = None /\
  JsMap.get (userSocketMap alice_restored) "A" = None /\
  JsMap.get (sids alice_restored) "A" = Some ["A"; "r1"] /\
  receives (snd (step alice_restored relay)) "A" "code-update" update /\
  is_member moved "A" "r2" = true /\
  is_member moved "A" "r1" = false /\
  JsMap.get (sids moved) "A" = Some ["A"; "r1"; "r2"] /\
  receives (snd (step moved relay)) "A" "code-update" update.
Proof.
  cbv zeta. repeat split; try reflexivity; vm_compute; left; reflexivity.
Qed.

(* ================================================================== *)
(** * The close of a member's connection *)

(** X29.  In every reachable state, the close of the connection of a
    member of a room takes the connection out of the room directory and
    out of the registry; the room is dropped, and nothing is emitted, if
    that empties it; otherwise the room keeps its other members and each
    of them receives [user-left] with the id of the connection and its
    username. *)
Theorem disconnect_removes_and_notifies (st : State) (socket roomId : string) :
  reachable st ->
  is_member st socket roomId = true ->
  let st' := fst (step st (Disconnect socket)) in
  let out := snd (step st (Disconnect socket)) in
  exists room user,
    JsMap.get (rooms st) roomId = Some room /\
    JsMap.get room socket = Some user /\
    (forall r, is_member st' socket r = false) /\
    JsMap.get (userSocketMap st') socket = None /\
    (JsMap.delete room socket = [] ->
     JsMap.has (rooms st') roomId = false /\ out = []) /\
    (JsMap.delete room socket <> [] ->
     JsMap.get (rooms st') roomId = Some (JsMap.delete room socket) /\
     forall m, m <> socket -> is_member st m roomId = true ->
       receives out m "user-left"
         (PUserLeft socket (Some (User.username user)))).
Proof.
  intros Hreach Hmem.
  pose proof (reachable_Inv _ Hreach) as HI.
  pose proof (is_member_connected _ _ _ HI Hmem) as Hconn.
  pose proof Hmem as Hmem'. apply is_member_true in Hmem'.
  destruct Hmem' as [room [user [Hroom Huser]]].
  assert (Hhas : JsMap.has room socket = true) by (apply has_true; eauto).
  cbv zeta. rewrite (step_disconnect _ _ Hconn).
  set (ss := JsMap.set (sessions st) socket (rooms_of (sids st) socket)).
  set (tbl := JsMap.delete (sids st) socket).
  assert (Hwft : JsMap.wf tbl) by (apply wf_delete, (inv_sids_wf _ HI)).
  assert (Htbl : forall k, k <> socket ->
                           JsMap.get tbl k = JsMap.get (sids st) k).
  { intros k Hk. now apply get_delete_other. }
  destruct (disconnect_spec st socket ss tbl HI Hwft Htbl)
    as [_ [Hnot [Hrooms _]]].
  pose proof (disconnect_effects st socket ss tbl _ _ _ HI Hroom Huser) as Hout.
  exists room, user. split; [assumption|]. split; [assumption|].
  split; [exact Hnot|].
  split; [eapply disconnect_registry; eassumption|].
  rewrite Hrooms, Hroom, (without_member _ _ Hhas), Hout.
  split.
  - intros Hnil. apply size_zero in Hnil. rewrite Hnil.
    split; [|reflexivity]. unfold JsMap.has. rewrite Hrooms, Hroom.
    now rewrite (without_member _ _ Hhas), Hnil.
  - intros Hnn.
    destruct (JsMap.size (JsMap.delete room socket) =? 0)%nat eqn:Hsz;
      [apply size_zero in Hsz; contradiction|].
    split; [reflexivity|].
    intros m Hm Hmm. unfold receives. apply io_to_emit_In.
    exists m. split; [reflexivity|].
    apply (member_in_room st tbl socket m roomId HI); assumption.
Qed.

Lemma disconnect_removes_and_notifies_witness :
  reachable alice_and_bob /\
  is_member alice_and_bob "A" "r1" = true /\
  let st' := fst (step alice_and_bob (Disconnect "A")) in
  let out := snd (step alice_and_bob (Disconnect "A")) in
  exists room user,
    JsMap.get (rooms alice_and_bob) "r1" = Some room /\
    JsMap.get room "A" = Some user /\
    (forall r, is_member st' "A" r = false) /\
    JsMap.get (userSocketMap st') "A" = None /\
    (JsMap.delete room "A" = [] ->
     JsMap.has (rooms st') "r1" = false /\ out = []) /\
    (JsMap.delete room "A" <> [] ->
     JsMap.get (rooms st') "r1" = Some (JsMap.delete room "A") /\
     forall m, m <> "A" -> is_member alice_and_bob m "r1" = true ->
       receives out m "user-left"
         (PUserLeft "A" (Some (User.username user)))).
Proof.
  assert (h1 : reachable alice_and_bob) by apply alice_and_bob_reachable.
  assert (h2 : is_member alice_and_bob "A" "r1" = true) by reflexivity.
  exact (conj h1 (conj h2
    (disconnect_removes_and_notifies alice_and_bob "A" "r1" h1 h2))).
Defined.
